(** * Form_Filler: field detection and matching engine

    A shallow embedding of [src/screen_analyzer.py] (class [ScreenAnalyzer])
    and [src/field_matcher.py] (class [FieldMatcher]), with the properties
    the design document states about them, and of the two methods of
    [src/form_filler.py] that call them, [_auto_detect_web_fields] and
    [fill_screen_form].

    Conventions of the embedding.
    - Python [str] is [string], one [ascii] for each character, which is
      its code point: the text handled here (OCR output, form labels,
      answers of the service, regex sources) is taken to hold characters
      up to U+00FF, and the character classes and [lower] are those of
      Python on these characters. The character "é" is ["233"%char];
      [Py.text] reads a literal with accents.
    - Python [int] is [Z].
    - [FieldMatch.confidence] is a binary64 float ([PrimFloat.float]):
      the matcher adds and subtracts decimal constants, and the rounding of
      those sums is what the code returns.
    - The overlap ratio of the deduplicator is the float that the
      division of two integers gives, with its rounding ([PyInt.truediv]);
      it is written as the rational number the float denotes.
    - [FormField.confidence] and the aspect ratio of a contour are only
      ever compared; they are finite floats and are modelled by the
      rational number each one denotes ([Q]), which preserves every
      comparison the code makes (the aspect ratio is the quotient of two
      integers below 800, and rounding is monotone and exact at 1.5 and
      20).
    - An exception is a value of [exn]; a [try ... except] that swallows it
      is an [option].
    - Results of the external engines (OpenCV contours, Tesseract OCR, the
      text-understanding service) are supplied as data or as functions:
      they are inputs of the program. *)

From Stdlib Require Import ZArith QArith Lia Lqa Bool Ascii String List.
From Stdlib Require Import Sorting.Permutation Sorting.Sorted.
From Stdlib Require Import Floats.PrimFloat Floats.SpecFloat Floats.FloatOps.
From stdpp Require Import base gmap strings list.
Import ListNotations.

Set Warnings "-inexact-float".

Local Open Scope string_scope.
Local Open Scope bool_scope.

(** ** Python string operations *)

Module Py.

Definition ord (c : ascii) : nat := nat_of_ascii c.

(** [start <= ord c <= stop] *)
Definition between (start stop : nat) (c : ascii) : bool :=
  ((start <=? ord c) && (ord c <=? stop))%nat.

(** [str.isspace], which is also the class [\s] and what [strip]
    removes: TAB..CR, FS..US, the space, NEL and the no-break space. *)
Definition isspace (c : ascii) : bool :=
  between 9 13 c || between 28 32 c || between 133 133 c || between 160 160 c.

(** [str.isdecimal]: the digits [float] and [int] read. *)
Definition isdecimal (c : ascii) : bool := between 48 57 c.

(** [str.isalnum]: letters and numeric characters. Beyond ASCII these
    are the ordinal indicators, the superscript digits, the micro sign,
    the vulgar fractions and the accented letters, the multiplication
    and division signs excepted. *)
Definition isalnum (c : ascii) : bool :=
  between 48 57 c || between 65 90 c || between 97 122 c
  || between 170 170 c || between 178 179 c || between 181 181 c
  || between 185 186 c || between 188 190 c
  || between 192 214 c || between 216 246 c || between 248 255 c.

(** The class [\w]: alphanumeric characters and the underscore. *)
Definition isword (c : ascii) : bool := isalnum c || between 95 95 c.

(** Letters and digits of ASCII. *)
Definition isascii_alnum (c : ascii) : bool :=
  between 48 57 c || between 65 90 c || between 97 122 c.

(** The characters [lower] changes: the capital letters, each of which
    has its small letter 32 places further on. *)
Definition isupper (c : ascii) : bool :=
  between 65 90 c || between 192 214 c || between 216 222 c.

Definition lower_char (c : ascii) : ascii :=
  if isupper c then ascii_of_nat (ord c + 32) else c.

(** [s.lower()] *)
Fixpoint lower (s : string) : string :=
  match s with
  | EmptyString => EmptyString
  | String c r => String (lower_char c) (lower r)
  end.

Fixpoint lstrip_by (drop : ascii -> bool) (s : string) : string :=
  match s with
  | EmptyString => EmptyString
  | String c r => if drop c then lstrip_by drop r else s
  end.

Fixpoint rstrip_by (drop : ascii -> bool) (s : string) : string :=
  match s with
  | EmptyString => EmptyString
  | String c r =>
      match rstrip_by drop r with
      | EmptyString => if drop c then EmptyString else String c EmptyString
      | r' => String c r'
      end
  end.

Definition strip_by (drop : ascii -> bool) (s : string) : string :=
  rstrip_by drop (lstrip_by drop s).

(** [s.strip()] *)
Definition strip : string -> string := strip_by isspace.

Fixpoint mem (c : ascii) (chars : string) : bool :=
  match chars with
  | EmptyString => false
  | String d r => Ascii.eqb c d || mem c r
  end.

(** [s.strip(chars)]: [chars] is a set of characters, not a prefix. *)
Definition strip_chars (chars s : string) : string :=
  strip_by (fun c => mem c chars) s.

(** [needle in hay] *)
Fixpoint contains (needle hay : string) : bool :=
  String.prefix needle hay ||
  match hay with
  | EmptyString => false
  | String _ r => contains needle r
  end.

(** [s.replace(old, new)] for a non-empty [old]: occurrences are
    replaced left to right without overlap; [skip] counts the characters
    of the occurrence just replaced that are still to be passed over. *)
Fixpoint replace_from (old new : string) (skip : nat) (s : string) : string :=
  match s with
  | EmptyString => EmptyString
  | String c r =>
      match skip with
      | S k => replace_from old new k r
      | O =>
          if String.prefix old s
          then new ++ replace_from old new (String.length old - 1) r
          else String c (replace_from old new 0 r)
      end
  end.

(** With an empty [old] Python puts [new] before every character and at
    the end. *)
Fixpoint interleave (new s : string) : string :=
  match s with
  | EmptyString => new
  | String c r => new ++ String c (interleave new r)
  end.

Definition replace (old new s : string) : string :=
  match old with
  | EmptyString => interleave new s
  | _ => replace_from old new 0 s
  end.

(** [s.split(sep)] for a one-character separator. *)
Fixpoint split (sep : ascii) (s : string) : list string :=
  match s with
  | EmptyString => [EmptyString]
  | String c r =>
      if Ascii.eqb c sep then EmptyString :: split sep r
      else match split sep r with
           | p :: ps => String c p :: ps
           | [] => [String c EmptyString]
           end
  end.

(** Truth value of a [str]. *)
Definition truthy (s : string) : bool :=
  match s with EmptyString => false | _ => true end.

(** A literal of this development stands for the bytes of its UTF-8
    encoding. [text] is the string these bytes encode, for characters
    up to U+00FF: those from U+0080 on are encoded in two bytes, the
    first of which is 194 or 195. *)
Fixpoint text (bytes : string) : string :=
  match bytes with
  | String b (String c r as rest) =>
      if (ord b =? 194)%nat then String c (text r)
      else if (ord b =? 195)%nat then String (ascii_of_nat (ord c + 64)) (text r)
      else String b (text rest)
  | _ => bytes
  end.

End Py.

(** ** The fragment of [re] the pattern table is written in

    Every pattern of the table is a sequence of literal characters, escaped
    punctuation, the class [\s] (possibly starred) and the assertion [\b].
    [compile] rejects anything else. *)

Module Re.

Inductive atom : Type :=
| Lit (c : ascii)          (* a literal character *)
| Space.                   (* \s *)

Inductive item : Type :=
| One (a : atom)
| Star (a : atom)          (* a* *)
| Boundary.                (* \b *)

Inductive token : Type :=
| TAtom (a : atom)
| TBoundary
| TStar.

Definition special (c : ascii) : bool := Py.mem c ".^$*+?{}[]|()\".

Fixpoint tokens (s : string) : option (list token) :=
  match s with
  | EmptyString => Some []
  | String "\" EmptyString => None
  | String "\" (String c r) =>
      let t :=
        if Ascii.eqb c "b" then Some TBoundary
        else if Ascii.eqb c "s" then Some (TAtom Space)
        else if Py.isascii_alnum c then None
        else Some (TAtom (Lit c)) in
      match t, tokens r with
      | Some t, Some ts => Some (t :: ts)
      | _, _ => None
      end
  | String c r =>
      let t :=
        if Ascii.eqb c "*" then Some TStar
        else if special c then None
        else Some (TAtom (Lit c)) in
      match t, tokens r with
      | Some t, Some ts => Some (t :: ts)
      | _, _ => None
      end
  end.

Fixpoint items (ts : list token) : option (list item) :=
  match ts with
  | [] => Some []
  | TAtom a :: TStar :: r => option_map (cons (Star a)) (items r)
  | TAtom a :: r => option_map (cons (One a)) (items r)
  | TBoundary :: r => option_map (cons Boundary) (items r)
  | TStar :: _ => None
  end.

Definition compile (pattern : string) : option (list item) :=
  match tokens pattern with
  | Some ts => items ts
  | None => None
  end.

Definition atom_matches (a : atom) (c : ascii) : bool :=
  match a with
  | Lit d => Ascii.eqb c d
  | Space => Py.isspace c
  end.

Definition word_before (prev : option ascii) : bool :=
  match prev with Some c => Py.isword c | None => false end.

Definition word_after (s : string) : bool :=
  match s with String c _ => Py.isword c | EmptyString => false end.

(** Does the item sequence match a prefix of [s], [prev] being the
    character just before [s] in the subject? *)
Fixpoint match_here (its : list item) (prev : option ascii) (s : string) : bool :=
  match its with
  | [] => true
  | One a :: k =>
      match s with
      | String c r => atom_matches a c && match_here k (Some c) r
      | EmptyString => false
      end
  | Boundary :: k =>
      xorb (word_before prev) (word_after s) && match_here k prev s
  | Star a :: k =>
      (fix star (prev : option ascii) (s : string) {struct s} : bool :=
         match_here k prev s ||
         match s with
         | String c r => atom_matches a c && star (Some c) r
         | EmptyString => false
         end) prev s
  end.

Fixpoint search_from (its : list item) (prev : option ascii) (s : string) : bool :=
  match_here its prev s ||
  match s with
  | String c r => search_from its (Some c) r
  | EmptyString => false
  end.

(** [re.search(pattern, s) is not None] *)
Definition search (pattern s : string) : bool :=
  match compile pattern with
  | Some its => search_from its None s
  | None => false
  end.

End Re.

(** ** The builtin [float(str)]

    The decimal grammar of Python's [float]: optional sign, then [inf],
    [infinity], [nan] (any case) or digits with an optional fraction and an
    optional exponent, single underscores allowed between digits; blanks
    around it are ignored.  The value is rounded to the nearest binary64,
    ties to even, by the reference operations of [SpecFloat]. *)

Module PyFloat.

Definition digit_val (c : ascii) : Z := Z.of_nat (Py.ord c) - 48.

(** The rest of a digit part, after its first digit: [(["_"] digit)*]. *)
Fixpoint digits_rest (s : string) : list Z * string :=
  match s with
  | String c r =>
      if Py.isdecimal c then
        let '(ds, r') := digits_rest r in (digit_val c :: ds, r')
      else if Ascii.eqb c "_" then
        match r with
        | String d r2 =>
            if Py.isdecimal d then
              let '(ds, r') := digits_rest r2 in (digit_val d :: ds, r')
            else ([], s)
        | EmptyString => ([], s)
        end
      else ([], s)
  | EmptyString => ([], EmptyString)
  end.

(** A digit part, if [s] starts with one. *)
Definition digitpart (s : string) : option (list Z * string) :=
  match s with
  | String c r =>
      if Py.isdecimal c then
        let '(ds, r') := digits_rest r in Some (digit_val c :: ds, r')
      else None
  | EmptyString => None
  end.

Definition sign (s : string) : bool * string :=
  match s with
  | String "-" r => (true, r)
  | String "+" r => (false, r)
  | _ => (false, s)
  end.

Definition of_digits (ds : list Z) : Z :=
  fold_left (fun acc d => 10 * acc + d)%Z ds 0%Z.

(** [number ::= [digitpart] "." digitpart | digitpart ["."]]: the digits
    read and how many of them follow the point. *)
Definition number (s : string) : option (list Z * Z * string) :=
  match digitpart s with
  | Some (ip, String "." r) =>
      match digitpart r with
      | Some (fp, r') => Some ((ip ++ fp)%list, Z.of_nat (length fp), r')
      | None => Some (ip, 0%Z, r)
      end
  | Some (ip, r) => Some (ip, 0%Z, r)
  | None =>
      match s with
      | String "." r =>
          match digitpart r with
          | Some (fp, r') => Some (fp, Z.of_nat (length fp), r')
          | None => None
          end
      | _ => None
      end
  end.

(** [exponent ::= ("e" | "E") [sign] digitpart], or nothing. *)
Definition exponent (s : string) : option (Z * string) :=
  match s with
  | String c r =>
      if Ascii.eqb (Py.lower_char c) "e" then
        let '(neg, r1) := sign r in
        match digitpart r1 with
        | Some (ds, r2) =>
            Some ((if neg then - of_digits ds else of_digits ds)%Z, r2)
        | None => None
        end
      else Some (0%Z, s)
  | EmptyString => Some (0%Z, s)
  end.

(** The binary64 nearest to [m * 10 ^ e], for [m >= 0]. *)
Definition round_decimal (neg : bool) (m e : Z) : float :=
  match m with
  | Zpos p =>
      if (0 <=? e)%Z then
        SF2Prim (binary_normalize prec emax
                   (if neg then - (m * 10 ^ e) else m * 10 ^ e)%Z 0%Z neg)
      else
        SF2Prim (SFdiv prec emax
                   (S754_finite neg p 0%Z)
                   (S754_finite false (Z.to_pos (10 ^ (- e))) 0%Z))
  | _ => if neg then (-0)%float else 0%float
  end.

(** The blanks [float] passes over at both ends: the white space of
    ASCII proper, TAB..CR and the space, and the white space beyond
    ASCII. *)
Definition blank (c : ascii) : bool :=
  Py.between 9 13 c || Py.between 32 32 c || (Py.between 128 255 c && Py.isspace c).

Definition float (text : string) : option PrimFloat.float :=
  let '(neg, s) := sign (Py.strip_by blank text) in
  let name := Py.lower s in
  if String.eqb name "inf" || String.eqb name "infinity" then
    Some (if neg then neg_infinity else infinity)
  else if String.eqb name "nan" then Some nan
  else
    match number s with
    | Some (ds, scale, r) =>
        match exponent r with
        | Some (e, EmptyString) => Some (round_decimal neg (of_digits ds) (e - scale))
        | _ => None
        end
    | None => None
    end.

End PyFloat.

(** ** Outcomes of calls that may raise *)

Inductive exn : Type :=
| ValueError (msg : string)
| ZeroDivisionError
| OverflowError
| cv2_error.                       (* cv2.error *)

Inductive result (A : Type) : Type :=
| Return (a : A)
| Raise (e : exn).

Arguments Return {A} a.
Arguments Raise {A} e.

(** Strict comparison of two confidences or ratios. *)
Definition Qltb (a b : Q) : bool := negb (Qle_bool b a).

(** ** True division of integers

    [a / b] on two [int]s is the binary64 number nearest to the exact
    quotient, ties going to the even mantissa, whatever the size of the
    operands; the operation raises when [b] is zero and when the rounded
    quotient is beyond the largest float. A float is written as the
    rational number it denotes. *)

Module PyInt.

(** The integer nearest to [n / d], for [d > 0]; of two nearest ones,
    the even one. *)
Definition round_half_even (n d : Z) : Z :=
  let q := (n / d)%Z in
  match (2 * (n mod d) ?= d)%Z with
  | Lt => q
  | Gt => (q + 1)%Z
  | Eq => if Z.even q then q else (q + 1)%Z
  end.

(** [floor (log2 (a / b))], for [a > 0] and [b > 0]. *)
Definition floor_log2 (a b : Z) : Z :=
  let k := (Z.log2 a - Z.log2 b)%Z in
  if (a * 2 ^ Z.log2 b <? b * 2 ^ Z.log2 a)%Z then (k - 1)%Z else k.

(** The binary64 number nearest to [a / b], for [a > 0] and [b > 0], as
    a mantissa [m] and an exponent [e]: 52 bits are kept below the
    leading one, or the bits down to [2 ^ -1074] where these are
    fewer. *)
Definition nearest (a b : Z) : Z * Z :=
  let e := Z.max (floor_log2 a b - 52) (-1074) in
  let m :=
    if (e <? 0)%Z then round_half_even (a * 2 ^ (- e)) b
    else round_half_even a (b * 2 ^ e) in
  (m, e).

(** [m * 2 ^ e] *)
Definition value (m e : Z) : Q :=
  if (e <? 0)%Z then Qmake m (Z.to_pos (2 ^ (- e))) else inject_Z (m * 2 ^ e).

(** [a / b] *)
Definition truediv (a b : Z) : result Q :=
  if (b =? 0)%Z then Raise ZeroDivisionError
  else if (a =? 0)%Z then Return 0%Q
  else
    let '(m, e) := nearest (Z.abs a) (Z.abs b) in
    if (0 <=? e)%Z && (2 ^ 1024 <=? m * 2 ^ e)%Z then Raise OverflowError
    else Return (if (Z.sgn a =? Z.sgn b)%Z then value m e else - value m e)%Q.

(** The same quotient by the reference division of [SpecFloat], absent
    when that is infinite. *)
Definition of_int (a : Z) : spec_float :=
  match a with
  | Z0 => S754_zero false
  | Zpos p => S754_finite false p 0
  | Zneg p => S754_finite true p 0
  end.

Definition reference (a b : Z) : option Q :=
  match SFdiv prec emax (of_int a) (of_int b) with
  | S754_zero _ => Some 0%Q
  | S754_finite s m e => Some (if s then - value (Zpos m) e else value (Zpos m) e)%Q
  | _ => None
  end.

(** The outcome is a float that denotes [q]. *)
Definition gives (outcome : result Q) (q : Q) : bool :=
  match outcome with
  | Return v => Qeq_bool v q
  | Raise _ => false
  end.

Definition agrees (a b : Z) : bool :=
  match truediv a b, reference a b with
  | Return q, Some r => Qeq_bool q r
  | Raise OverflowError, None => true
  | _, _ => false
  end.

End PyInt.

(** ** [screen_analyzer.py] *)

Module ScreenAnalyzer.

Record FormField : Type := {
  x : Z;
  y : Z;
  width : Z;
  height : Z;
  field_type : string;              (* 'input', 'textarea', 'select', 'file' *)
  label : option string;
  placeholder : option string;
  confidence : Q
}.

(** *** What the vision and OCR engines report about a frame *)

(** A contour found by [cv2.findContours] on the edge image, with its
    [cv2.boundingRect] and its [cv2.contourArea]. *)
Record Contour : Type := {
  bounding_rect : Z * Z * Z * Z;    (* x, y, w, h *)
  contour_area : Q
}.

(** A rectangular view [gray[row0:row1, col0:col1]], bounds already
    brought into range. *)
Record Slice : Type := { row0 : Z; row1 : Z; col0 : Z; col1 : Z }.

(** One index of the columns of [pytesseract.image_to_data]:
    [text], [conf] (after [int(...)], absent when that conversion
    raises), [left], [top], [width], [height]. Tesseract reports the
    extent of a box as natural numbers of pixels, and a confidence
    from -1 to 100, so that [conf / 100.0] is the float nearest to the
    rational number kept in [FormField.confidence]. *)
Record Token : Type := {
  tok_text : string;
  tok_conf : option Z;
  tok_left : Z;
  tok_top : Z;
  tok_width : N;
  tok_height : N
}.

(** A frame: the layout of the image array, and what the external
    engines answer on it once OpenCV has taken it. [image_to_string] and
    [image_to_data] are absent when the engine raises. *)
Record Frame : Type := {
  rows : Z;                                   (* screenshot.shape[0] *)
  cols : Z;                                   (* screenshot.shape[1] *)
  channels : Z;                               (* screenshot.shape[2], 1 without a third axis *)
  dtype : string;                             (* str(screenshot.dtype) *)
  contours : list Contour;
  image_to_string : Slice -> option string;
  image_to_data : option (list Token)
}.

(** [cv2.cvtColor(screenshot, cv2.COLOR_BGR2GRAY)], [cv2.Canny] and
    [cv2.findContours] in a row raise [cv2.error] unless the array holds
    at least one pixel of three or four 8-bit channels. *)
Definition opencv_accepts (screenshot : Frame) : bool :=
  (0 <? rows screenshot)%Z && (0 <? cols screenshot)%Z
  && ((channels screenshot =? 3)%Z || (channels screenshot =? 4)%Z)
  && String.eqb (dtype screenshot) "uint8".

Record ScreenAnalyzer : Type := {
  screenshot : option Frame;
  form_fields : list FormField
}.

(** [ScreenAnalyzer()] *)
Definition __init__ : ScreenAnalyzer :=
  {| screenshot := None; form_fields := [] |}.

(** *** [_classify_field_type] *)

Definition _classify_field_type (x y w h : Z) : string :=
  if (80 <? h)%Z then "textarea"
  else if (400 <? w)%Z && (h <? 50)%Z then "input"
  else if (100 <? w)%Z && (w <? 200)%Z && (20 <? h)%Z && (h <? 40)%Z then "select"
  else "input".

(** *** [_extract_nearby_text] *)

(** A slice bound [i] on an axis of length [n]: negative bounds count
    from the end, and every bound is clipped to the axis. *)
Definition slice_bound (n i : Z) : Z :=
  if (i <? 0)%Z then Z.max (i + n) 0 else Z.min i n.

(** [gray[r0:r1, c0:c1]] *)
Definition crop (gray : Frame) (r0 r1 c0 c1 : Z) : Slice :=
  {| row0 := slice_bound (rows gray) r0; row1 := slice_bound (rows gray) r1;
     col0 := slice_bound (cols gray) c0; col1 := slice_bound (cols gray) c1 |}.

(** [region.size] *)
Definition size (region : Slice) : Z :=
  (Z.max 0 (row1 region - row0 region) * Z.max 0 (col1 region - col0 region))%Z.

Definition margin : Z := 20.
Definition height_expansion : Z := 40.

Definition search_regions (x y w h : Z) (gray : Frame) : list Slice :=
  [ (* Left side *)
    crop gray (Z.max 0 (y - margin)) (y + h + margin) (Z.max 0 (x - 200)) x;
    (* Above *)
    crop gray (Z.max 0 (y - height_expansion)) y x (x + w);
    (* Right side *)
    crop gray (Z.max 0 (y - margin)) (y + h + margin)
         (x + w) (Z.min (cols gray) (x + w + 200)) ]%Z.

(** [re.sub(r'[^\w\s]', '', text)] *)
Fixpoint remove_non_word (text : string) : string :=
  match text with
  | EmptyString => EmptyString
  | String c r =>
      if Py.isword c || Py.isspace c then String c (remove_non_word r)
      else remove_non_word r
  end.

(** The text the loop body computes from what the OCR engine returned. *)
Definition clean (raw : string) : string :=
  Py.strip (remove_non_word (Py.strip raw)).

Definition acceptable (text : string) : bool :=
  (2 <? String.length text)%nat && (String.length text <? 50)%nat.

(** The [for region in search_regions] loop. *)
Fixpoint first_label (gray : Frame) (regions : list Slice) : option string :=
  match regions with
  | [] => None
  | region :: rest =>
      if (size region =? 0)%Z then first_label gray rest
      else
        match image_to_string gray region with
        | None => first_label gray rest              (* except: continue *)
        | Some raw =>
            let text := clean raw in
            if acceptable text then Some text else first_label gray rest
        end
  end.

Definition _extract_nearby_text (x y w h : Z) (gray : Frame) : option string :=
  first_label gray (search_regions x y w h gray).

(** *** [_detect_buttons_and_uploads] *)

Definition upload_keywords : list string :=
  ["upload"; "choose file"; "browse"; "attach"; "select file"; "resume"; "cv"].

(** The loop over the OCR tokens. When [int(conf)] raises, the exception
    leaves the loop and is swallowed: the fields found so far are kept. *)
Fixpoint upload_fields (tokens : list Token) : list FormField :=
  match tokens with
  | [] => []
  | t :: rest =>
      let text := Py.lower (tok_text t) in
      match tok_conf t with
      | None => []
      | Some confidence =>
          if (30 <? confidence)%Z && existsb (fun keyword => Py.contains keyword text) upload_keywords
          then
            {| x := Z.max 0 (tok_left t - 20); y := Z.max 0 (tok_top t - 10);
               width := Z.of_N (tok_width t) + 40; height := Z.of_N (tok_height t) + 20;
               field_type := "file";
               label := Some (tok_text t);
               placeholder := None;
               confidence := (inject_Z confidence / 100)%Q |}
            :: upload_fields rest
          else upload_fields rest
      end
  end.

Definition _detect_buttons_and_uploads (gray : Frame) : list FormField :=
  match image_to_data gray with
  | None => []
  | Some tokens => upload_fields tokens
  end.

(** *** [_remove_duplicates] *)

(** [fields.sort(key=lambda f: f.confidence, reverse=True)]: a stable
    sort into non-increasing confidence, written as insertion from the
    right. *)
Fixpoint insert_desc (f : FormField) (l : list FormField) : list FormField :=
  match l with
  | [] => [f]
  | g :: r =>
      if Qltb (confidence f) (confidence g) then g :: insert_desc f r
      else f :: l
  end.

Definition sort_by_confidence (fields : list FormField) : list FormField :=
  foldr insert_desc [] fields.

Definition overlap_area (field existing : FormField) : Z :=
  let overlap_x :=
    Z.max 0 (Z.min (x field + width field) (x existing + width existing)
             - Z.max (x field) (x existing)) in
  let overlap_y :=
    Z.max 0 (Z.min (y field + height field) (y existing + height existing)
             - Z.max (y field) (y existing)) in
  (overlap_x * overlap_y)%Z.

Definition area (f : FormField) : Z := (width f * height f)%Z.

(** [overlap_area / min(field_area, existing_area)], a division of
    integers that gives a float. *)
Definition overlap_ratio (field existing : FormField) : result Q :=
  PyInt.truediv (overlap_area field existing) (Z.min (area field) (area existing)).

(** The inner loop: is [field] a duplicate of a field already kept? *)
Fixpoint is_duplicate (field : FormField) (filtered_fields : list FormField)
  : result bool :=
  match filtered_fields with
  | [] => Return false
  | existing :: rest =>
      match overlap_ratio field existing with
      | Raise e => Raise e
      | Return overlap_ratio =>
          if Qltb (1 # 2)%Q overlap_ratio then Return true
          else is_duplicate field rest
      end
  end.

(** The outer loop, [filtered_fields] being the fields kept so far. *)
Fixpoint suppress (fields filtered_fields : list FormField)
  : result (list FormField) :=
  match fields with
  | [] => Return filtered_fields
  | field :: rest =>
      match is_duplicate field filtered_fields with
      | Raise e => Raise e
      | Return true => suppress rest filtered_fields
      | Return false => suppress rest (filtered_fields ++ [field])%list
      end
  end.

(** What a call computes from the content of its argument. *)
Definition deduplicate (fields : list FormField) : result (list FormField) :=
  match fields with
  | [] => Return []
  | _ => suppress (sort_by_confidence fields) []
  end.

(** Lists are objects: a store maps a reference to the content of the
    list it denotes (a reference the store does not know reads as the
    empty list). *)
Definition ref : Type := nat.
Abbreviation store := (gmap ref (list FormField)).

(** [_remove_duplicates(fields)]: the empty list is returned as it is;
    otherwise the argument is sorted in place and the kept fields are
    collected in a list of their own. *)
Definition _remove_duplicates (fields : ref) (sigma : store)
  : result ref * store :=
  match default [] (sigma !! fields) with
  | [] => (Return fields, sigma)
  | content =>
      let sorted := sort_by_confidence content in
      let sigma := <[fields := sorted]> sigma in
      match suppress sorted [] with
      | Return kept =>
          let filtered_fields := fresh (dom sigma) in
          (Return filtered_fields, <[filtered_fields := kept]> sigma)
      | Raise e => (Raise e, sigma)
      end
  end.

(** *** [detect_form_fields] *)

Definition passes_filter (c : Contour) : bool :=
  let '(_, _, w, h) := bounding_rect c in
  (20 <? w)%Z && (w <? 800)%Z && (15 <? h)%Z && (h <? 100)%Z
  && Qltb 300%Q (contour_area c)
  && (let aspect_ratio := (inject_Z w / inject_Z h)%Q in
      Qltb (3 # 2)%Q aspect_ratio && Qltb aspect_ratio 20%Q).

(** The loop over the contours. *)
Definition contour_fields (gray : Frame) : list FormField :=
  flat_map
    (fun contour =>
       let '(x, y, w, h) := bounding_rect contour in
       if passes_filter contour then
         [ {| x := x; y := y; width := w; height := h;
              field_type := _classify_field_type x y w h;
              label := _extract_nearby_text x y w h gray;
              placeholder := None;
              confidence := (7 # 10)%Q |} ]
       else [])
    (contours gray).

Definition detect_form_fields (self : ScreenAnalyzer) (screenshot_arg : option Frame)
  : result (list FormField) * ScreenAnalyzer :=
  let screenshot_arg :=
    match screenshot_arg with
    | None => screenshot self
    | Some _ => screenshot_arg
    end in
  match screenshot_arg with
  | None =>
      (Raise (ValueError "No screenshot available. Call capture_screen() first."), self)
  | Some gray =>
      if negb (opencv_accepts gray) then (Raise cv2_error, self)
      else
        let form_fields := contour_fields gray in
        let form_fields := (form_fields ++ _detect_buttons_and_uploads gray)%list in
        match deduplicate form_fields with
        | Return form_fields =>
            (Return form_fields,
             {| screenshot := screenshot self; form_fields := form_fields |})
        | Raise e => (Raise e, self)
        end
  end.

(** *** [capture_screen]

    What [pyautogui.screenshot] delivers is an RGB image of the screen,
    or of the region asked for, with at least one pixel, given here with
    what the engines will answer on the frame made of it; a screen
    source that fails, or that delivers an image without pixels, ends
    the call before anything is stored and is not modelled. The frame
    kept is the image after [cv2.cvtColor(..., cv2.COLOR_RGB2BGR)]: three
    8-bit channels. *)

Record Screenshot : Type := {
  shot_height : positive;
  shot_width : positive;
  shot_contours : list Contour;
  shot_image_to_string : Slice -> option string;
  shot_image_to_data : option (list Token)
}.

Definition capture_screen (self : ScreenAnalyzer) (screenshot : Screenshot)
  : Frame * ScreenAnalyzer :=
  let frame :=
    {| rows := Zpos (shot_height screenshot); cols := Zpos (shot_width screenshot);
       channels := 3; dtype := "uint8";
       contours := shot_contours screenshot;
       image_to_string := shot_image_to_string screenshot;
       image_to_data := shot_image_to_data screenshot |} in
  (frame, {| screenshot := Some frame; form_fields := form_fields self |}).

(** *** [visualize_detected_fields]

    The image returned is the screenshot with drawings on it; the model
    keeps the drawing calls, in the order they are made. *)

Inductive DrawOp : Type :=
| Rectangle (x0 y0 x1 y1 : Z) (outline : string) (line_width : Z)
| Text (x y : Z) (text fill : string).

Definition colors : list (string * string) :=
  [ ("input", "red"); ("textarea", "blue"); ("select", "green"); ("file", "orange") ].

(** [colors.get(field_type, 'purple')] *)
Definition color_of (field_type : string) : string :=
  match List.find (fun entry => String.eqb (fst entry) field_type) colors with
  | Some entry => snd entry
  | None => "purple"
  end.

Definition draw_field (field : FormField) : list DrawOp :=
  let color := color_of (field_type field) in
  Rectangle (x field) (y field) (x field + width field) (y field + height field) color 2
  :: match label field with
     | Some text =>
         if Py.truthy text
         then [Text (x field) (y field - 20) (field_type field ++ ": " ++ text) color]
         else []
     | None => []
     end.

Definition visualize_detected_fields (self : ScreenAnalyzer) : result (list DrawOp) :=
  match screenshot self with
  | None => Raise (ValueError "No screenshot available")
  | Some _ => Return (flat_map draw_field (form_fields self))
  end.

(** *** [get_field_at_coordinates] *)

Definition covers (field : FormField) (px py : Z) : bool :=
  (x field <=? px)%Z && (px <=? x field + width field)%Z
  && (y field <=? py)%Z && (py <=? y field + height field)%Z.

Definition get_field_at_coordinates (self : ScreenAnalyzer) (px py : Z)
  : option FormField :=
  List.find (fun field => covers field px py) (form_fields self).

End ScreenAnalyzer.

(** ** [field_matcher.py] *)

Module FieldMatcher.

Import ScreenAnalyzer.

Record FieldMatch : Type := {
  field_name : string;
  data_key : string;
  confidence : float;
  reasoning : string
}.

(** The text-understanding service, as the matcher sees it: asked for
    the [n]-th time, about a label and a field type, it answers with the
    text of its first content block, or the request raises. *)
Definition Anthropic : Type := nat -> string -> string -> option string.

Record FieldMatcher : Type := {
  anthropic : option Anthropic
}.

(** [self.field_patterns], in the order the dictionary is written. *)
Definition field_patterns : list (string * list string) :=
  [ ("first_name",
      ["\bfirst\s*name\b"; "\bfname\b"; "\bgiven\s*name\b";
       "\bforename\b"; "\bname\s*\(first\)"; "\bfirst\b"]);
    ("last_name",
      ["\blast\s*name\b"; "\blname\b"; "\bsurname\b"; "\bfamily\s*name\b";
       "\bname\s*\(last\)"; "\blast\b"]);
    ("full_name",
      ["\bfull\s*name\b"; "\bname\b"; "\bcomplete\s*name\b";
       "\byour\s*name\b"; "\bapplicant\s*name\b"]);
    ("email",
      ["\bemail\b"; "\be-mail\b"; "\bemail\s*address\b";
       "\bcontact\s*email\b"; "\bmail\b"]);
    ("phone",
      ["\bphone\b"; "\btelephone\b"; "\bmobile\b"; "\bcell\b";
       "\bphone\s*number\b"; "\bcontact\s*number\b"; "\btel\b"]);
    ("address",
      ["\baddress\b"; "\bstreet\b"; "\bhome\s*address\b";
       "\bmailing\s*address\b"; "\bresidential\s*address\b"]);
    ("city",
      ["\bcity\b"; "\btown\b"; "\blocality\b"]);
    ("state",
      ["\bstate\b"; "\bprovince\b"; "\bregion\b"]);
    ("zip",
      ["\bzip\b"; "\bpostal\s*code\b"; "\bpostcode\b"; "\bzip\s*code\b"]);
    ("country",
      ["\bcountry\b"; "\bnation\b"; "\bnationality\b"]);
    ("university",
      ["\buniversity\b"; "\bcollege\b"; "\bschool\b"; "\binstitution\b";
       "\beducation\b"; "\balma\s*mater\b"]);
    ("degree",
      ["\bdegree\b"; "\bqualification\b"; "\beducation\s*level\b";
       "\bmajor\b"; "\bfield\s*of\s*study\b"]);
    ("graduation_year",
      ["\bgraduation\b"; "\byear\b"; "\bgrad\s*year\b";
       "\bcompletion\s*year\b"; "\bgraduate\s*year\b"]);
    ("gpa",
      ["\bgpa\b"; "\bgrade\s*point\b"; "\baverage\b"; "\bgrading\b"]);
    ("visa_status",
      ["\bvisa\b"; "\bwork\s*authorization\b"; "\beligibility\b";
       "\bstatus\b"; "\bsponsorship\b"]);
    ("salary_expectation",
      ["\bsalary\b"; "\bcompensation\b"; "\bexpectation\b";
       "\bexpected\s*salary\b"; "\bpay\b"; "\bwage\b"]);
    ("start_date",
      ["\bstart\s*date\b"; "\bavailable\b"; "\bbegin\b";
       "\bcommence\b"; "\bstart\s*work\b"]);
    ("linkedin",
      ["\blinkedin\b"; "\blinked\s*in\b"; "\bprofile\b"]);
    ("website",
      ["\bwebsite\b"; "\bportfolio\b"; "\burl\b"; "\bhomepage\b"]) ].

(** [min(a, b)]: the first argument unless the second is smaller. *)
Definition py_min (a b : float) : float :=
  if PrimFloat.ltb b a then b else a.

Definition generic_patterns : list string := ["\bname\b"; "\baddress\b"].

Definition pattern_clean (pattern : string) : string :=
  Py.replace "\s*" " " (Py.strip_chars "\b" pattern).

Definition _calculate_pattern_confidence (pattern field_label : string) : float :=
  (* Base confidence *)
  let confidence := 0.6%float in
  (* Boost for exact matches *)
  let pattern_clean := pattern_clean pattern in
  let confidence :=
    if Py.contains pattern_clean field_label then (confidence + 0.3)%float
    else confidence in
  (* Boost for shorter, more specific patterns *)
  let confidence :=
    if (String.length pattern_clean <? 10)%nat then (confidence + 0.1)%float
    else confidence in
  (* Reduce for very generic patterns *)
  let confidence :=
    if existsb (String.eqb pattern) generic_patterns then (confidence - 0.2)%float
    else confidence in
  py_min 1.0%float confidence.

(** One step of the double loop over keys and patterns: [best] is
    [best_match], and [best_confidence] is [0.0] while it is absent. *)
Definition best_confidence (best : option FieldMatch) : float :=
  match best with
  | Some m => confidence m
  | None => 0.0%float
  end.

Definition try_pattern (field_label field_label_lower data_key : string)
    (best : option FieldMatch) (pattern : string) : option FieldMatch :=
  if Re.search pattern field_label_lower then
    let confidence := _calculate_pattern_confidence pattern field_label_lower in
    if PrimFloat.ltb (best_confidence best) confidence then
      Some {| field_name := field_label;
              data_key := data_key;
              confidence := confidence;
              reasoning := "Pattern match: " ++ pattern |}
    else best
  else best.

Definition best_pattern_match (field_label field_label_lower : string)
  : option FieldMatch :=
  fold_left
    (fun best '(data_key, patterns) =>
       fold_left (try_pattern field_label field_label_lower data_key) patterns best)
    field_patterns None.

Definition file_keywords : list (string * list string) :=
  [ ("resume", ["resume"; "cv"; "curriculum vitae"]);
    ("cover_letter", ["cover letter"; "covering letter"; "motivation"]);
    ("transcript", ["transcript"; "grades"; "academic record"]) ].

(** The loop over [file_keywords.items()], which returns at the first
    file type one of whose keywords occurs in the label. *)
Fixpoint file_match (field_label field_label_lower : string)
    (table : list (string * list string)) : option FieldMatch :=
  match table with
  | [] => None
  | (file_type, keywords) :: rest =>
      if existsb (fun keyword => Py.contains keyword field_label_lower) keywords
      then Some {| field_name := field_label;
                   data_key := file_type;
                   confidence := 0.8%float;
                   reasoning := "File upload field for " ++ file_type |}
      else file_match field_label field_label_lower rest
  end.

Definition _pattern_field_matching (field_label field_type : string)
  : option FieldMatch :=
  if negb (Py.truthy field_label) then None
  else
    let field_label_lower := Py.lower field_label in
    let best_match := best_pattern_match field_label field_label_lower in
    (* Special handling for file uploads *)
    if String.eqb field_type "file" then
      match file_match field_label field_label_lower file_keywords with
      | Some m => Some m
      | None => best_match
      end
    else best_match.

(** The part of [_ai_field_matching] after the request: [text] is
    [response.content[0].text]. A [ValueError] of [float] is caught by
    the enclosing [try], and the method then returns [None]. *)
Definition parse_response (field_label text : string) : option FieldMatch :=
  let result := Py.strip text in
  let parts := Py.split "|" result in
  if (3 <=? length parts)%nat && negb (String.eqb (nth 0 parts "") "unknown")
  then
    match PyFloat.float (Py.strip (nth 1 parts "")) with
    | Some confidence =>
        Some {| field_name := field_label;
                data_key := Py.strip (nth 0 parts "");
                confidence := confidence;
                reasoning := Py.strip (nth 2 parts "") |}
    | None => None
    end
  else None.

(** [_ai_field_matching], for the [n]-th request to the service. *)
Definition _ai_field_matching (client : Anthropic) (n : nat)
    (field_label field_type : string) : option FieldMatch :=
  match client n field_label field_type with
  | Some text => parse_response field_label text
  | None => None
  end.

(** [match_fields], [n] requests having been made before. *)
Fixpoint match_fields_from (self : FieldMatcher) (n : nat)
    (detected_fields : list FormField) (use_ai : bool) : list FieldMatch :=
  match detected_fields with
  | [] => []
  | field :: rest =>
      let pattern_match :=
        _pattern_field_matching (default "" (label field)) (field_type field) in
      let fallback n' :=
        match pattern_match with
        | Some m => m :: match_fields_from self n' rest use_ai
        | None => match_fields_from self n' rest use_ai
        end in
      match anthropic self, label field with
      | Some client, Some field_label =>
          if use_ai && Py.truthy field_label then
            (* Use AI for intelligent matching *)
            match _ai_field_matching client n field_label (field_type field) with
            | Some ai_match => ai_match :: match_fields_from self (S n) rest use_ai
            | None => fallback (S n)
            end
          else fallback n
      | _, _ => fallback n
      end
  end.

Definition match_fields (self : FieldMatcher) (detected_fields : list FormField)
    (use_ai : bool) : list FieldMatch :=
  match_fields_from self 0 detected_fields use_ai.

(** The loop of [get_suggested_mappings] over the matches. *)
Definition add_mapping (mappings : gmap string string) (m : FieldMatch)
  : gmap string string :=
  if PrimFloat.ltb 0.5%float (confidence m)
  then <[field_name m := data_key m]> mappings
  else mappings.

Definition get_suggested_mappings (self : FieldMatcher)
    (detected_fields : list FormField) : gmap string string :=
  let matches := match_fields self detected_fields true in
  fold_left add_mapping matches ∅.

Definition lookup_patterns (data_key : string) : option (list string) :=
  snd <$> List.find (fun entry => String.eqb (fst entry) data_key) field_patterns.

Definition validate_field_mapping (field_label data_key : string) : bool :=
  if negb (Py.truthy field_label) || negb (Py.truthy data_key) then false
  else
    match lookup_patterns data_key with
    | None => false
    | Some patterns =>
        let field_label_lower := Py.lower field_label in
        existsb (fun pattern => Re.search pattern field_label_lower) patterns
    end.

End FieldMatcher.

(** ** [form_filler.py]: the callers of the analyzer and of the matcher *)

Module FormFiller.

Import ScreenAnalyzer FieldMatcher.

(** *** [_auto_detect_web_fields]

    What the browser driver reports of an element of the page: whether
    it is displayed, its attributes, and the label [_get_field_label]
    finds for it (that method swallows every exception and returns an
    optional text). *)
Record WebElement : Type := {
  is_displayed : bool;
  attr_id : option string;
  attr_name : option string;
  attr_placeholder : option string;
  attr_type : option string;
  label_text : option string
}.

(** [a or b], for an optional text [a]. *)
Definition or_else (a : option string) (b : string) : string :=
  match a with
  | Some s => if Py.truthy s then s else b
  | None => b
  end.

(** An optional text inside an f-string. *)
Definition formatted (a : option string) : string := default "None" a.

Definition field_identifier (field : WebElement) : string :=
  or_else (attr_id field)
    (or_else (attr_name field)
       ("xpath://*[@placeholder='" ++ formatted (attr_placeholder field) ++ "']")).

Definition field_text (field : WebElement) : string :=
  or_else (label_text field)
    (or_else (attr_placeholder field)
       (or_else (attr_name field) (or_else (attr_id field) ""))).

(** The body of the loop, for an element the driver could read. *)
Definition detect_web_field (mappings : gmap string string) (field : WebElement)
  : gmap string string :=
  if negb (is_displayed field) then mappings
  else
    let field_identifier := field_identifier field in
    if Py.truthy field_identifier then
      match _pattern_field_matching (field_text field) (or_else (attr_type field) "input") with
      | Some m =>
          if PrimFloat.ltb 0.6%float (confidence m)
          then <[field_identifier := data_key m]> mappings
          else mappings
      | None => mappings
      end
    else mappings.

(** The loop over [all_fields]; an element the driver raises on is
    absent, and the exception ends the loop with the mappings found so
    far. *)
Fixpoint detect_web_fields (mappings : gmap string string)
    (all_fields : list (option WebElement)) : gmap string string :=
  match all_fields with
  | [] => mappings
  | None :: _ => mappings
  | Some field :: rest => detect_web_fields (detect_web_field mappings field) rest
  end.

(** [_auto_detect_web_fields]: the three [find_elements] answers are
    absent when one of these calls raises. *)
Definition _auto_detect_web_fields
    (found : option (list (option WebElement) * list (option WebElement)
                     * list (option WebElement)))
  : gmap string string :=
  match found with
  | None => ∅
  | Some (inputs, textareas, selects) =>
      detect_web_fields ∅ (inputs ++ textareas ++ selects)%list
  end.

(** *** [_fill_screen_field]: the point that is clicked *)

Definition click_point (field : FormField) : Z * Z :=
  (x field + width field / 2, y field + height field / 2)%Z.

(** *** [fill_screen_form]

    The surroundings of one call: the frame the screen source delivers
    (absent when capturing raises), the answer to the preview (absent
    when the preview raises), and the outcome of [_fill_screen_field],
    which swallows its exceptions, on a field and a key. *)
Record Session : Type := {
  capture : option Screenshot;
  preview : list FormField -> list FieldMatch -> option bool;
  fill : FormField -> string -> bool
}.

Record FormFiller : Type := {
  screen_analyzer : ScreenAnalyzer;
  field_matcher : FieldMatcher;
  confirmation_required : bool
}.

(** The result of the call and the fills it attempted, in order, each a
    field and the key whose value was to be typed into it. *)
Definition fill_screen_form (self : FormFiller) (env : Session)
  : bool * list (FormField * string) :=
  match capture env with
  | None => (false, [])
  | Some frame =>
      let '(_, analyzer) := capture_screen (screen_analyzer self) frame in
      match detect_form_fields analyzer None with
      | (Raise _, _) => (false, [])
      | (Return [], _) => (false, [])
      | (Return fields, _) =>
          let matches := match_fields (field_matcher self) fields true in
          let go :=
            if confirmation_required self then preview env fields matches
            else Some true in
          match go with
          | Some true =>
              let attempts :=
                map (fun '(field, m) => (field, data_key m)) (combine fields matches) in
              let filled_count :=
                length (List.filter (fun '(field, key) => fill env field key) attempts) in
              ((0 <? filled_count)%nat, attempts)
          | _ => (false, [])
          end
      end
  end.

End FormFiller.

(** ** Sample inputs *)

Module Sample.

Import ScreenAnalyzer.

Definition box (x y w h : Z) (kind : string) (lbl : option string) (c : Q)
  : FormField :=
  {| x := x; y := y; width := w; height := h; field_type := kind;
     label := lbl; placeholder := None; confidence := c |}.

(** Two boxes that overlap by three quarters of their area, and a third
    one far from both. *)
Definition low : FormField := box 0 0 100 30 "input" None (3 # 10).
Definition high : FormField := box 10 5 100 30 "input" None (7 # 10).
Definition apart : FormField := box 500 200 100 30 "input" None (9 # 10).

(** A list object holding [low] and then [apart]. *)
Definition one_list : gmap ref (list FormField) := {[ 0%nat := [low; apart] ]}.

(** A frame whose only contour is a speck, and on which the OCR pass
    reads the word "Upload" with confidence 90. *)
Definition speck : Contour :=
  {| bounding_rect := (3, 4, 10, 10)%Z; contour_area := 50 |}.

Definition upload_token : Token :=
  {| tok_text := "Upload"; tok_conf := Some 90%Z;
     tok_left := 100; tok_top := 100; tok_width := 60; tok_height := 20 |}.

Definition upload_frame : Frame :=
  {| rows := 600; cols := 800; channels := 3; dtype := "uint8";
     contours := [speck];
     image_to_string := fun _ => None;
     image_to_data := Some [upload_token] |}.

(** A text-understanding service that always gives the same answer. *)
Definition service (answer : string) : FieldMatcher.Anthropic :=
  fun _ _ _ => Some answer.

Definition contact : FormField := box 40 60 300 30 "input" (Some "Contact") (7 # 10).

(** A label of 500 characters. *)
Definition long_label : string := string_of_list_ascii (List.repeat "x"%char 500).

(** What the pattern matcher answers on "Email Address". *)
Definition email_match : FieldMatcher.FieldMatch :=
  {| FieldMatcher.field_name := "Email Address";
     FieldMatcher.data_key := "email";
     FieldMatcher.confidence := 0.9999999999999999%float;
     FieldMatcher.reasoning := "Pattern match: \bemail\b" |}.

(** The store after the deduplicator has run on [one_list], and the
    list it returns. *)
Definition one_list_sorted : gmap ref (list FormField) :=
  <[ 0%nat := [apart; low] ]> one_list.

Definition kept_ref : ref := fresh (dom one_list_sorted).

Definition one_list_after : gmap ref (list FormField) :=
  <[ kept_ref := [apart; low] ]> one_list_sorted.

(** A box without height, of low confidence. *)
Definition flat : FormField := box 0 0 100 0 "input" None (1 # 10).

Definition flat_list : gmap ref (list FormField) := {[ 0%nat := [low; flat] ]}.

(** The region the keyword pass builds on [upload_frame], and the
    analyzer after a detection call on that frame. *)
Definition upload_region : FormField :=
  box 80 90 100 40 "file" (Some "Upload") (90 # 100).

Definition upload_analyzer : ScreenAnalyzer :=
  {| screenshot := None; form_fields := [upload_region] |}.

(** An analyzer that has captured [upload_frame] and detected on it. *)
Definition captured_analyzer : ScreenAnalyzer :=
  {| screenshot := Some upload_frame; form_fields := [] |}.

Definition detected_analyzer : ScreenAnalyzer :=
  {| screenshot := Some upload_frame; form_fields := [upload_region] |}.

(** A page with one visible input whose label reads "Email Address". *)
Definition email_input : FormFiller.WebElement :=
  {| FormFiller.is_displayed := true;
     FormFiller.attr_id := Some "contact-email";
     FormFiller.attr_name := None;
     FormFiller.attr_placeholder := None;
     FormFiller.attr_type := Some "text";
     FormFiller.label_text := Some "Email Address" |}.

(** A frame with one box the OCR engine reads no label for, and the word
    "Resume" read elsewhere with confidence 60. *)
Definition plain_box : Contour :=
  {| bounding_rect := (100, 100, 200, 30)%Z; contour_area := 6000 |}.

Definition resume_token : Token :=
  {| tok_text := "Resume"; tok_conf := Some 60%Z;
     tok_left := 400; tok_top := 300; tok_width := 60; tok_height := 20 |}.

Definition form_shot : Screenshot :=
  {| shot_height := 600; shot_width := 800;
     shot_contours := [plain_box];
     shot_image_to_string := fun _ => None;
     shot_image_to_data := Some [resume_token] |}.

Definition form_frame : Frame := (capture_screen __init__ form_shot).1.

Definition plain_region : FormField := box 100 100 200 30 "input" None (7 # 10).

Definition resume_region : FormField :=
  box 380 290 100 40 "file" (Some "Resume") (60 # 100).

Definition resume_match : FieldMatcher.FieldMatch :=
  {| FieldMatcher.field_name := "Resume";
     FieldMatcher.data_key := "resume";
     FieldMatcher.confidence := 0.8%float;
     FieldMatcher.reasoning := "File upload field for resume" |}.

(** Two boxes of more than [2 ^ 53] pixels each: the smaller one has
    [2 ^ 60] of them, and they share [2 ^ 59 + 1]. *)
Definition huge_low : FormField := box 0 0 (2 ^ 60) 1 "input" None (3 # 10).
Definition huge_high : FormField := box 0 0 (2 ^ 59 + 1) 2 "input" None (7 # 10).

Definition huge_list : gmap ref (list FormField) :=
  {[ 0%nat := [huge_low; huge_high] ]}.

(** A list object holding [low], [high] and [apart], the store after
    the deduplicator has run on it, and the list it returns. *)
Definition three_list : gmap ref (list FormField) :=
  {[ 0%nat := [low; high; apart] ]}.

Definition three_list_sorted : gmap ref (list FormField) :=
  <[ 0%nat := [apart; high; low] ]> three_list.

Definition kept3_ref : ref := fresh (dom three_list_sorted).

Definition three_list_after : gmap ref (list FormField) :=
  <[ kept3_ref := [apart; high] ]> three_list_sorted.

(** An array without pixels, and a grey image, which has no third
    axis. *)
Definition empty_frame : Frame :=
  {| rows := 0; cols := 0; channels := 3; dtype := "uint8";
     contours := [];
     image_to_string := fun _ => None;
     image_to_data := None |}.

Definition grey_frame : Frame :=
  {| rows := 600; cols := 800; channels := 1; dtype := "uint8";
     contours := [];
     image_to_string := fun _ => None;
     image_to_data := None |}.

(** A frame with two boxes that overlap by more than three quarters,
    and the word "Upload" read elsewhere with confidence 90; the regions
    a detection call finds on it, and the analyzer after that call. *)
Definition shifted_box : Contour :=
  {| bounding_rect := (110, 105, 200, 30)%Z; contour_area := 6000 |}.

Definition upload_far : Token :=
  {| tok_text := "Upload"; tok_conf := Some 90%Z;
     tok_left := 400; tok_top := 300; tok_width := 60; tok_height := 20 |}.

Definition crowded_frame : Frame :=
  {| rows := 600; cols := 800; channels := 3; dtype := "uint8";
     contours := [plain_box; shifted_box];
     image_to_string := fun _ => None;
     image_to_data := Some [upload_far] |}.

Definition upload_far_region : FormField :=
  box 380 290 100 40 "file" (Some "Upload") (90 # 100).

Definition crowded_analyzer : ScreenAnalyzer :=
  {| screenshot := None; form_fields := [upload_far_region; plain_region] |}.

(** Two fields that bear the same label, an input box and a file
    upload, and a field labelled "Email Address". *)
Definition resume_email_box : FormField :=
  box 40 60 300 30 "input" (Some "Resume email") (7 # 10).

Definition resume_email_upload : FormField :=
  box 40 200 300 30 "file" (Some "Resume email") (7 # 10).

Definition email_box : FormField :=
  box 40 340 300 30 "input" (Some "Email Address") (7 # 10).

Definition resume_email_fields : list FormField :=
  [resume_email_box; resume_email_upload].

(** A matcher without a text-understanding service. *)
Definition pattern_only : FieldMatcher.FieldMatcher :=
  {| FieldMatcher.anthropic := None |}.

Definition filler : FormFiller.FormFiller :=
  {| FormFiller.screen_analyzer := __init__;
     FormFiller.field_matcher := {| FieldMatcher.anthropic := None |};
     FormFiller.confirmation_required := true |}.

Definition session : FormFiller.Session :=
  {| FormFiller.capture := Some form_shot;
     FormFiller.preview := fun _ _ => Some true;
     FormFiller.fill := fun _ _ => true |}.

End Sample.

(** ** Vocabulary of the statements *)

Module DedupSpec.

Import ScreenAnalyzer.

(** The invariant of a region: positive width and height. *)
Definition positive_box (f : FormField) : Prop :=
  (0 < width f)%Z /\ (0 < height f)%Z.

(** [f] may stand before [g] in a list ordered by falling confidence. *)
Definition ge_conf (f g : FormField) : Prop :=
  (confidence g <= confidence f)%Q.

(** The pixels of a box: those of column [i] and row [j] with
    [x <= i < x + width] and [y <= j < y + height]. *)
Definition pixels (f : FormField) : list (Z * Z) :=
  list_prod (seqZ (x f) (width f)) (seqZ (y f) (height f)).

Definition inside (f : FormField) (p : Z * Z) : bool :=
  (x f <=? p.1)%Z && (p.1 <? x f + width f)%Z
  && (y f <=? p.2)%Z && (p.2 <? y f + height f)%Z.

(** The area of a box, and the area two boxes share, in pixels. *)
Definition pixel_count (f : FormField) : Z := Z.of_nat (length (pixels f)).

Definition common (f g : FormField) : Z :=
  Z.of_nat (length (List.filter (inside g) (pixels f))).

(** Intersection area over the smaller of the two areas. *)
Definition ratio (f g : FormField) : Q :=
  (inject_Z (common f g) / inject_Z (Z.min (pixel_count f) (pixel_count g)))%Q.

(** How far above one half a quotient can lie and still be rounded to
    the float 0.5. *)
Definition rounding_gap : Q := 1 # 2 ^ 54.

(** A box whose area a float holds exactly. *)
Definition small_box (f : FormField) : Prop := (pixel_count f < 2 ^ 53)%Z.

(** The float nearest to [o / d] exceeds 0.5, told on the integers. *)
Definition exceeds_half (o d : Z) : Prop :=
  (0 < o)%Z /\ ((2 ^ 53 + 1) * d < 2 ^ 54 * o)%Z.

(** The regions of [l] whose confidence is [c], in the order of [l]. *)
Definition with_confidence (c : Q) (l : list FormField) : list FormField :=
  List.filter (fun f => Qeq_bool (confidence f) c) l.

(** [sorted] is [l] after a stable sort by falling confidence: it holds
    the regions of [l], each as often as [l] does; confidences do not
    rise along it; and regions of equal confidence stand in the order
    they have in [l]. *)
Definition stable_sort_desc (l sorted : list FormField) : Prop :=
  Permutation l sorted
  /\ StronglySorted ge_conf sorted
  /\ forall c, with_confidence c sorted = with_confidence c l.

(** The loops keep every field of [fs], having kept [kept] before. *)
Fixpoint independent (kept fs : list FormField) : Prop :=
  match fs with
  | [] => True
  | f :: rest =>
      is_duplicate f kept = Return false /\ independent (kept ++ [f])%list rest
  end.

End DedupSpec.

Module LabelSpec.

Import ScreenAnalyzer.

(** The three places a label is looked for. *)
Definition left_of (x y w h : Z) (gray : Frame) : Slice :=
  crop gray (Z.max 0 (y - 20)) (y + h + 20) (Z.max 0 (x - 200)) x.

Definition above (x y w h : Z) (gray : Frame) : Slice :=
  crop gray (Z.max 0 (y - 40)) y x (x + w).

Definition right_of (x y w h : Z) (gray : Frame) : Slice :=
  crop gray (Z.max 0 (y - 20)) (y + h + 20) (x + w) (Z.min (cols gray) (x + w + 200)).

(** Cleaning a text: the characters that are neither word characters
    nor white space are taken out, then the white space at both ends. *)
Definition kept_char (c : ascii) : bool := Py.isword c || Py.isspace c.

Fixpoint drop_blanks (l : list ascii) : list ascii :=
  match l with
  | [] => []
  | c :: r => if Py.isspace c then drop_blanks r else l
  end.

Definition trim (l : list ascii) : list ascii :=
  rev (drop_blanks (rev (drop_blanks l))).

Definition cleaned (raw : string) : string :=
  string_of_list_ascii (trim (List.filter kept_char (list_ascii_of_string raw))).

(** What one place yields: the cleaned text the OCR engine reads there,
    when the place is not empty, the engine does not fail, and the
    cleaned text has more than 2 and fewer than 50 characters. *)
Definition probe (gray : Frame) (region : Slice) : option string :=
  if (size region =? 0)%Z then None
  else
    match image_to_string gray region with
    | Some raw =>
        let n := length (list_ascii_of_string (cleaned raw)) in
        if decide (2 < n < 50)%nat then Some (cleaned raw) else None
    | None => None
    end.

(** An array OpenCV takes for a colour image: it has at least one
    pixel, and three or four channels of 8 bits. *)
Definition colour_image (screenshot : Frame) : Prop :=
  (0 < rows screenshot)%Z /\ (0 < cols screenshot)%Z
  /\ (channels screenshot = 3%Z \/ channels screenshot = 4%Z)
  /\ dtype screenshot = "uint8".

(** The frame a detection call works on: the one it is given, else the
    one captured before. *)
Definition frame_of (self : ScreenAnalyzer) (screenshot_arg : option Frame)
  : option Frame :=
  match screenshot_arg with
  | Some gray => Some gray
  | None => screenshot self
  end.

Fixpoint all_chars (p : ascii -> bool) (s : string) : bool :=
  match s with
  | EmptyString => true
  | String c r => p c && all_chars p r
  end.

Definition first_char (s : string) : option ascii :=
  match s with
  | EmptyString => None
  | String c _ => Some c
  end.

Fixpoint last_char (s : string) : option ascii :=
  match s with
  | EmptyString => None
  | String c EmptyString => Some c
  | String _ r => last_char r
  end.

(** A cleaned text: word characters and white space only, no white
    space at either end. *)
Definition is_clean (t : string) : Prop :=
  all_chars (fun c => Py.isword c || Py.isspace c) t = true /\
  (forall c, first_char t = Some c -> Py.isspace c = false) /\
  (forall c, last_char t = Some c -> Py.isspace c = false).

End LabelSpec.

Module MatchSpec.

Import FieldMatcher.

(** A match the suggested-mappings view takes: confidence above 0.5. *)
Definition confident (m : FieldMatch) : bool :=
  PrimFloat.ltb 0.5%float (confidence m).

(** The keys of the file-upload branch. *)
Definition file_keys : list string := ["resume"; "cover_letter"; "transcript"].

End MatchSpec.

Module RegionSpec.

Import ScreenAnalyzer DedupSpec.

(** Width and height are not negative. *)
Definition proper_box (f : FormField) : Prop :=
  (0 <= width f)%Z /\ (0 <= height f)%Z.

(** [f] overlaps [g] by at most half of the smaller of the two areas. *)
Definition apart (f g : FormField) : Prop := (ratio f g <= 1 # 2)%Q.

(** [f] overlaps [g] by more than half of the smaller of the two areas. *)
Definition shadowed_by (f g : FormField) : Prop := (1 # 2 < ratio f g)%Q.

(** [f] overlaps [g] by no more than the float division still takes
    for a half. *)
Definition nearly_apart (f g : FormField) : Prop :=
  (ratio f g <= (1 # 2) + rounding_gap)%Q.

(** The kinds of field the analyzer knows a colour for. *)
Definition known_kinds : list string := ["input"; "textarea"; "select"; "file"].

Definition outline_of (op : DrawOp) : string :=
  match op with
  | Rectangle _ _ _ _ outline _ => outline
  | Text _ _ _ fill => fill
  end.

Definition is_rectangle (op : DrawOp) : bool :=
  match op with
  | Rectangle _ _ _ _ _ _ => true
  | Text _ _ _ _ => false
  end.

End RegionSpec.

Module PatternSpec.

Import FieldMatcher.

(** The items of a word taken literally. *)
Fixpoint literal (w : string) : list Re.item :=
  match w with
  | EmptyString => []
  | String c r => Re.One (Re.Lit c) :: literal r
  end.

(** The match the generic path builds for a label, a key and one of the
    key's patterns. *)
Definition pattern_match (field_label data_key pattern : string) : FieldMatch :=
  {| field_name := field_label;
     data_key := data_key;
     confidence := _calculate_pattern_confidence pattern (Py.lower field_label);
     reasoning := "Pattern match: " ++ pattern |}.

(** [m] is the match of some pattern of the table that is found in the
    lower-cased label. *)
Definition from_table (field_label : string) (m : FieldMatch) : Prop :=
  exists data_key patterns pattern,
    In (data_key, patterns) field_patterns
    /\ In pattern patterns
    /\ Re.search pattern (Py.lower field_label) = true
    /\ m = pattern_match field_label data_key pattern.

(** The same match under another field name. *)
Definition renamed (name : string) (m : FieldMatch) : FieldMatch :=
  {| field_name := name; data_key := data_key m;
     confidence := confidence m; reasoning := reasoning m |}.

(** The keys the pattern matcher knows: those of the pattern table and
    those of the file keywords. *)
Definition vocabulary : list string :=
  (map fst field_patterns ++ map fst file_keywords)%list.

(** What the pattern matcher makes of a detected field. *)
Definition pattern_of_field (field : ScreenAnalyzer.FormField) : option FieldMatch :=
  _pattern_field_matching (default "" (ScreenAnalyzer.label field))
                          (ScreenAnalyzer.field_type field).

(** The score as a function of the three tests it depends on: the
    cleaned pattern occurs in the label, it is shorter than 10
    characters, the pattern is a generic one. *)
Definition score (verbatim short generic : bool) : float :=
  let confidence := 0.6%float in
  let confidence := if verbatim then (confidence + 0.3)%float else confidence in
  let confidence := if short then (confidence + 0.1)%float else confidence in
  let confidence := if generic then (confidence - 0.2)%float else confidence in
  py_min 1.0%float confidence.

Definition is_score (c : float) : Prop :=
  exists verbatim short generic, c = score verbatim short generic.

(** The value of [best_confidence] in the course of the loop: zero, or
    the score of a pattern. *)
Definition known (c : float) : Prop := c = 0.0%float \/ is_score c.

(** Number of occurrences of a character. *)
Fixpoint count_char (c : ascii) (s : string) : nat :=
  match s with
  | EmptyString => 0
  | String d r => (if Ascii.eqb d c then 1 else 0) + count_char c r
  end.

End PatternSpec.

(** * Properties *)

(** ** The embedding on small inputs *)

Example re_search_email : Re.search "\bemail\b" "email address" = true.
Proof. reflexivity. Qed.

Example re_search_mail : Re.search "\bmail\b" "email address" = false.
Proof. reflexivity. Qed.

Example re_search_star : Re.search "\bfirst\s*name\b" "your first   name:" = true.
Proof. reflexivity. Qed.

Example re_search_paren : Re.search "\bname\s*\(first\)" "name (first)" = true.
Proof. reflexivity. Qed.

Example py_strip_chars : Py.strip_chars "\b" "\bbegin\b" = "egin".
Proof. reflexivity. Qed.

Example py_replace : Py.replace "\s*" " " "first\s*name" = "first name".
Proof. reflexivity. Qed.

Example py_split : Py.split "|" "phone|0.92|clear phone field" = ["phone"; "0.92"; "clear phone field"].
Proof. reflexivity. Qed.

Example float_of_decimal : PyFloat.float " 0.7 " = Some 0.7%float.
Proof. vm_compute. reflexivity. Qed.

Example float_of_exponent : PyFloat.float "1.5e+2" = Some 150%float.
Proof. vm_compute. reflexivity. Qed.

Example float_of_garbage : PyFloat.float "high" = None.
Proof. vm_compute. reflexivity. Qed.

(** The sum the matcher computes for a short pattern found verbatim is
    the float just below one. *)
Example confidence_of_short_verbatim :
  FieldMatcher._calculate_pattern_confidence "\bemail\b" "email address"
    = 0.9999999999999999%float.
Proof. vm_compute. reflexivity. Qed.

(** The key is compared before it is stripped: a blank between the word
    [unknown] and the bar lets the answer through. *)
Example padded_unknown_key :
  FieldMatcher.data_key <$> FieldMatcher.parse_response "Tel" "unknown |0.0|no idea"
    = Some "unknown".
Proof. vm_compute. reflexivity. Qed.

(** Characters beyond ASCII: "É" is a capital letter, and a word
    character, so that no word begins after it. *)
Example py_lower_accent : Py.lower (Py.text "ÉMAIL") = Py.text "émail".
Proof. reflexivity. Qed.

Example re_search_accent : Re.search "\bmail\b" (Py.lower (Py.text "ÉMAIL")) = false.
Proof. reflexivity. Qed.

Example clean_accent : ScreenAnalyzer.clean (Py.text "Prénom:") = Py.text "Prénom".
Proof. reflexivity. Qed.

Example clean_no_break_space :
  ScreenAnalyzer.clean (String "160" "Name*" ++ String "160" "") = "Name".
Proof. reflexivity. Qed.

Example acceptable_accents :
  ScreenAnalyzer.acceptable (ScreenAnalyzer.clean (Py.text "ééé")) = true.
Proof. reflexivity. Qed.

(** [float] passes over the white space of ASCII proper and over that
    beyond ASCII, not over the separators FS..US. *)
Example float_no_break_space : PyFloat.float (String "160" "1.5") = Some 1.5%float.
Proof. vm_compute. reflexivity. Qed.

Example float_separator : PyFloat.float (String "028" "1.5") = None.
Proof. vm_compute. reflexivity. Qed.

(** True division: three quarters are a float; a quotient that exceeds
    one half by [2 ^ -60] is rounded to one half; one that exceeds it by
    [2 ^ -53] is not. *)
Example truediv_exact : PyInt.gives (PyInt.truediv 2250 3000) (3 # 4) = true.
Proof. vm_compute. reflexivity. Qed.

Example truediv_rounded :
  PyInt.gives (PyInt.truediv (2 ^ 59 + 1) (2 ^ 60)) (1 # 2) = true.
Proof. vm_compute. reflexivity. Qed.

Example truediv_next :
  PyInt.gives (PyInt.truediv (2 ^ 59 + 2 ^ 7) (2 ^ 60)) (2 ^ 52 + 1 # 2 ^ 53) = true.
Proof. vm_compute. reflexivity. Qed.

Example truediv_tie_to_even :
  PyInt.gives (PyInt.truediv (2 ^ 53 + 3) (2 ^ 54)) (2 ^ 52 + 2 # 2 ^ 53) = true.
Proof. vm_compute. reflexivity. Qed.

Example truediv_zero_divisor : PyInt.truediv 5 0 = Raise ZeroDivisionError.
Proof. reflexivity. Qed.

Example truediv_too_large : PyInt.truediv (2 ^ 1024) 1 = Raise OverflowError.
Proof. vm_compute. reflexivity. Qed.

(** On these operands the quotient is the one the reference division
    of binary64 gives. *)
Example truediv_reference :
  forallb (fun '(a, b) => PyInt.agrees a b)
    [ (1, 3); (2, 3); (-7, 10); (7, -10); (1, 10); (90, 100); (4750, 6000);
      (2 ^ 59 + 1, 2 ^ 60); (2 ^ 53 + 1, 2 ^ 54); (2 ^ 53 + 3, 2 ^ 54);
      (3 * (2 ^ 53 + 1) + 1, 3 * 2 ^ 54); (2 ^ 200 + 1, 3 ^ 100);
      (1, 2 ^ 1074); (1, 2 ^ 1075); (3, 2 ^ 1075); (3, 2 ^ 1076);
      (2 ^ 1024 - 2 ^ 970, 1); (2 ^ 1024 - 2 ^ 970 - 1, 1); (2 ^ 1024, 1);
      (10 ^ 400, 10 ^ 90); (10 ^ 17 + 1, 10 ^ 17 - 1) ]%Z = true.
Proof. vm_compute. reflexivity. Qed.

(** The boxes [low] and [high] share 90 columns and 25 rows of their
    3000 pixels. *)
Example ratio_low_high : (DedupSpec.ratio Sample.low Sample.high == 3 # 4)%Q.
Proof. vm_compute. reflexivity. Qed.

Example cleaned_blanks : LabelSpec.cleaned " (First  name): " = "First  name".
Proof. reflexivity. Qed.

(** ** Comparison of rationals *)

Lemma Qltb_lt (a b : Q) : Qltb a b = true <-> (a < b)%Q.
Proof.
  unfold Qltb. rewrite negb_true_iff, <- not_true_iff_false, Qle_bool_iff.
  split; [apply Qnot_le_lt | apply Qlt_not_le].
Qed.

Lemma Qltb_ge (a b : Q) : Qltb a b = false <-> (b <= a)%Q.
Proof.
  unfold Qltb. rewrite negb_false_iff. apply Qle_bool_iff.
Qed.

(** ** True division *)

Module DivFacts.

Import PyInt.

Local Open Scope Z_scope.

Lemma round_half_even_le (n d N : Z) :
  0 < d -> n <= N * d -> round_half_even n d <= N.
Proof.
  intros Hd Hn. unfold round_half_even.
  pose proof (Z.div_mod n d ltac:(lia)) as E.
  pose proof (Z.mod_pos_bound n d Hd) as Hr.
  destruct (Z.compare_spec (2 * (n mod d)) d); [destruct (Z.even (n / d))| |]; nia.
Qed.

Lemma round_half_even_above (n d N : Z) :
  0 < d -> (2 * N + 1) * d < 2 * n -> N + 1 <= round_half_even n d.
Proof.
  intros Hd Hn. unfold round_half_even.
  pose proof (Z.div_mod n d ltac:(lia)) as E.
  pose proof (Z.mod_pos_bound n d Hd) as Hr.
  destruct (Z.compare_spec (2 * (n mod d)) d); [destruct (Z.even (n / d))| |]; nia.
Qed.

(** A quotient between an even integer and the half above it is
    rounded to that integer. *)
Lemma round_half_even_tie (n d N : Z) :
  0 < d -> Z.even N = true -> N * d <= n -> 2 * n <= (2 * N + 1) * d ->
  round_half_even n d = N.
Proof.
  intros Hd Hev Hl Hu. unfold round_half_even.
  pose proof (Z.div_mod n d ltac:(lia)) as E.
  pose proof (Z.mod_pos_bound n d Hd) as Hr.
  assert (Hq : n / d = N) by nia.
  rewrite Hq, Hev.
  destruct (Z.compare_spec (2 * (n mod d)) d); nia.
Qed.

Lemma floor_log2_le (a b j : Z) :
  0 < a -> 0 <= j -> a * 2 ^ j <= b -> floor_log2 a b <= - j.
Proof.
  intros Ha Hj Hab.
  assert (Hl : Z.log2 a + j <= Z.log2 b).
  { rewrite Z.add_comm, <- (Z.log2_mul_pow2 a j) by lia. now apply Z.log2_le_mono. }
  unfold floor_log2. destruct (_ <? _); lia.
Qed.

Lemma floor_log2_diag (a : Z) : floor_log2 a a = 0.
Proof. unfold floor_log2. rewrite Z.ltb_irrefl. lia. Qed.

Lemma floor_log2_upper_half (a b : Z) :
  0 < a -> a < b -> b < 2 * a -> floor_log2 a b = -1.
Proof.
  intros Ha Hab Hb.
  assert (H1 : Z.log2 a <= Z.log2 b) by (apply Z.log2_le_mono; lia).
  assert (H2 : Z.log2 b <= Z.log2 a + 1).
  { pose proof (Z.log2_double a Ha) as Hd.
    pose proof (Z.log2_le_mono b (2 * a)) as Hm. lia. }
  pose proof (Z.pow_pos_nonneg 2 (Z.log2 a) ltac:(lia) (Z.log2_nonneg a)) as Hp.
  unfold floor_log2.
  destruct (Z.eq_dec (Z.log2 b) (Z.log2 a)) as [E|E].
  - rewrite E. destruct (Z.ltb_spec (a * 2 ^ Z.log2 a) (b * 2 ^ Z.log2 a)); nia.
  - assert (E' : Z.log2 b = Z.succ (Z.log2 a)) by lia. rewrite E'.
    rewrite Z.pow_succ_r by apply Z.log2_nonneg.
    destruct (Z.ltb_spec (a * (2 * 2 ^ Z.log2 a)) (b * 2 ^ Z.log2 a)); nia.
Qed.

Lemma value_above_half (m e : Z) :
  e < 0 -> ((1 # 2 < value m e)%Q <-> 2 ^ (- e) < 2 * m).
Proof.
  intros He. unfold value. destruct (Z.ltb_spec e 0); [|lia].
  pose proof (Z.pow_pos_nonneg 2 (- e) ltac:(lia) ltac:(lia)) as Hp.
  unfold Qlt. cbn [Qnum Qden]. rewrite Z2Pos.id by exact Hp. lia.
Qed.

(** The quotient of two positive integers, the first at most the
    second, is a float; the float exceeds one half exactly when the
    quotient itself exceeds one half by more than [2 ^ -54]. *)
Lemma truediv_unit (a b : Z) :
  0 < a <= b ->
  exists r, truediv a b = Return r
            /\ ((1 # 2 < r)%Q <-> (2 ^ 53 + 1) * b < 2 ^ 54 * a).
Proof.
  intros [Ha Hab]. unfold truediv.
  destruct (Z.eqb_spec b 0); [lia|]. destruct (Z.eqb_spec a 0); [lia|].
  rewrite (Z.abs_eq a), (Z.abs_eq b) by lia.
  assert (Hs : (Z.sgn a =? Z.sgn b) = true).
  { rewrite !Z.sgn_pos by lia. reflexivity. }
  unfold nearest. rewrite Hs.
  set (e := Z.max (floor_log2 a b - 52) (-1074)).
  pose proof (floor_log2_le a b 0 Ha ltac:(lia) ltac:(lia)) as Hfl.
  assert (He : e <= -52) by (subst e; lia).
  destruct (Z.ltb_spec e 0) as [_|]; [|lia].
  destruct (Z.leb_spec 0 e) as [|_]; [lia|]. cbn [andb].
  eexists. split; [reflexivity|].
  rewrite value_above_half by lia.
  destruct (Z.eq_dec a b) as [<-|Hne].
  { subst e. rewrite floor_log2_diag. change (Z.max (0 - 52) (-1074)) with (-52).
    change (- -52) with 52.
    rewrite (round_half_even_tie _ a (2 ^ 52)); [lia | lia | reflexivity | lia | lia]. }
  destruct (Z_lt_le_dec b (2 * a)) as [Hb|Hb].
  - assert (E : e = -53).
    { subst e. rewrite floor_log2_upper_half by lia. reflexivity. }
    rewrite E. change (- -53) with 53.
    destruct (Z_lt_le_dec ((2 ^ 53 + 1) * b) (2 ^ 54 * a)) as [Hgt|Hle].
    + pose proof (round_half_even_above (a * 2 ^ 53) b (2 ^ 52) ltac:(lia) ltac:(lia)).
      lia.
    + rewrite (round_half_even_tie _ b (2 ^ 52)); [lia | lia | reflexivity | lia | lia].
  - pose proof (floor_log2_le a b 1 Ha ltac:(lia) ltac:(lia)) as Hfl1.
    assert (He1 : -1074 <= e <= -53) by (subst e; lia).
    assert (Hpow : 2 ^ (- e) = 2 * 2 ^ (- 1 - e)).
    { replace (- e) with (Z.succ (- 1 - e)) by lia. apply Z.pow_succ_r. lia. }
    pose proof (Z.pow_pos_nonneg 2 (- 1 - e) ltac:(lia) ltac:(lia)) as Hp.
    pose proof (round_half_even_le (a * 2 ^ (- e)) b (2 ^ (- 1 - e)) ltac:(lia)
                  ltac:(rewrite Hpow; nia)) as Hm.
    set (m := round_half_even (a * 2 ^ (- e)) b) in *.
    rewrite Hpow. split; intros H; nia.
Qed.

Lemma truediv_zero (b : Z) : b <> 0 -> truediv 0 b = Return 0%Q.
Proof.
  intros Hb. unfold truediv. destruct (Z.eqb_spec b 0); [contradiction | reflexivity].
Qed.

Lemma truediv_by_zero (a : Z) : truediv a 0 = Raise ZeroDivisionError.
Proof. reflexivity. Qed.

End DivFacts.

(** ** Counting pixels *)

Module GeometryFacts.

Import ScreenAnalyzer DedupSpec.

Local Open Scope Z_scope.

(** How many of [len] consecutive integers from [start] on lie in a
    range. *)
Lemma count_in_range (lo hi : Z) (n : nat) (start : Z) :
  Z.of_nat (length (List.filter (fun i => (lo <=? i) && (i <? hi))
                                (seqZ start (Z.of_nat n))))
  = Z.max 0 (Z.min (start + Z.of_nat n) hi - Z.max start lo).
Proof.
  revert start. induction n as [|n IH]; intros start.
  - rewrite seqZ_nil by (cbn; lia). cbn. lia.
  - rewrite seqZ_cons by lia. cbn [List.filter].
    replace (Z.pred (Z.of_nat (S n))) with (Z.of_nat n) by lia.
    specialize (IH (Z.succ start)).
    destruct (Z.leb_spec lo start), (Z.ltb_spec start hi); cbn [andb length]; lia.
Qed.

Lemma count_in_box (lo len start width : Z) :
  Z.of_nat (length (List.filter (fun i => (lo <=? i) && (i <? lo + len))
                                (seqZ start width)))
  = Z.max 0 (Z.min (start + width) (lo + len) - Z.max start lo).
Proof.
  destruct (Z_le_gt_dec width 0) as [Hw|Hw].
  - rewrite seqZ_nil by lia. cbn. lia.
  - rewrite <- (Z2Nat.id width) at 1 by lia. rewrite count_in_range. lia.
Qed.

Lemma filter_prod_length {A B : Type} (p : A -> bool) (q : B -> bool)
    (la : list A) (lb : list B) :
  length (List.filter (fun ab => p ab.1 && q ab.2) (list_prod la lb))
  = (length (List.filter p la) * length (List.filter q lb))%nat.
Proof.
  induction la as [|a la IH]; [reflexivity|].
  cbn [list_prod List.filter]. rewrite List.filter_app, length_app, IH.
  assert (E : length (List.filter (fun ab : A * B => p ab.1 && q ab.2) (List.map (fun y => (a, y)) lb))
              = if p a then length (List.filter q lb) else 0%nat).
  { clear IH. induction lb as [|b lb IHb]; [now destruct (p a)|].
    cbn [List.map List.filter fst snd]. destruct (p a), (q b); cbn [andb length] in *; lia. }
  rewrite E. destruct (p a); cbn [length]; lia.
Qed.

(** The pixels two boxes share are as many as the code computes. *)
Lemma common_overlap_area (f g : FormField) : common f g = overlap_area f g.
Proof.
  unfold common, pixels, overlap_area.
  rewrite (List.filter_ext (inside g)
             (fun p => ((x g <=? p.1) && (p.1 <? x g + width g))
                       && ((y g <=? p.2) && (p.2 <? y g + height g)))).
  2: { intros p. unfold inside. now rewrite <- !andb_assoc. }
  rewrite (filter_prod_length (fun i => (x g <=? i) && (i <? x g + width g))
                              (fun j => (y g <=? j) && (j <? y g + height g))).
  rewrite Nat2Z.inj_mul, !count_in_box. f_equal; lia.
Qed.

Lemma pixel_count_area (f : FormField) :
  0 <= width f -> 0 <= height f -> pixel_count f = area f.
Proof.
  intros Hw Hh. unfold pixel_count, pixels, area.
  rewrite length_prod, !length_seqZ. lia.
Qed.

Lemma pixel_count_nonneg (f : FormField) : 0 <= pixel_count f.
Proof. unfold pixel_count. lia. Qed.

Lemma overlap_area_sym (f g : FormField) : overlap_area f g = overlap_area g f.
Proof. unfold overlap_area. f_equal; lia. Qed.

Lemma overlap_area_nonneg (f g : FormField) : 0 <= overlap_area f g.
Proof. unfold overlap_area. nia. Qed.

(** Boxes that share a pixel have a positive width and height, and share
    no more than the smaller of them holds. *)
Lemma overlap_area_positive (f g : FormField) :
  0 < overlap_area f g ->
  positive_box f /\ positive_box g /\ overlap_area f g <= Z.min (area f) (area g).
Proof.
  unfold overlap_area, positive_box, area.
  set (ox := Z.max 0 (Z.min (x f + width f) (x g + width g) - Z.max (x f) (x g))).
  set (oy := Z.max 0 (Z.min (y f + height f) (y g + height g) - Z.max (y f) (y g))).
  intros H.
  assert (Hx : 0 < ox) by nia. assert (Hy : 0 < oy) by nia.
  assert (Hxf : ox <= width f) by (subst ox; lia).
  assert (Hxg : ox <= width g) by (subst ox; lia).
  assert (Hyf : oy <= height f) by (subst oy; lia).
  assert (Hyg : oy <= height g) by (subst oy; lia).
  repeat split; try lia.
  apply Z.min_glb; nia.
Qed.

Lemma ratio_sym (f g : FormField) : ratio f g = ratio g f.
Proof.
  unfold ratio. now rewrite !common_overlap_area, overlap_area_sym, Z.min_comm.
Qed.

End GeometryFacts.

(** ** The deduplicator *)

Module DedupFacts.

Import ScreenAnalyzer DedupSpec RegionSpec GeometryFacts.

(** *** The in-place sort *)

Lemma insert_desc_perm (f : FormField) (l : list FormField) :
  Permutation (f :: l) (insert_desc f l).
Proof.
  induction l as [|g r IH]; simpl; [reflexivity|].
  destruct (Qltb (confidence f) (confidence g)); [|reflexivity].
  rewrite perm_swap. now apply perm_skip.
Qed.

Lemma sort_perm (l : list FormField) : Permutation l (sort_by_confidence l).
Proof.
  induction l as [|f l IH]; simpl; [reflexivity|].
  rewrite <- insert_desc_perm. now apply perm_skip.
Qed.

Lemma insert_desc_sorted (f : FormField) (l : list FormField) :
  StronglySorted ge_conf l -> StronglySorted ge_conf (insert_desc f l).
Proof.
  induction 1 as [|g r Hr IH Hg]; simpl.
  - repeat constructor.
  - destruct (Qltb (confidence f) (confidence g)) eqn:E.
    + apply Qltb_lt in E. constructor; [exact IH|].
      rewrite <- insert_desc_perm. constructor; [|exact Hg].
      unfold ge_conf. now apply Qlt_le_weak.
    + apply Qltb_ge in E. constructor; [now constructor|].
      constructor; [exact E|].
      eapply Forall_impl; [exact Hg|]. intros h Hh. unfold ge_conf in *.
      eapply Qle_trans; eassumption.
Qed.

Lemma sort_sorted (l : list FormField) :
  StronglySorted ge_conf (sort_by_confidence l).
Proof.
  induction l as [|f l IH]; simpl; [constructor | now apply insert_desc_sorted].
Qed.

(** Sorting a list that is already in order leaves it as it is. *)
Lemma sort_sorted_id (l : list FormField) :
  StronglySorted ge_conf l -> sort_by_confidence l = l.
Proof.
  induction 1 as [|f r Hr IH Hf]; simpl; [reflexivity|].
  rewrite IH. destruct Hf as [|g r' Hg _]; simpl; [reflexivity|].
  apply Qltb_ge in Hg. now rewrite Hg.
Qed.

Lemma sorted_sublist (k l : list FormField) :
  sublist k l -> StronglySorted ge_conf l -> StronglySorted ge_conf k.
Proof.
  induction 1 as [|f k l Hs IH|f k l Hs IH]; intros Hl.
  - constructor.
  - apply StronglySorted_inv in Hl as [Hl Hf]. constructor; [auto|].
    apply Forall_forall. intros g Hg. apply (proj1 (Forall_forall _ _) Hf).
    eapply elem_of_sublist; eassumption.
  - apply StronglySorted_inv in Hl as [Hl _]. auto.
Qed.

(** A region is put behind regions of greater confidence only, so it
    does not pass a region of its own confidence. *)
Lemma insert_desc_with_confidence (c : Q) (f : FormField) (l : list FormField) :
  with_confidence c (insert_desc f l) = with_confidence c (f :: l).
Proof.
  unfold with_confidence. induction l as [|g r IH]; [reflexivity|].
  cbn [insert_desc]. destruct (Qltb (confidence f) (confidence g)) eqn:E; [|reflexivity].
  cbn [List.filter] in *. rewrite IH.
  destruct (Qeq_bool (confidence g) c) eqn:Eg, (Qeq_bool (confidence f) c) eqn:Ef;
    try reflexivity.
  apply Qltb_lt in E. apply Qeq_bool_iff in Eg, Ef.
  rewrite Eg, Ef in E. now apply Qlt_irrefl in E.
Qed.

Lemma sort_with_confidence (c : Q) (l : list FormField) :
  with_confidence c (sort_by_confidence l) = with_confidence c l.
Proof.
  induction l as [|f l IH]; [reflexivity|].
  cbn [sort_by_confidence foldr]. fold (sort_by_confidence l).
  rewrite insert_desc_with_confidence. unfold with_confidence in *.
  cbn [List.filter]. now rewrite IH.
Qed.

(** The sort of the code is the stable sort by falling confidence. *)
Lemma sort_stable (l : list FormField) : stable_sort_desc l (sort_by_confidence l).
Proof.
  split; [apply sort_perm|]. split; [apply sort_sorted|].
  intros c. apply sort_with_confidence.
Qed.

(** *** The overlap ratio *)

Lemma area_positive (f : FormField) : positive_box f -> (0 < area f)%Z.
Proof. intros [Hw Hh]. unfold area. lia. Qed.

Lemma quotient_zero (d : Z) : (inject_Z 0 / inject_Z d == 0)%Q.
Proof. unfold Qdiv. apply Qmult_0_l. Qed.

Lemma quotient_above_gap (o d : Z) :
  (0 < d)%Z ->
  ((1 # 2) + rounding_gap < inject_Z o / inject_Z d)%Q
  <-> ((2 ^ 53 + 1) * d < 2 ^ 54 * o)%Z.
Proof.
  intros Hd. destruct d as [|p|p]; try lia.
  unfold rounding_gap, Qlt, Qdiv, Qmult, Qinv, Qplus, inject_Z. cbn [Qnum Qden]. lia.
Qed.

Lemma quotient_above_half (o d : Z) :
  (0 < d)%Z -> (1 # 2 < inject_Z o / inject_Z d)%Q <-> (d < 2 * o)%Z.
Proof.
  intros Hd. destruct d as [|p|p]; try lia.
  unfold Qlt, Qdiv, Qmult, Qinv, inject_Z. cbn [Qnum Qden]. lia.
Qed.

(** The ratio of two boxes that share a pixel is the quotient the code
    forms. *)
Lemma ratio_of_overlap (f g : FormField) :
  (0 < overlap_area f g)%Z ->
  ratio f g = (inject_Z (overlap_area f g) / inject_Z (Z.min (area f) (area g)))%Q
  /\ (0 < overlap_area f g <= Z.min (area f) (area g))%Z
  /\ pixel_count f = area f /\ pixel_count g = area g.
Proof.
  intros Ho. destruct (overlap_area_positive f g Ho) as ([Hfw Hfh] & [Hgw Hgh] & Hle).
  unfold ratio. rewrite common_overlap_area, !pixel_count_area by lia.
  repeat split; try lia.
Qed.

Lemma ratio_without_overlap (f g : FormField) :
  overlap_area f g = 0%Z -> (ratio f g == 0)%Q.
Proof.
  intros Ho. unfold ratio. rewrite common_overlap_area, Ho. apply quotient_zero.
Qed.

Lemma overlap_cases (f g : FormField) :
  overlap_area f g = 0%Z \/ (0 < overlap_area f g)%Z.
Proof. pose proof (overlap_area_nonneg f g). lia. Qed.

(** The float the code compares with 0.5 exceeds it exactly when the
    ratio exceeds one half by more than the rounding gap. *)
Lemma exceeds_half_ratio (f g : FormField) :
  exceeds_half (overlap_area f g) (Z.min (area f) (area g))
  <-> ((1 # 2) + rounding_gap < ratio f g)%Q.
Proof.
  destruct (overlap_cases f g) as [Ho|Ho].
  - rewrite (ratio_without_overlap f g Ho). unfold exceeds_half. rewrite Ho.
    split; [lia | intros H; discriminate H].
  - destruct (ratio_of_overlap f g Ho) as (-> & Hd & _).
    rewrite quotient_above_gap by lia. unfold exceeds_half. tauto.
Qed.

Lemma exceeds_half_shadowed (f g : FormField) :
  exceeds_half (overlap_area f g) (Z.min (area f) (area g)) -> shadowed_by f g.
Proof.
  intros H%exceeds_half_ratio. unfold shadowed_by.
  eapply Qlt_trans; [|exact H]. reflexivity.
Qed.

Lemma nearly_apart_iff (f g : FormField) :
  nearly_apart f g
  <-> ~ exceeds_half (overlap_area f g) (Z.min (area f) (area g)).
Proof.
  rewrite exceeds_half_ratio. unfold nearly_apart.
  split; [apply Qle_not_lt | apply Qnot_lt_le].
Qed.

(** Where one of the two areas is below [2 ^ 53], nothing lies between
    one half and what is rounded to it. *)
Lemma nearly_apart_small (f g : FormField) :
  small_box f \/ small_box g -> nearly_apart f g -> apart f g.
Proof.
  intros Hsmall Hn%nearly_apart_iff. unfold apart.
  destruct (overlap_cases f g) as [Ho|Ho].
  - rewrite (ratio_without_overlap f g Ho). discriminate.
  - destruct (ratio_of_overlap f g Ho) as (-> & Hd & Hf & Hg).
    apply Qnot_lt_le. rewrite quotient_above_half by lia.
    unfold exceeds_half, small_box in *. rewrite Hf, Hg in Hsmall. lia.
Qed.

Lemma apart_nearly (f g : FormField) : apart f g -> nearly_apart f g.
Proof.
  unfold apart, nearly_apart. intros H. eapply Qle_trans; [exact H|]. discriminate.
Qed.

Lemma shadowed_not_apart (f g : FormField) : shadowed_by f g -> ~ apart f g.
Proof. unfold shadowed_by, apart. apply Qlt_not_le. Qed.

Lemma overlap_ratio_sym (f g : FormField) : overlap_ratio f g = overlap_ratio g f.
Proof.
  unfold overlap_ratio. now rewrite overlap_area_sym, Z.min_comm.
Qed.

(** The division raises when the smaller area is zero, and only then;
    otherwise the test of the code tells whether the float exceeds
    0.5. *)
Lemma overlap_ratio_cases (f g : FormField) :
  (Z.min (area f) (area g) = 0%Z -> overlap_ratio f g = Raise ZeroDivisionError)
  /\ (Z.min (area f) (area g) <> 0%Z ->
      exists r, overlap_ratio f g = Return r
        /\ (Qltb (1 # 2) r = true
            <-> exceeds_half (overlap_area f g) (Z.min (area f) (area g)))).
Proof.
  unfold overlap_ratio. split.
  - intros ->. apply DivFacts.truediv_by_zero.
  - intros Hd. destruct (overlap_cases f g) as [Ho|Ho].
    + rewrite Ho, DivFacts.truediv_zero by exact Hd. exists 0%Q.
      split; [reflexivity|]. unfold exceeds_half. split; [discriminate | lia].
    + destruct (overlap_area_positive f g Ho) as (_ & _ & Hle).
      destruct (DivFacts.truediv_unit _ _ (conj Ho Hle)) as (r & -> & Hr).
      exists r. split; [reflexivity|]. rewrite Qltb_lt, Hr. unfold exceeds_half. tauto.
Qed.

Lemma overlap_ratio_raises (f g : FormField) (e : exn) :
  overlap_ratio f g = Raise e ->
  e = ZeroDivisionError /\ Z.min (area f) (area g) = 0%Z.
Proof.
  intros H. destruct (overlap_ratio_cases f g) as [Hz Hnz].
  destruct (Z.eq_dec (Z.min (area f) (area g)) 0%Z) as [E|E].
  - rewrite (Hz E) in H. injection H as <-. auto.
  - destruct (Hnz E) as (r & Hr & _). congruence.
Qed.

(** *** The two loops *)

(** What the inner loop answers, told on the overlap of the field with
    the fields kept. *)
Lemma is_duplicate_false (f : FormField) (kept : list FormField) :
  is_duplicate f kept = Return false ->
  Forall (fun g => Z.min (area f) (area g) <> 0%Z /\ nearly_apart f g) kept.
Proof.
  induction kept as [|g kept IH]; cbn [is_duplicate]; [constructor|].
  destruct (overlap_ratio f g) as [r|e] eqn:Er; [|discriminate].
  destruct (overlap_ratio_cases f g) as [Hz Hnz].
  assert (Hd : Z.min (area f) (area g) <> 0%Z).
  { intros E. rewrite (Hz E) in Er. discriminate. }
  destruct (Hnz Hd) as (r' & Hr' & Hiff). rewrite Er in Hr'. injection Hr' as <-.
  destruct (Qltb (1 # 2) r) eqn:E; [discriminate|].
  intros H. constructor; [|auto]. split; [exact Hd|].
  apply nearly_apart_iff. intros Hex%Hiff. congruence.
Qed.

Lemma is_duplicate_true (f : FormField) (kept : list FormField) :
  is_duplicate f kept = Return true -> Exists (shadowed_by f) kept.
Proof.
  induction kept as [|g kept IH]; cbn [is_duplicate]; [discriminate|].
  destruct (overlap_ratio f g) as [r|e] eqn:Er; [|discriminate].
  destruct (Qltb (1 # 2) r) eqn:E.
  - intros _. apply Exists_cons_hd. apply exceeds_half_shadowed.
    destruct (overlap_ratio_cases f g) as [Hz Hnz].
    destruct (Z.eq_dec (Z.min (area f) (area g)) 0%Z) as [Ed|Ed].
    + rewrite (Hz Ed) in Er. discriminate.
    + destruct (Hnz Ed) as (r' & Hr' & Hiff). rewrite Er in Hr'. injection Hr' as <-.
      now apply Hiff.
  - intros H. apply Exists_cons_tl. auto.
Qed.

Lemma is_duplicate_raises (f : FormField) (kept : list FormField) (e : exn) :
  is_duplicate f kept = Raise e ->
  e = ZeroDivisionError /\ Exists (fun g => Z.min (area f) (area g) = 0%Z) kept.
Proof.
  induction kept as [|g kept IH]; cbn [is_duplicate]; [discriminate|].
  destruct (overlap_ratio f g) as [r|e'] eqn:Er.
  - destruct (Qltb (1 # 2) r); [discriminate|].
    intros [He Hex]%IH. split; [exact He | now apply Exists_cons_tl].
  - intros [= <-]. apply overlap_ratio_raises in Er as [-> Hz].
    split; [reflexivity | now apply Exists_cons_hd].
Qed.

Lemma is_duplicate_defined (f : FormField) (kept : list FormField) :
  positive_box f -> Forall positive_box kept ->
  exists b, is_duplicate f kept = Return b.
Proof.
  intros Hf%area_positive. induction 1 as [|g kept Hg%area_positive _ IH];
    cbn [is_duplicate]; [now exists false|].
  destruct (proj2 (overlap_ratio_cases f g) ltac:(lia)) as (r & -> & _).
  destruct (Qltb _ _); [now exists true | exact IH].
Qed.

Lemma suppress_defined (fs kept : list FormField) :
  Forall positive_box fs -> Forall positive_box kept ->
  exists res, suppress fs kept = Return res.
Proof.
  intros Hfs. revert kept. induction Hfs as [|f fs Hf _ IH]; intros kept Hk; simpl.
  - now exists kept.
  - destruct (is_duplicate_defined f kept Hf Hk) as [[|] ->]; [now apply IH|].
    apply IH. apply Forall_app. split; [exact Hk | now constructor].
Qed.

Lemma suppress_inv (fs kept res : list FormField) :
  suppress fs kept = Return res ->
  exists more, res = (kept ++ more)%list /\ sublist more fs /\ independent kept more.
Proof.
  revert kept. induction fs as [|f fs IH]; intros kept; simpl.
  - intros [= <-]. exists []. rewrite app_nil_r. repeat split. constructor.
  - destruct (is_duplicate f kept) as [[|]|] eqn:E; [| |discriminate].
    + intros (more & -> & Hs & Hi)%IH. exists more. repeat split; [|exact Hi].
      now apply sublist_cons.
    + intros (more & -> & Hs & Hi)%IH. exists (f :: more).
      rewrite <- app_assoc. repeat split; [|exact E|exact Hi].
      now apply sublist_skip.
Qed.

Lemma suppress_raises_only (fs kept : list FormField) (e : exn) :
  suppress fs kept = Raise e -> e = ZeroDivisionError.
Proof.
  revert kept. induction fs as [|f fs IH]; intros kept; simpl; [discriminate|].
  destruct (is_duplicate f kept) as [[|]|e'] eqn:E; [apply IH | apply IH |].
  intros [= <-]. now apply is_duplicate_raises in E.
Qed.

Lemma independent_suppress (fs kept : list FormField) :
  independent kept fs -> suppress fs kept = Return (kept ++ fs)%list.
Proof.
  revert kept. induction fs as [|f fs IH]; intros kept; simpl.
  - intros _. now rewrite app_nil_r.
  - intros [-> Hi]. rewrite (IH _ Hi), <- app_assoc. reflexivity.
Qed.

End DedupFacts.

Module Deduplicator.

Import ScreenAnalyzer DedupSpec RegionSpec GeometryFacts DedupFacts.

(** A call on a non-empty list, step by step. *)
Lemma remove_duplicates_unfold (fields : ref) (sigma : store) (l : list FormField) :
  sigma !! fields = Some l -> l <> [] ->
  _remove_duplicates fields sigma =
    let sigma1 := <[fields := sort_by_confidence l]> sigma in
    match suppress (sort_by_confidence l) [] with
    | Return kept => (Return (fresh (dom sigma1)), <[fresh (dom sigma1) := kept]> sigma1)
    | Raise e => (Raise e, sigma1)
    end.
Proof.
  intros H Hne. unfold _remove_duplicates. rewrite H. simpl.
  destruct l; [contradiction | reflexivity].
Qed.

Lemma remove_duplicates_empty (fields : ref) (sigma : store) :
  sigma !! fields = Some [] ->
  _remove_duplicates fields sigma = (Return fields, sigma).
Proof. intros H. unfold _remove_duplicates. now rewrite H. Qed.

Lemma fresh_ref_new (sigma : store) : sigma !! fresh (dom sigma) = None.
Proof. apply not_elem_of_dom, is_fresh. Qed.

Lemma fresh_ref_other (sigma : store) (r : ref) :
  is_Some (sigma !! r) -> fresh (dom sigma) <> r.
Proof.
  intros [l Hl] E. rewrite <- E, fresh_ref_new in Hl. discriminate.
Qed.

(** The call returns a list holding what [deduplicate] computes from
    the content of its argument, and raises when [deduplicate] does. *)
Lemma remove_duplicates_deduplicate (fields : ref) (sigma : store) (l : list FormField) :
  sigma !! fields = Some l ->
  match deduplicate l with
  | Return kept =>
      exists out sigma',
        _remove_duplicates fields sigma = (Return out, sigma')
        /\ sigma' !! out = Some kept
  | Raise e => exists sigma', _remove_duplicates fields sigma = (Raise e, sigma')
  end.
Proof.
  intros Hs. destruct (decide (l = [])) as [->|Hne].
  - rewrite (remove_duplicates_empty _ _ Hs). simpl. eauto.
  - rewrite (remove_duplicates_unfold _ _ _ Hs Hne). cbn zeta.
    unfold deduplicate. destruct l as [|f l]; [contradiction|].
    destruct (suppress _ []) as [kept|]; [|eauto].
    eexists _, _. split; [reflexivity | apply lookup_insert_eq].
Qed.

(** The greedy pass on two regions in the order of the sort. *)
Lemma suppress_pair (hi lo : FormField) :
  positive_box hi -> positive_box lo ->
  (nearly_apart lo hi -> suppress [hi; lo] [] = Return [hi; lo])
  /\ (~ nearly_apart lo hi -> suppress [hi; lo] [] = Return [hi]).
Proof.
  intros Hhi%area_positive Hlo%area_positive. cbn [suppress is_duplicate app].
  destruct (proj2 (overlap_ratio_cases lo hi) ltac:(lia)) as (r & -> & Hr).
  rewrite nearly_apart_iff. split; intros Hn.
  - destruct (Qltb (1 # 2) r); [now destruct Hn; apply Hr | reflexivity].
  - destruct (Qltb (1 # 2) r) eqn:E; [reflexivity|].
    destruct Hn. intros H%Hr. congruence.
Qed.

(** C1, as stated, fails on boxes of [2 ^ 53] pixels and more: the
    quotient of the two areas is rounded to a float before it is
    compared with 0.5. Two boxes that share [2 ^ 59 + 1] of the
    [2 ^ 60] pixels of the smaller one, a little more than half, are
    both kept. *)
Lemma remove_duplicates_keeps_rounded_pair :
  positive_box Sample.huge_low /\ positive_box Sample.huge_high
  /\ (confidence Sample.huge_low < confidence Sample.huge_high)%Q
  /\ (1 # 2 < ratio Sample.huge_low Sample.huge_high)%Q
  /\ exists out,
       (_remove_duplicates 0%nat Sample.huge_list).1 = Return out
       /\ (_remove_duplicates 0%nat Sample.huge_list).2 !! out
          = Some [Sample.huge_high; Sample.huge_low].
Proof.
  split; [split; reflexivity|]. split; [split; reflexivity|].
  split; [reflexivity|]. split.
  - assert (Ho : (0 < overlap_area Sample.huge_low Sample.huge_high)%Z) by reflexivity.
    destruct (ratio_of_overlap _ _ Ho) as (-> & _). reflexivity.
  - rewrite (remove_duplicates_unfold 0%nat _ [Sample.huge_low; Sample.huge_high])
      by (apply lookup_singleton_eq || discriminate).
    cbn zeta.
    change (sort_by_confidence [Sample.huge_low; Sample.huge_high])
      with [Sample.huge_high; Sample.huge_low].
    replace (suppress [Sample.huge_high; Sample.huge_low] [])
      with (Return [Sample.huge_high; Sample.huge_low]) by (vm_compute; reflexivity).
    eexists. split; [reflexivity|]. cbn [snd]. apply lookup_insert_eq.
Qed.

(** C1, amended. Called on a list of exactly two regions with positive
    widths and heights and distinct confidences, the deduplicator
    returns a list that holds only the region of higher confidence when
    the overlap ratio (intersection area over the smaller of the two
    areas) exceeds 0.5 by more than [2 ^ -54], and both regions, the one
    of higher confidence first, otherwise, hence whenever the ratio is
    at most 0.5. When one of the two areas is below [2 ^ 53], only the
    region of higher confidence is returned as soon as the ratio
    exceeds 0.5. *)
Theorem remove_duplicates_pair (a b : FormField) (fields : ref) (sigma : store) :
  positive_box a -> positive_box b ->
  ~ (confidence a == confidence b)%Q ->
  sigma !! fields = Some [a; b] ->
  let hi := if Qltb (confidence a) (confidence b) then b else a in
  let lo := if Qltb (confidence a) (confidence b) then a else b in
  (confidence lo < confidence hi)%Q /\
  exists out sigma',
    _remove_duplicates fields sigma = (Return out, sigma') /\
    ((1 # 2) + rounding_gap < ratio a b -> sigma' !! out = Some [hi])%Q /\
    (ratio a b <= (1 # 2) + rounding_gap -> sigma' !! out = Some [hi; lo])%Q /\
    (ratio a b <= 1 # 2 -> sigma' !! out = Some [hi; lo])%Q /\
    (small_box a \/ small_box b ->
     (1 # 2 < ratio a b)%Q -> sigma' !! out = Some [hi]).
Proof.
  intros Ha Hb Hne Hs hi lo.
  assert (Hsort : sort_by_confidence [a; b] = [hi; lo]).
  { subst hi lo. simpl. now destruct (Qltb (confidence a) (confidence b)). }
  assert (Hpos : positive_box hi /\ positive_box lo).
  { subst hi lo. now destruct (Qltb (confidence a) (confidence b)). }
  assert (Hr : ratio lo hi = ratio a b).
  { subst hi lo. destruct (Qltb (confidence a) (confidence b));
      [reflexivity | apply ratio_sym]. }
  assert (Hsmall : small_box a \/ small_box b -> small_box lo \/ small_box hi).
  { subst hi lo. destruct (Qltb (confidence a) (confidence b)); tauto. }
  split.
  { subst hi lo. destruct (Qltb (confidence a) (confidence b)) eqn:E.
    - now apply Qltb_lt.
    - apply Qltb_ge in E. apply Qle_lteq in E as [E|E]; [exact E|].
      now destruct Hne. }
  rewrite (remove_duplicates_unfold _ _ _ Hs) by discriminate.
  rewrite Hsort. cbn zeta.
  destruct (suppress_pair hi lo) as [Hkeep Hdrop]; [tauto | tauto |].
  unfold nearly_apart in Hkeep, Hdrop. rewrite Hr in Hkeep, Hdrop.
  destruct (Qlt_le_dec ((1 # 2) + rounding_gap) (ratio a b)) as [Hgt|Hle].
  - rewrite Hdrop by now apply Qlt_not_le.
    eexists _, _. split; [reflexivity|]. rewrite lookup_insert_eq.
    split; [reflexivity|].
    split; [intros H; exfalso; eapply Qlt_not_le; eassumption|].
    split; [|reflexivity]. intros H. exfalso.
    eapply Qlt_not_le; [exact Hgt|]. eapply Qle_trans; [exact H|]. discriminate.
  - rewrite Hkeep by exact Hle.
    eexists _, _. split; [reflexivity|]. rewrite lookup_insert_eq.
    split; [intros H; exfalso; eapply Qlt_not_le; eassumption|].
    split; [reflexivity|]. split; [reflexivity|].
    intros Hsm H. exfalso.
    assert (Hap : apart lo hi).
    { apply nearly_apart_small; [auto|]. unfold nearly_apart. now rewrite Hr. }
    unfold apart in Hap. rewrite Hr in Hap. eapply Qlt_not_le; eassumption.
Qed.

(** C4. Idempotence: for every list of regions with positive widths
    and heights, the deduplicator returns a list, and applied to that
    list it returns a list with the very same content, the list it was
    given being left as it was: the second pass drops nothing. *)
Theorem remove_duplicates_idempotent
    (fields : ref) (sigma : store) (l : list FormField) :
  Forall positive_box l ->
  sigma !! fields = Some l ->
  exists out sigma1 kept,
    _remove_duplicates fields sigma = (Return out, sigma1) /\
    sigma1 !! out = Some kept /\
    exists out2 sigma2,
      _remove_duplicates out sigma1 = (Return out2, sigma2) /\
      sigma2 !! out2 = Some kept /\
      sigma2 !! out = Some kept.
Proof.
  intros Hpos Hs. destruct (decide (l = [])) as [->|Hne].
  { exists fields, sigma, []. rewrite (remove_duplicates_empty _ _ Hs).
    split; [reflexivity|]. split; [exact Hs|]. exists fields, sigma. auto. }
  rewrite (remove_duplicates_unfold _ _ _ Hs Hne). cbn zeta.
  set (sigma0 := <[fields := sort_by_confidence l]> sigma).
  assert (Hpos' : Forall positive_box (sort_by_confidence l)).
  { eapply Permutation_Forall; [apply sort_perm | exact Hpos]. }
  destruct (suppress_defined _ [] Hpos' (List.Forall_nil _)) as [kept Hk].
  rewrite Hk. set (out := fresh (dom sigma0)).
  exists out, (<[out := kept]> sigma0), kept.
  split; [reflexivity|]. split; [apply lookup_insert_eq|].
  destruct (suppress_inv _ _ _ Hk) as (more & -> & Hsub & Hind).
  cbn [app] in *.
  destruct (decide (more = [])) as [->|Hm].
  { exists out, (<[out := []]> sigma0).
    rewrite remove_duplicates_empty by apply lookup_insert_eq.
    split; [reflexivity|]. split; apply lookup_insert_eq. }
  rewrite (remove_duplicates_unfold out _ more) by (apply lookup_insert_eq || exact Hm).
  cbn zeta.
  rewrite (sort_sorted_id more) by (eapply sorted_sublist; [exact Hsub | apply sort_sorted]).
  rewrite (independent_suppress _ _ Hind). cbn [app].
  eexists _, _. split; [reflexivity|]. split; [apply lookup_insert_eq|].
  rewrite lookup_insert_ne.
  - apply lookup_insert_eq.
  - apply fresh_ref_other. rewrite lookup_insert_eq. eauto.
Qed.

Lemma remove_duplicates_pair_witness :
  (3 # 10 < 7 # 10)%Q /\
  exists out sigma',
    _remove_duplicates 0%nat {[ 0%nat := [Sample.low; Sample.high] ]}
      = (Return out, sigma') /\
    ((1 # 2) + rounding_gap < ratio Sample.low Sample.high
     -> sigma' !! out = Some [Sample.high])%Q /\
    (ratio Sample.low Sample.high <= (1 # 2) + rounding_gap
     -> sigma' !! out = Some [Sample.high; Sample.low])%Q /\
    (ratio Sample.low Sample.high <= 1 # 2
     -> sigma' !! out = Some [Sample.high; Sample.low])%Q /\
    (small_box Sample.low \/ small_box Sample.high ->
     (1 # 2 < ratio Sample.low Sample.high)%Q -> sigma' !! out = Some [Sample.high]).
Proof.
  apply (remove_duplicates_pair Sample.low Sample.high 0%nat
           {[ 0%nat := [Sample.low; Sample.high] ]}).
  - split; reflexivity.
  - split; reflexivity.
  - intros H. discriminate H.
  - apply lookup_singleton_eq.
Defined.

Lemma remove_duplicates_idempotent_witness :
  exists out sigma1 kept,
    _remove_duplicates 0%nat Sample.one_list = (Return out, sigma1) /\
    sigma1 !! out = Some kept /\
    exists out2 sigma2,
      _remove_duplicates out sigma1 = (Return out2, sigma2) /\
      sigma2 !! out2 = Some kept /\
      sigma2 !! out = Some kept.
Proof.
  apply (remove_duplicates_idempotent 0%nat Sample.one_list [Sample.low; Sample.apart]).
  - repeat constructor.
  - apply lookup_singleton_eq.
Defined.

(** C5, as stated, fails: the call sorts the list it is given. A list
    holding [low] and then [apart] holds [apart] and then [low] once the
    deduplicator has returned. *)
Lemma remove_duplicates_reorders_argument :
  Sample.one_list !! 0%nat = Some [Sample.low; Sample.apart] /\
  (_remove_duplicates 0%nat Sample.one_list).2 !! 0%nat
    = Some [Sample.apart; Sample.low] /\
  [Sample.apart; Sample.low] <> [Sample.low; Sample.apart].
Proof.
  split; [apply lookup_singleton_eq|]. split; [|discriminate].
  rewrite (remove_duplicates_unfold 0%nat _ [Sample.low; Sample.apart])
    by (apply lookup_singleton_eq || discriminate).
  cbn zeta.
  change (sort_by_confidence [Sample.low; Sample.apart])
    with [Sample.apart; Sample.low].
  replace (suppress [Sample.apart; Sample.low] [])
    with (Return [Sample.apart; Sample.low]) by (vm_compute; reflexivity).
  cbn [snd]. rewrite lookup_insert_ne; [apply lookup_insert_eq|].
  apply fresh_ref_other. rewrite lookup_insert_eq. eauto.
Qed.

(** C5, amended. Whatever list the deduplicator is given, once the call
    is over that list holds the same regions as before, each as often
    as before, in the order a stable sort by falling confidence gives
    them; it is in its former order when that order was already one of
    falling confidence; no other list of the store has changed; and
    when the call returns, it returns the list it was given if that
    list is empty, and otherwise a list that did not exist before, which
    holds regions of the argument in the order they have there after
    the call. *)
Theorem remove_duplicates_argument_after
    (fields : ref) (sigma : store) (l : list FormField) :
  sigma !! fields = Some l ->
  let call := _remove_duplicates fields sigma in
  exists sorted,
    call.2 !! fields = Some sorted
    /\ stable_sort_desc l sorted
    /\ (StronglySorted ge_conf l -> sorted = l)
    /\ (forall r, r <> fields -> is_Some (sigma !! r) -> call.2 !! r = sigma !! r)
    /\ (forall out, call.1 = Return out ->
          (l = [] /\ out = fields /\ call.2 = sigma)
          \/ (l <> [] /\ out <> fields /\ sigma !! out = None
              /\ exists kept, call.2 !! out = Some kept /\ sublist kept sorted)).
Proof.
  intros Hs call. exists (sort_by_confidence l). subst call.
  assert (Hrest : stable_sort_desc l (sort_by_confidence l)
                  /\ (StronglySorted ge_conf l -> sort_by_confidence l = l)).
  { split; [apply sort_stable | apply sort_sorted_id]. }
  destruct (decide (l = [])) as [->|Hne].
  { rewrite (remove_duplicates_empty _ _ Hs). cbn [fst snd].
    split; [exact Hs|]. split; [apply Hrest|]. split; [apply Hrest|].
    split; [auto|]. intros out [= <-]. left. auto. }
  rewrite (remove_duplicates_unfold _ _ _ Hs Hne). cbn zeta.
  assert (Hfields : is_Some (<[fields := sort_by_confidence l]> sigma !! fields)).
  { rewrite lookup_insert_eq. eauto. }
  destruct (suppress (sort_by_confidence l) []) as [kept|e] eqn:Ek; cbn [fst snd].
  - set (out := fresh (dom (<[fields := sort_by_confidence l]> sigma))).
    assert (Hout : out <> fields) by now apply fresh_ref_other.
    split.
    { rewrite lookup_insert_ne by exact Hout. apply lookup_insert_eq. }
    split; [apply Hrest|]. split; [apply Hrest|]. split.
    { intros r Hr Hsome. rewrite lookup_insert_ne.
      - now apply lookup_insert_ne.
      - apply fresh_ref_other. now rewrite lookup_insert_ne. }
    intros out' [= <-]. right. split; [exact Hne|]. split; [exact Hout|]. split.
    { pose proof (fresh_ref_new (<[fields := sort_by_confidence l]> sigma)) as Hn.
      fold out in Hn. now rewrite lookup_insert_ne in Hn. }
    exists kept. split; [apply lookup_insert_eq|].
    apply suppress_inv in Ek as (more & -> & Hsub & _). exact Hsub.
  - split; [apply lookup_insert_eq|]. split; [apply Hrest|]. split; [apply Hrest|].
    split; [|discriminate]. intros r Hr _. now apply lookup_insert_ne.
Qed.

Lemma remove_duplicates_argument_after_witness :
  let call := _remove_duplicates 0%nat Sample.one_list in
  exists sorted,
    call.2 !! 0%nat = Some sorted
    /\ stable_sort_desc [Sample.low; Sample.apart] sorted
    /\ (StronglySorted ge_conf [Sample.low; Sample.apart]
        -> sorted = [Sample.low; Sample.apart])
    /\ (forall r, r <> 0%nat -> is_Some (Sample.one_list !! r)
                  -> call.2 !! r = Sample.one_list !! r)
    /\ (forall out, call.1 = Return out ->
          ([Sample.low; Sample.apart] = [] /\ out = 0%nat /\ call.2 = Sample.one_list)
          \/ ([Sample.low; Sample.apart] <> [] /\ out <> 0%nat
              /\ Sample.one_list !! out = None
              /\ exists kept, call.2 !! out = Some kept /\ sublist kept sorted)).
Proof.
  apply (remove_duplicates_argument_after 0%nat Sample.one_list
           [Sample.low; Sample.apart]).
  apply lookup_singleton_eq.
Defined.

End Deduplicator.

(** ** Stripping *)

Module StripFacts.

Import LabelSpec.

Lemma lstrip_by_all (p drop : ascii -> bool) (s : string) :
  all_chars p s = true -> all_chars p (Py.lstrip_by drop s) = true.
Proof.
  induction s as [|c r IH]; simpl; [reflexivity|].
  intros [Hc Hr]%andb_true_iff. destruct (drop c); [auto|].
  simpl. now rewrite Hc, Hr.
Qed.

Lemma rstrip_by_all (p drop : ascii -> bool) (s : string) :
  all_chars p s = true -> all_chars p (Py.rstrip_by drop s) = true.
Proof.
  induction s as [|c r IH]; simpl; [reflexivity|].
  intros [Hc Hr]%andb_true_iff. specialize (IH Hr).
  destruct (Py.rstrip_by drop r) as [|d r'].
  - destruct (drop c); simpl; [reflexivity | now rewrite Hc].
  - cbn [all_chars] in *. now rewrite Hc, IH.
Qed.

Lemma lstrip_by_first (drop : ascii -> bool) (s : string) (c : ascii) :
  first_char (Py.lstrip_by drop s) = Some c -> drop c = false.
Proof.
  induction s as [|d r IH]; simpl; [discriminate|].
  destruct (drop d) eqn:E; [exact IH|]. simpl. now intros [= <-].
Qed.

Lemma rstrip_by_first (drop : ascii -> bool) (s : string) (c : ascii) :
  first_char (Py.rstrip_by drop s) = Some c -> first_char s = Some c.
Proof.
  destruct s as [|d r]; simpl; [discriminate|].
  destruct (Py.rstrip_by drop r); [destruct (drop d); [discriminate|]|]; auto.
Qed.

Lemma rstrip_by_last (drop : ascii -> bool) (s : string) (c : ascii) :
  last_char (Py.rstrip_by drop s) = Some c -> drop c = false.
Proof.
  induction s as [|d r IH]; simpl; [discriminate|].
  destruct (Py.rstrip_by drop r) as [|e r'] eqn:E.
  - destruct (drop d) eqn:Ed; simpl; [discriminate | now intros [= <-]].
  - exact IH.
Qed.

Lemma remove_non_word_all (text : string) :
  all_chars (fun c => Py.isword c || Py.isspace c)
            (ScreenAnalyzer.remove_non_word text) = true.
Proof.
  induction text as [|c r IH]; simpl; [reflexivity|].
  destruct (Py.isword c || Py.isspace c) eqn:E; [|exact IH].
  simpl. now rewrite E, IH.
Qed.

Lemma clean_is_clean (raw : string) : is_clean (ScreenAnalyzer.clean raw).
Proof.
  unfold is_clean, ScreenAnalyzer.clean, Py.strip, Py.strip_by. split; [|split].
  - apply rstrip_by_all, lstrip_by_all, remove_non_word_all.
  - intros c Hc%rstrip_by_first. revert Hc. apply lstrip_by_first.
  - intros c. apply rstrip_by_last.
Qed.

(** *** The text as a list of characters *)

Lemma length_list_of_string (s : string) :
  length (list_ascii_of_string s) = String.length s.
Proof. induction s as [|c r IH]; [reflexivity|]. cbn. now rewrite IH. Qed.

Lemma lstrip_list (s : string) :
  list_ascii_of_string (Py.lstrip_by Py.isspace s)
  = drop_blanks (list_ascii_of_string s).
Proof.
  induction s as [|c r IH]; [reflexivity|]. cbn [Py.lstrip_by list_ascii_of_string drop_blanks].
  now destruct (Py.isspace c).
Qed.

Lemma drop_blanks_snoc (l : list ascii) (c : ascii) :
  drop_blanks (l ++ [c])
  = match drop_blanks l with
    | [] => if Py.isspace c then [] else [c]
    | kept => (kept ++ [c])%list
    end.
Proof.
  induction l as [|d l IH]; [reflexivity|]. cbn [app drop_blanks].
  now destruct (Py.isspace d).
Qed.

(** Taking the white space off the end, one character further left. *)
Lemma rev_drop_blanks_cons (c : ascii) (l : list ascii) :
  rev (drop_blanks (rev (c :: l)))
  = match rev (drop_blanks (rev l)) with
    | [] => if Py.isspace c then [] else [c]
    | kept => c :: kept
    end.
Proof.
  cbn [rev]. rewrite drop_blanks_snoc.
  destruct (drop_blanks (rev l)) as [|d m]; [now destruct (Py.isspace c)|].
  rewrite rev_app_distr. cbn [rev app].
  destruct (rev m ++ [d])%list eqn:E; [|reflexivity].
  now apply app_eq_nil in E as [_ E].
Qed.

Lemma rstrip_list (s : string) :
  list_ascii_of_string (Py.rstrip_by Py.isspace s)
  = rev (drop_blanks (rev (list_ascii_of_string s))).
Proof.
  induction s as [|c r IH]; [reflexivity|].
  cbn [list_ascii_of_string]. rewrite rev_drop_blanks_cons, <- IH.
  cbn [Py.rstrip_by]. destruct (Py.rstrip_by Py.isspace r); [|reflexivity].
  now destruct (Py.isspace c).
Qed.

Lemma strip_list (s : string) :
  list_ascii_of_string (Py.strip s) = trim (list_ascii_of_string s).
Proof. unfold Py.strip, Py.strip_by, trim. now rewrite rstrip_list, lstrip_list. Qed.

Lemma remove_non_word_list (s : string) :
  list_ascii_of_string (ScreenAnalyzer.remove_non_word s)
  = List.filter kept_char (list_ascii_of_string s).
Proof.
  induction s as [|c r IH]; [reflexivity|].
  cbn [ScreenAnalyzer.remove_non_word list_ascii_of_string List.filter].
  unfold kept_char at 1. destruct (Py.isword c || Py.isspace c); [|exact IH].
  cbn [list_ascii_of_string]. now rewrite IH.
Qed.

(** White space is kept by the filter, so the white space taken off an
    end before filtering is taken off after it as well. *)
Lemma drop_blanks_filter (l : list ascii) :
  drop_blanks (List.filter kept_char (drop_blanks l))
  = drop_blanks (List.filter kept_char l).
Proof.
  induction l as [|c l IH]; [reflexivity|]. cbn [drop_blanks].
  destruct (Py.isspace c) eqn:E; [|reflexivity].
  cbn [List.filter]. unfold kept_char at 2. rewrite E, orb_true_r.
  cbn [drop_blanks]. now rewrite E.
Qed.

Lemma rev_drop_blanks_filter (l : list ascii) :
  rev (drop_blanks (rev (List.filter kept_char (rev (drop_blanks (rev l))))))
  = rev (drop_blanks (rev (List.filter kept_char l))).
Proof.
  rewrite <- !List.filter_rev, rev_involutive, drop_blanks_filter. reflexivity.
Qed.

Lemma drop_blanks_swap (l : list ascii) :
  drop_blanks (rev (drop_blanks (rev l))) = rev (drop_blanks (rev (drop_blanks l))).
Proof.
  induction l as [|c l IH]; [reflexivity|].
  rewrite rev_drop_blanks_cons. cbn [drop_blanks].
  destruct (Py.isspace c) eqn:E.
  - destruct (rev (drop_blanks (rev l))) as [|d m] eqn:Em.
    + cbn [drop_blanks] in *. exact IH.
    + cbn [drop_blanks]. rewrite E. exact IH.
  - rewrite rev_drop_blanks_cons.
    destruct (rev (drop_blanks (rev l))); cbn [drop_blanks]; now rewrite E.
Qed.

Lemma trim_filter_trim (l : list ascii) :
  trim (List.filter kept_char (trim l)) = trim (List.filter kept_char l).
Proof.
  unfold trim.
  rewrite <- (drop_blanks_swap (List.filter kept_char (rev (drop_blanks (rev (drop_blanks l)))))).
  rewrite rev_drop_blanks_filter, drop_blanks_swap, drop_blanks_filter. reflexivity.
Qed.

(** The text the loop body computes is the cleaned text. *)
Lemma clean_cleaned (raw : string) : ScreenAnalyzer.clean raw = cleaned raw.
Proof.
  unfold ScreenAnalyzer.clean, cleaned.
  rewrite <- (string_of_list_ascii_of_string (Py.strip _)).
  now rewrite strip_list, remove_non_word_list, strip_list, trim_filter_trim.
Qed.

End StripFacts.

(** ** The label extractor and the region detector *)

Module Detector.

Import ScreenAnalyzer DedupSpec DedupFacts LabelSpec StripFacts.

Lemma acceptable_length (text : string) :
  acceptable text = bool_decide (2 < length (list_ascii_of_string text) < 50)%nat.
Proof.
  unfold acceptable. rewrite length_list_of_string.
  destruct (Nat.ltb_spec 2 (String.length text)), (Nat.ltb_spec (String.length text) 50);
    cbn [andb]; symmetry; (apply bool_decide_eq_true_2 || apply bool_decide_eq_false_2); lia.
Qed.

Lemma first_label_cons (gray : Frame) (region : Slice) (rest : list Slice) :
  first_label gray (region :: rest) =
    match probe gray region with
    | Some t => Some t
    | None => first_label gray rest
    end.
Proof.
  unfold probe. simpl. destruct (size region =? 0)%Z; [reflexivity|].
  destruct (image_to_string gray region) as [raw|]; [|reflexivity].
  rewrite acceptable_length, clean_cleaned. cbv zeta.
  destruct (decide (2 < length (list_ascii_of_string (cleaned raw)) < 50)%nat) as [H|H].
  - now rewrite bool_decide_eq_true_2 by exact H.
  - now rewrite bool_decide_eq_false_2 by exact H.
Qed.

Lemma probe_some (gray : Frame) (region : Slice) (t : string) :
  probe gray region = Some t ->
  size region <> 0%Z /\
  (exists raw, image_to_string gray region = Some raw /\ t = cleaned raw) /\
  (2 < length (list_ascii_of_string t) < 50)%nat.
Proof.
  unfold probe. destruct (Z.eqb_spec (size region) 0); [discriminate|].
  destruct (image_to_string gray region) as [raw|]; [|discriminate].
  cbv zeta. destruct (decide _) as [Hlen|]; [|discriminate].
  intros [= <-]. split; [assumption|]. split; [eauto | exact Hlen].
Qed.


(** *** The detection call *)

Lemma deduplicate_defined (l : list FormField) :
  Forall positive_box l ->
  exists kept, deduplicate l = Return kept /\ forall f, In f kept -> In f l.
Proof.
  intros Hpos. destruct l as [|f0 l0] eqn:El; [exists []; auto|].
  rewrite <- El in *. unfold deduplicate.
  assert (Hpos' : Forall positive_box (sort_by_confidence l)).
  { eapply Permutation_Forall; [apply sort_perm | exact Hpos]. }
  destruct (suppress_defined _ [] Hpos' (List.Forall_nil _)) as [kept Hk].
  rewrite Hk. exists kept. rewrite El at 1. split; [reflexivity|].
  destruct (suppress_inv _ _ _ Hk) as (more & -> & Hsub & _). cbn [app].
  intros f Hf. eapply Permutation_in; [symmetry; apply sort_perm|].
  apply list_elem_of_In. eapply elem_of_sublist; [|exact Hsub].
  now apply list_elem_of_In.
Qed.

Lemma upload_fields_spec (tokens : list Token) :
  Forall (fun f => positive_box f /\ field_type f = "file") (upload_fields tokens).
Proof.
  induction tokens as [|t rest IH]; simpl; [constructor|].
  destruct (tok_conf t) as [c|]; [|constructor].
  destruct (_ && _); [|exact IH].
  constructor; [|exact IH]. unfold positive_box. simpl. split; [lia | reflexivity].
Qed.

Lemma detect_buttons_and_uploads_spec (gray : Frame) :
  Forall (fun f => positive_box f /\ field_type f = "file")
         (_detect_buttons_and_uploads gray).
Proof.
  unfold _detect_buttons_and_uploads.
  destruct (image_to_data gray); [apply upload_fields_spec | constructor].
Qed.

Lemma passes_filter_positive (c : Contour) :
  passes_filter c = true ->
  let '(_, _, w, h) := bounding_rect c in (20 < w)%Z /\ (15 < h)%Z.
Proof.
  unfold passes_filter. destruct (bounding_rect c) as [[[cx cy] w] h].
  rewrite !andb_true_iff. intros [[[[[H1 _] H2] _] _] _].
  apply Z.ltb_lt in H1, H2. auto.
Qed.

Lemma contour_fields_positive (gray : Frame) :
  Forall positive_box (contour_fields gray).
Proof.
  unfold contour_fields. induction (contours gray) as [|c cs IH]; simpl; [constructor|].
  apply Forall_app. split; [|exact IH].
  pose proof (passes_filter_positive c) as Hc.
  destruct (bounding_rect c) as [[[cx cy] w] h].
  destruct (passes_filter c); [|constructor].
  constructor; [|constructor]. destruct (Hc eq_refl). unfold positive_box. simpl. lia.
Qed.

Lemma contour_fields_none (gray : Frame) :
  Forall (fun c => passes_filter c = false) (contours gray) ->
  contour_fields gray = [].
Proof.
  unfold contour_fields. induction 1 as [|c cs Hc _ IH]; simpl; [reflexivity|].
  rewrite IH, Hc. now destruct (bounding_rect c) as [[[cx cy] w] h].
Qed.

Lemma opencv_accepts_colour_image (screenshot : Frame) :
  opencv_accepts screenshot = true <-> colour_image screenshot.
Proof.
  unfold opencv_accepts, colour_image.
  rewrite !andb_true_iff, orb_true_iff, !Z.ltb_lt, !Z.eqb_eq, String.eqb_eq. tauto.
Qed.

Lemma opencv_rejects (screenshot : Frame) :
  opencv_accepts screenshot = false <-> ~ colour_image screenshot.
Proof.
  rewrite <- opencv_accepts_colour_image. now destruct (opencv_accepts screenshot).
Qed.

Lemma detect_form_fields_unfold (self : ScreenAnalyzer) (screenshot_arg : option Frame) :
  detect_form_fields self screenshot_arg =
    match frame_of self screenshot_arg with
    | None =>
        (Raise (ValueError "No screenshot available. Call capture_screen() first."), self)
    | Some gray =>
        if opencv_accepts gray then
          match deduplicate (contour_fields gray ++ _detect_buttons_and_uploads gray)%list with
          | Return found =>
              (Return found, {| screenshot := screenshot self; form_fields := found |})
          | Raise e => (Raise e, self)
          end
        else (Raise cv2_error, self)
    end.
Proof.
  unfold detect_form_fields.
  destruct screenshot_arg as [gray|]; cbn [frame_of].
  - now destruct (opencv_accepts gray).
  - destruct (screenshot self) as [gray|]; [|reflexivity].
    now destruct (opencv_accepts gray).
Qed.

(** On a frame OpenCV takes, the call returns. *)
Lemma detect_form_fields_runs (self : ScreenAnalyzer) (screenshot_arg : option Frame)
    (gray : Frame) :
  frame_of self screenshot_arg = Some gray ->
  opencv_accepts gray = true ->
  exists found,
    detect_form_fields self screenshot_arg
      = (Return found, {| screenshot := screenshot self; form_fields := found |})
    /\ deduplicate (contour_fields gray ++ _detect_buttons_and_uploads gray)%list
       = Return found.
Proof.
  intros Hg Hcv. rewrite detect_form_fields_unfold, Hg, Hcv.
  destruct (deduplicate_defined
              (contour_fields gray ++ _detect_buttons_and_uploads gray)%list)
    as (found & Hd & _).
  { apply Forall_app. split; [apply contour_fields_positive|].
    eapply Forall_impl; [apply detect_buttons_and_uploads_spec|]. now intros f []. }
  rewrite Hd. eauto.
Qed.

(** C3, as stated, fails twice. On a frame none of whose contours
    passes the filter, but on which the OCR pass reads an upload
    keyword, the call returns the region built around that keyword, not
    the empty sequence. And a frame may be supplied and the call raise
    all the same: an array without pixels has no contour at all, and on
    it OpenCV raises its own error. *)
Lemma detect_form_fields_keyword_region :
  Forall (fun c => passes_filter c = false) (contours Sample.upload_frame)
  /\ (detect_form_fields __init__ (Some Sample.upload_frame)).1
     = Return [ Sample.box 80 90 100 40 "file" (Some "Upload") (90 # 100) ]
  /\ contours Sample.empty_frame = []
  /\ (detect_form_fields __init__ (Some Sample.empty_frame)).1 = Raise cv2_error.
Proof.
  split; [repeat constructor|]. split; [vm_compute; reflexivity|].
  split; reflexivity.
Qed.

(** C3, amended. The detection call raises the input error exactly when
    it is given no frame and none was captured before. When it has a
    frame, it raises exactly when that frame is not an array OpenCV
    takes for a colour image (no pixel, a number of channels other than
    three or four, or channels that are not of 8 bits), and what it
    raises then is the error of OpenCV. On every other frame in which
    no contour passes the size/aspect filter it returns, without
    raising, the deduplicated regions of the upload-keyword pass, all of
    them file-upload regions, and so the empty sequence when that pass
    finds nothing. *)
Theorem detect_form_fields_failure
    (self : ScreenAnalyzer) (screenshot_arg : option Frame) :
  let outcome := (detect_form_fields self screenshot_arg).1 in
  ((exists msg, outcome = Raise (ValueError msg))
     <-> frame_of self screenshot_arg = None)
  /\ (outcome = Raise cv2_error
      <-> exists gray, frame_of self screenshot_arg = Some gray /\ ~ colour_image gray)
  /\ (forall e, outcome = Raise e -> (exists msg, e = ValueError msg) \/ e = cv2_error)
  /\ (forall gray,
        frame_of self screenshot_arg = Some gray ->
        colour_image gray ->
        Forall (fun c => passes_filter c = false) (contours gray) ->
        exists found,
          outcome = Return found
          /\ deduplicate (_detect_buttons_and_uploads gray) = Return found
          /\ Forall (fun f => field_type f = "file") found
          /\ (_detect_buttons_and_uploads gray = [] -> found = [])).
Proof.
  intros outcome. subst outcome.
  destruct (frame_of self screenshot_arg) as [gray|] eqn:Hg.
  - destruct (opencv_accepts gray) eqn:Hcv.
    + destruct (detect_form_fields_runs self screenshot_arg gray Hg Hcv)
        as (found & Hr & Hd).
      rewrite Hr. cbn [fst].
      split; [split; [intros [msg H]; discriminate H | discriminate]|].
      split.
      { split; [discriminate|]. intros (gray' & [= <-] & Hn).
        now apply opencv_rejects in Hn; rewrite Hn in Hcv. }
      split; [discriminate|].
      intros gray' [= <-] _ Hc. rewrite (contour_fields_none gray Hc) in Hd.
      cbn [app] in Hd. exists found. split; [reflexivity|]. split; [exact Hd|]. split.
      * destruct (deduplicate_defined (_detect_buttons_and_uploads gray))
          as (found' & Hd' & Hin).
        { eapply Forall_impl; [apply detect_buttons_and_uploads_spec|]. now intros f []. }
        assert (found' = found) as -> by congruence.
        apply Forall_forall. intros f Hfin%list_elem_of_In%Hin.
        pose proof (detect_buttons_and_uploads_spec gray) as Hspec.
        rewrite Forall_forall in Hspec. apply list_elem_of_In in Hfin.
        now destruct (Hspec f Hfin).
      * intros Hempty. rewrite Hempty in Hd. simpl in Hd. congruence.
    + rewrite detect_form_fields_unfold, Hg, Hcv. cbn [fst].
      split; [split; [intros [msg H]; discriminate H | discriminate]|].
      split.
      { split; [|reflexivity]. intros _. exists gray. split; [reflexivity|].
        now apply opencv_rejects. }
      split; [intros e [= <-]; now right|].
      intros gray' [= <-] Hn%opencv_accepts_colour_image. congruence.
  - rewrite detect_form_fields_unfold, Hg. cbn [fst].
    split; [split; [reflexivity | eauto]|].
    split; [split; [discriminate | intros (gray & H & _); discriminate H]|].
    split; [intros e [= <-]; left; eauto | discriminate].
Qed.

End Detector.

(** ** The pattern matcher *)

Module PatternMatcher.

Import FieldMatcher.

(** Every pattern of the table is in the fragment [Re] covers. *)
Lemma field_patterns_compile :
  forallb (fun pattern => bool_decide (is_Some (Re.compile pattern)))
          (concat (map snd field_patterns)) = true.
Proof. vm_compute. reflexivity. Qed.

(** C2. For every field kind other than file-upload, the label
    "Email Address" resolves to the key [email], by the pattern
    [\bemail\b], with a confidence of at least 0.6, and the label
    "xyz123" resolves to no match. *)
Theorem pattern_matcher_examples (field_type : string) :
  field_type <> "file" ->
  (exists m,
      _pattern_field_matching "Email Address" field_type = Some m
      /\ data_key m = "email"
      /\ PrimFloat.leb 0.6 (confidence m) = true
      /\ reasoning m = "Pattern match: \bemail\b")
  /\ _pattern_field_matching "xyz123" field_type = None.
Proof.
  intros Hkind%String.eqb_neq. unfold _pattern_field_matching. cbv zeta.
  rewrite Hkind. split.
  - eexists. split; [vm_compute; reflexivity|].
    repeat split; vm_compute; reflexivity.
  - vm_compute. reflexivity.
Qed.

Lemma pattern_matcher_examples_witness :
  (exists m,
      _pattern_field_matching "Email Address" "input" = Some m
      /\ data_key m = "email"
      /\ PrimFloat.leb 0.6 (confidence m) = true
      /\ reasoning m = "Pattern match: \bemail\b")
  /\ _pattern_field_matching "xyz123" "input" = None.
Proof.
  apply (pattern_matcher_examples "input"). discriminate.
Defined.

(** The score of a pattern depends on the label only through one test,
    and each of the eight ways the three tests can turn out gives a
    score between 0 and 1. *)
Lemma pattern_confidence_in_unit (pattern field_label : string) :
  let c := _calculate_pattern_confidence pattern field_label in
  PrimFloat.leb 0 c = true /\ PrimFloat.leb c 1 = true.
Proof.
  unfold _calculate_pattern_confidence. cbv zeta.
  destruct (Py.contains _ _), (_ <? 10)%nat, (existsb _ _);
    split; vm_compute; reflexivity.
Qed.

(** C6. For every pattern registered in the pattern table and every
    label, the empty one and one of 500 characters included, the
    pattern confidence lies between 0 and 1. *)
Theorem pattern_confidence_bounds
    (data_key : string) (patterns : list string) (pattern field_label : string) :
  In (data_key, patterns) field_patterns ->
  In pattern patterns ->
  PrimFloat.leb 0 (_calculate_pattern_confidence pattern field_label) = true
  /\ PrimFloat.leb (_calculate_pattern_confidence pattern field_label) 1 = true.
Proof.
  intros _ _. apply pattern_confidence_in_unit.
Qed.

Lemma pattern_confidence_bounds_witness :
  PrimFloat.leb 0 (_calculate_pattern_confidence "\bemail\b" Sample.long_label) = true
  /\ PrimFloat.leb (_calculate_pattern_confidence "\bemail\b" Sample.long_label) 1 = true.
Proof.
  apply (pattern_confidence_bounds "email"
           ["\bemail\b"; "\be-mail\b"; "\bemail\s*address\b";
            "\bcontact\s*email\b"; "\bmail\b"]).
  - vm_compute. tauto.
  - vm_compute. tauto.
Defined.

End PatternMatcher.

(** ** The AI-assisted matcher *)

Module AiMatcher.

Import FieldMatcher.

(** C7. When the service answers [unknown|0.0|no idea] there is no
    match; when it answers [phone|0.92|clear phone field] the match has
    the key [phone] and the confidence 0.92; and whatever it answers,
    there is no match when the text before the first bar is the literal
    [unknown] or when the text between the first two bars is not a
    floating-point literal. *)
Theorem ai_response_parsing
    (client : Anthropic) (n : nat) (field_label field_type text : string) :
  client n field_label field_type = Some text ->
  let answer := _ai_field_matching client n field_label field_type in
  let parts := Py.split "|" (Py.strip text) in
  (text = "unknown|0.0|no idea" -> answer = None)
  /\ (text = "phone|0.92|clear phone field" ->
      answer = Some {| field_name := field_label;
                       data_key := "phone";
                       confidence := 0.92%float;
                       reasoning := "clear phone field" |})
  /\ (nth 0 parts "" = "unknown" -> answer = None)
  /\ (PyFloat.float (Py.strip (nth 1 parts "")) = None -> answer = None).
Proof.
  intros Hc answer parts. subst answer. unfold _ai_field_matching. rewrite Hc.
  split; [|split; [|split]].
  - intros ->. vm_compute. reflexivity.
  - intros ->. unfold parse_response. vm_compute. reflexivity.
  - intros Hu. unfold parse_response. fold parts. rewrite Hu.
    now rewrite andb_false_r.
  - intros Hf. unfold parse_response. fold parts. rewrite Hf.
    now destruct (_ && _).
Qed.

Lemma ai_response_parsing_witness :
  let client := Sample.service "phone|0.92|clear phone field" in
  let answer := _ai_field_matching client 0 "Tel" "input" in
  let parts := Py.split "|" (Py.strip "phone|0.92|clear phone field") in
  ("phone|0.92|clear phone field" = "unknown|0.0|no idea" -> answer = None)
  /\ ("phone|0.92|clear phone field" = "phone|0.92|clear phone field" ->
      answer = Some {| field_name := "Tel";
                       data_key := "phone";
                       confidence := 0.92%float;
                       reasoning := "clear phone field" |})
  /\ (nth 0 parts "" = "unknown" -> answer = None)
  /\ (PyFloat.float (Py.strip (nth 1 parts "")) = None -> answer = None).
Proof.
  apply (ai_response_parsing (Sample.service "phone|0.92|clear phone field")
           0 "Tel" "input" "phone|0.92|clear phone field").
  reflexivity.
Defined.

End AiMatcher.

(** ** The suggested-mappings view *)

Module Mappings.

Import ScreenAnalyzer FieldMatcher MatchSpec.

Lemma add_mapping_lookup (mappings : gmap string string) (m : FieldMatch) (l : string) :
  add_mapping mappings m !! l =
    if confident m && String.eqb (field_name m) l then Some (data_key m)
    else mappings !! l.
Proof.
  unfold add_mapping, confident. destruct (PrimFloat.ltb _ _); [|reflexivity].
  cbn [andb]. destruct (String.eqb_spec (field_name m) l) as [->|Hne].
  - apply lookup_insert_eq.
  - now apply lookup_insert_ne.
Qed.

Lemma fold_add_mapping_snoc (ms : list FieldMatch) (m : FieldMatch)
    (init : gmap string string) :
  fold_left add_mapping (ms ++ [m])%list init = add_mapping (fold_left add_mapping ms init) m.
Proof. now rewrite fold_left_app. Qed.

(** Only confident matches write, and each writes its own pair. *)
Lemma fold_add_mapping_sound (ms : list FieldMatch) (l k : string) :
  fold_left add_mapping ms ∅ !! l = Some k ->
  exists m, In m ms /\ field_name m = l /\ data_key m = k /\ confident m = true.
Proof.
  induction ms as [|m ms IH] using rev_ind.
  { cbn [fold_left]. now rewrite lookup_empty. }
  rewrite fold_add_mapping_snoc, add_mapping_lookup.
  destruct (confident m) eqn:Ec; cbn [andb].
  - destruct (String.eqb_spec (field_name m) l) as [El|_].
    + intros [= <-]. exists m. rewrite in_app_iff. simpl. auto.
    + intros (m' & Hin & H)%IH. exists m'. rewrite in_app_iff. auto.
  - intros (m' & Hin & H)%IH. exists m'. rewrite in_app_iff. auto.
Qed.

(** The last confident match of a label decides its entry. *)
Lemma fold_add_mapping_last (before after : list FieldMatch) (m : FieldMatch) :
  confident m = true ->
  Forall (fun m' => field_name m' = field_name m -> confident m' = false) after ->
  fold_left add_mapping (before ++ m :: after)%list ∅ !! field_name m
    = Some (data_key m).
Proof.
  intros Hm. induction after as [|m' after IH] using rev_ind; intros Ha.
  - rewrite fold_add_mapping_snoc, add_mapping_lookup, Hm, String.eqb_refl.
    reflexivity.
  - apply Forall_app in Ha as [Ha Hm']. apply Forall_inv in Hm'.
    change (before ++ m :: after ++ [m'])%list
      with (before ++ (m :: after) ++ [m'])%list.
    rewrite app_assoc, fold_add_mapping_snoc, add_mapping_lookup.
    destruct (confident m') eqn:Ec; cbn [andb]; [|now apply IH].
    destruct (String.eqb_spec (field_name m') (field_name m)) as [E|_]; [|now apply IH].
    specialize (Hm' E). congruence.
Qed.

Lemma fold_add_mapping_none (ms : list FieldMatch) (l : string) :
  Forall (fun m => field_name m = l -> confident m = false) ms ->
  fold_left add_mapping ms ∅ !! l = None.
Proof.
  induction ms as [|m ms IH] using rev_ind; intros Hms; [apply lookup_empty|].
  apply Forall_app in Hms as [Hms Hm]. apply Forall_inv in Hm.
  rewrite fold_add_mapping_snoc, add_mapping_lookup.
  destruct (confident m) eqn:Ec; cbn [andb]; [|now apply IH].
  destruct (String.eqb_spec (field_name m) l) as [E|_]; [|now apply IH].
  specialize (Hm E). congruence.
Qed.

(** An entry of the view is the pair of the last match of its label
    that has a confidence above 0.5. *)
Lemma fold_add_mapping_source (ms : list FieldMatch) (l k : string) :
  fold_left add_mapping ms ∅ !! l = Some k ->
  exists before m after,
    ms = (before ++ m :: after)%list
    /\ field_name m = l /\ data_key m = k /\ confident m = true
    /\ Forall (fun m' => field_name m' = l -> confident m' = false) after.
Proof.
  induction ms as [|m ms IH] using rev_ind.
  { cbn [fold_left]. now rewrite lookup_empty. }
  rewrite fold_add_mapping_snoc, add_mapping_lookup.
  destruct (confident m && String.eqb (field_name m) l) eqn:E.
  - apply andb_true_iff in E as [Ec En%String.eqb_eq].
    intros [= <-]. exists ms, m, []. auto.
  - intros (before & m0 & after & -> & Hn & Hk & Hc & Ha)%IH.
    exists before, m0, (after ++ [m])%list.
    split; [now rewrite <- app_assoc|]. split; [exact Hn|]. split; [exact Hk|].
    split; [exact Hc|]. apply Forall_app. split; [exact Ha|].
    constructor; [|constructor]. intros En%String.eqb_eq.
    rewrite En, andb_true_r in E. exact E.
Qed.



End Mappings.

(** ** Validation against the pattern table *)

Module Validation.

Import FieldMatcher MatchSpec.

Lemma try_pattern_key (field_label lower key : string)
    (best : option FieldMatch) (pattern : string) (m : FieldMatch) :
  try_pattern field_label lower key best pattern = Some m ->
  data_key m = key \/ best = Some m.
Proof.
  unfold try_pattern. destruct (Re.search pattern lower); [|auto].
  destruct (PrimFloat.ltb _ _); [|auto]. intros [= <-]. now left.
Qed.

Lemma fold_try_pattern_key (field_label lower key : string)
    (patterns : list string) (best : option FieldMatch) (m : FieldMatch) :
  fold_left (try_pattern field_label lower key) patterns best = Some m ->
  data_key m = key \/ best = Some m.
Proof.
  revert best. induction patterns as [|p ps IH]; intros best; simpl; [auto|].
  intros [H|H]%IH; [now left|]. now apply try_pattern_key in H.
Qed.

Lemma fold_table_key (field_label lower : string)
    (table : list (string * list string)) (best : option FieldMatch) (m : FieldMatch) :
  fold_left
    (fun best '(data_key, patterns) =>
       fold_left (try_pattern field_label lower data_key) patterns best)
    table best = Some m ->
  In (data_key m) (map fst table) \/ best = Some m.
Proof.
  revert best. induction table as [|[key ps] table IH]; intros best; simpl; [auto|].
  intros [H|H]%IH; [auto|].
  apply fold_try_pattern_key in H as [H|H]; auto.
Qed.

(** The generic path only ever names a key of the pattern table. *)
Lemma best_pattern_match_key (field_label lower : string) (m : FieldMatch) :
  best_pattern_match field_label lower = Some m ->
  In (data_key m) (map fst field_patterns).
Proof.
  intros [H|H]%fold_table_key; [exact H | discriminate].
Qed.

Lemma file_keys_not_in_table (key : string) :
  In key file_keys -> ~ In key (map fst field_patterns).
Proof.
  unfold file_keys. simpl.
  intros [<-|[<-|[<-|[]]]] H;
    repeat (destruct H as [H|H]; [discriminate H|]); exact H.
Qed.

Lemma file_match_spec (field_label lower : string)
    (table : list (string * list string)) (m : FieldMatch) :
  file_match field_label lower table = Some m ->
  In (data_key m) (map fst table) /\ confidence m = 0.8%float.
Proof.
  induction table as [|[file_type keywords] table IH]; simpl; [discriminate|].
  destruct (existsb _ keywords).
  - intros [= <-]. simpl. auto.
  - intros [H1 H2]%IH. auto.
Qed.

Lemma lookup_patterns_file_key (key : string) :
  In key file_keys -> lookup_patterns key = None.
Proof.
  unfold file_keys. simpl. intros [<-|[<-|[<-|[]]]]; reflexivity.
Qed.

(** C10. Whatever the label, [validate_field_mapping] answers [False]
    for the keys [resume], [cover_letter] and [transcript], which the
    pattern table does not list; yet the pattern matcher emits each of
    these keys, and it emits them only for file-upload fields, from the
    keyword branch and with confidence 0.8, so that every such match is
    one its own validation rejects. *)
Theorem validate_rejects_file_keys :
  (forall field_label key,
      In key file_keys -> validate_field_mapping field_label key = false)
  /\ (forall field_label field_type m,
        _pattern_field_matching field_label field_type = Some m ->
        In (data_key m) file_keys ->
        field_type = "file" /\ confidence m = 0.8%float
        /\ validate_field_mapping field_label (data_key m) = false)
  /\ (forall field_label m,
        Py.truthy field_label = true ->
        file_match field_label (Py.lower field_label) file_keywords = Some m ->
        _pattern_field_matching field_label "file" = Some m
        /\ In (data_key m) file_keys /\ confidence m = 0.8%float)
  /\ (data_key <$> _pattern_field_matching "Upload Resume" "file") = Some "resume"
  /\ (data_key <$> _pattern_field_matching "Cover Letter" "file") = Some "cover_letter"
  /\ (data_key <$> _pattern_field_matching "Academic Transcript" "file")
       = Some "transcript".
Proof.
  assert (Hval : forall field_label key,
             In key file_keys -> validate_field_mapping field_label key = false).
  { intros field_label key Hk. unfold validate_field_mapping.
    rewrite (lookup_patterns_file_key key Hk). now destruct (_ || _). }
  split; [exact Hval|]. split; [|split].
  - intros field_label field_type m Hm Hk.
    unfold _pattern_field_matching in Hm. cbv zeta in Hm.
    destruct (negb (Py.truthy field_label)); [discriminate|].
    destruct (String.eqb_spec field_type "file") as [->|Hne].
    + destruct (file_match field_label (Py.lower field_label) file_keywords)
        as [m'|] eqn:Ef.
      * injection Hm as ->. apply file_match_spec in Ef as [_ Hc]. auto.
      * apply best_pattern_match_key in Hm.
        now destruct (file_keys_not_in_table _ Hk).
    + apply best_pattern_match_key in Hm.
      now destruct (file_keys_not_in_table _ Hk).
  - intros field_label m Ht Hf. unfold _pattern_field_matching. cbv zeta.
    rewrite Ht, Hf. cbn [negb String.eqb]. split; [reflexivity|].
    now apply file_match_spec in Hf.
  - repeat split; vm_compute; reflexivity.
Qed.

End Validation.

(** ** More on the pattern matcher *)

Module PatternFacts.

Import FieldMatcher MatchSpec PatternSpec.

(** *** Literal words in a pattern *)

Lemma match_here_literal (w : string) (k : list Re.item) (prev : option ascii) (s : string) :
  Re.match_here (literal w ++ k)%list prev s = true -> String.prefix w s = true.
Proof.
  revert prev s. induction w as [|c w IH]; intros prev s; [now destruct s|].
  cbn [literal app Re.match_here]. destruct s as [|d t]; [discriminate|].
  intros [Hc Hk]%andb_true_iff. cbn [Re.atom_matches] in Hc.
  apply Ascii.eqb_eq in Hc as ->. cbn [String.prefix].
  destruct (ascii_dec c c) as [_|Hne]; [eauto | contradiction].
Qed.

Lemma search_from_bounded_literal (w : string) (k : list Re.item)
    (prev : option ascii) (s : string) :
  Re.search_from (Re.Boundary :: literal w ++ k)%list prev s = true ->
  Py.contains w s = true.
Proof.
  revert prev. induction s as [|c r IH]; intros prev.
  - cbn [Re.search_from Re.match_here]. rewrite orb_false_r.
    intros [_ H]%andb_true_iff. apply match_here_literal in H.
    cbn [Py.contains]. now rewrite H.
  - cbn [Re.search_from]. intros [H|H]%orb_true_iff.
    + cbn [Re.match_here] in H. apply andb_true_iff in H as [_ H].
      apply match_here_literal in H. cbn [Py.contains]. now rewrite H.
    + apply IH in H. cbn [Py.contains]. rewrite H. apply orb_true_r.
Qed.

(** A generic pattern is found only in a label that holds its word. *)
Lemma generic_pattern_verbatim (pattern field_label : string) :
  existsb (String.eqb pattern) generic_patterns = true ->
  Re.search pattern field_label = true ->
  Py.contains (pattern_clean pattern) field_label = true.
Proof.
  unfold generic_patterns. cbn [existsb]. rewrite !orb_true_iff, !String.eqb_eq.
  intros [->|[->|H]]; [| |discriminate H]; unfold Re.search.
  - change (Re.compile "\bname\b")
      with (Some (Re.Boundary :: literal "name" ++ [Re.Boundary])%list).
    apply search_from_bounded_literal.
  - change (Re.compile "\baddress\b")
      with (Some (Re.Boundary :: literal "address" ++ [Re.Boundary])%list).
    apply search_from_bounded_literal.
Qed.

(** The score of a pattern that is found in the label. *)
Lemma matched_confidence_bounds (pattern field_label : string) :
  Re.search pattern field_label = true ->
  PrimFloat.leb 0.6 (_calculate_pattern_confidence pattern field_label) = true
  /\ PrimFloat.leb (_calculate_pattern_confidence pattern field_label) 1 = true.
Proof.
  intros Hs. unfold _calculate_pattern_confidence. cbv zeta.
  destruct (existsb (String.eqb pattern) generic_patterns) eqn:Eg.
  - rewrite (generic_pattern_verbatim _ _ Eg Hs).
    destruct (_ <? 10)%nat; split; vm_compute; reflexivity.
  - destruct (Py.contains _ _), (_ <? 10)%nat; split; vm_compute; reflexivity.
Qed.

(** *** Where a match of the generic path comes from *)

Lemma try_pattern_inv (field_label key : string) (best : option FieldMatch)
    (pattern : string) (m : FieldMatch) :
  try_pattern field_label (Py.lower field_label) key best pattern = Some m ->
  best = Some m
  \/ (Re.search pattern (Py.lower field_label) = true
      /\ m = pattern_match field_label key pattern).
Proof.
  unfold try_pattern. destruct (Re.search pattern (Py.lower field_label)); [|auto].
  destruct (PrimFloat.ltb _ _); [|auto]. intros [= <-]. now right.
Qed.

Lemma fold_try_pattern_inv (field_label key : string) (patterns : list string)
    (best : option FieldMatch) (m : FieldMatch) :
  fold_left (try_pattern field_label (Py.lower field_label) key) patterns best = Some m ->
  best = Some m
  \/ exists pattern, In pattern patterns
       /\ Re.search pattern (Py.lower field_label) = true
       /\ m = pattern_match field_label key pattern.
Proof.
  revert best. induction patterns as [|p ps IH]; intros best; cbn [fold_left]; [auto|].
  intros [H|(p' & Hin & H)]%IH.
  - apply try_pattern_inv in H as [H|H]; [auto|]. right. exists p. simpl. tauto.
  - right. exists p'. simpl. tauto.
Qed.

Lemma fold_table_inv (field_label : string) (table : list (string * list string))
    (best : option FieldMatch) (m : FieldMatch) :
  fold_left
    (fun best '(data_key, patterns) =>
       fold_left (try_pattern field_label (Py.lower field_label) data_key) patterns best)
    table best = Some m ->
  best = Some m
  \/ exists key patterns pattern,
       In (key, patterns) table /\ In pattern patterns
       /\ Re.search pattern (Py.lower field_label) = true
       /\ m = pattern_match field_label key pattern.
Proof.
  revert best. induction table as [|[key ps] table IH]; intros best; cbn [fold_left]; [auto|].
  intros [H|(key' & ps' & p & Hin & H)]%IH.
  - apply fold_try_pattern_inv in H as [H|(p & Hin & H)]; [auto|].
    right. exists key, ps, p. simpl. tauto.
  - right. exists key', ps', p. simpl. tauto.
Qed.

Lemma best_pattern_match_inv (field_label : string) (m : FieldMatch) :
  best_pattern_match field_label (Py.lower field_label) = Some m ->
  from_table field_label m.
Proof.
  intros [H|H]%fold_table_inv; [discriminate | exact H].
Qed.

Lemma file_match_inv (field_label lower : string)
    (table : list (string * list string)) (m : FieldMatch) :
  file_match field_label lower table = Some m ->
  field_name m = field_label
  /\ In (data_key m) (map fst table)
  /\ confidence m = 0.8%float.
Proof.
  induction table as [|[file_type keywords] table IH]; cbn [file_match]; [discriminate|].
  destruct (existsb _ keywords).
  - intros [= <-]. simpl. auto.
  - intros (H1 & H2 & H3)%IH. simpl. auto.
Qed.

(** Every answer of the pattern matcher, sorted by the path it took. *)
Lemma pattern_field_matching_inv (field_label field_type : string) (m : FieldMatch) :
  _pattern_field_matching field_label field_type = Some m ->
  Py.truthy field_label = true
  /\ (from_table field_label m
      \/ (field_type = "file"
          /\ file_match field_label (Py.lower field_label) file_keywords = Some m)).
Proof.
  unfold _pattern_field_matching. cbv zeta.
  destruct (Py.truthy field_label); cbn [negb]; [|discriminate].
  intros H. split; [reflexivity|].
  destruct (String.eqb_spec field_type "file") as [->|_].
  - destruct (file_match field_label (Py.lower field_label) file_keywords) as [m'|] eqn:Ef.
    + injection H as ->. now right.
    + left. now apply best_pattern_match_inv.
  - left. now apply best_pattern_match_inv.
Qed.

End PatternFacts.

Module PatternExtras.

Import FieldMatcher MatchSpec PatternSpec PatternFacts.

Lemma email_match_computed :
  _pattern_field_matching "Email Address" "input" = Some Sample.email_match.
Proof. vm_compute. reflexivity. Qed.

(** X1. Whatever the pattern matcher answers carries the label it was
    asked about, unchanged, as its field name; the label is not empty;
    the key is one of the pattern table or one of the three file keys,
    and a file key is only ever given to a field of type [file]. *)
Theorem pattern_matcher_closed_vocabulary
    (field_label field_type : string) (m : FieldMatch) :
  _pattern_field_matching field_label field_type = Some m ->
  field_name m = field_label
  /\ field_label <> ""
  /\ In (data_key m) vocabulary
  /\ (In (data_key m) (map fst file_keywords) -> field_type = "file").
Proof.
  intros (Ht & [Hm|[-> Hm]])%pattern_field_matching_inv.
  - destruct Hm as (key & patterns & pattern & Hin & _ & _ & ->).
    unfold pattern_match. cbn [field_name data_key].
    split; [reflexivity|]. split; [now destruct field_label|].
    assert (Hk : In key (map fst field_patterns)).
    { change key with (fst (key, patterns)). now apply in_map. }
    split; [unfold vocabulary; apply in_app_iff; now left|].
    intros Hf. exfalso. revert Hk. apply Validation.file_keys_not_in_table. exact Hf.
  - apply file_match_inv in Hm as (Hn & Hk & _).
    split; [exact Hn|]. split; [now destruct field_label|].
    split; [unfold vocabulary; apply in_app_iff; now right | reflexivity].
Qed.

Lemma pattern_matcher_closed_vocabulary_witness :
  "Email Address" = "Email Address"
  /\ "Email Address" <> ""
  /\ In "email" vocabulary
  /\ (In "email" (map fst file_keywords) -> "input" = "file").
Proof.
  apply (pattern_matcher_closed_vocabulary "Email Address" "input" Sample.email_match).
  vm_compute. reflexivity.
Defined.

(** X2. A match returned by the pattern matcher never has a confidence
    below 0.6 or above 1: a generic pattern, the only kind that loses
    0.2, is found only in labels that hold its word, which earns 0.3. *)
Theorem pattern_match_confidence_range
    (field_label field_type : string) (m : FieldMatch) :
  _pattern_field_matching field_label field_type = Some m ->
  PrimFloat.leb 0.6 (confidence m) = true
  /\ PrimFloat.leb (confidence m) 1 = true.
Proof.
  intros (_ & [Hm|[_ Hm]])%pattern_field_matching_inv.
  - destruct Hm as (key & patterns & pattern & _ & _ & Hs & ->).
    now apply matched_confidence_bounds.
  - apply file_match_inv in Hm as (_ & _ & ->). split; vm_compute; reflexivity.
Qed.

Lemma pattern_match_confidence_range_witness :
  PrimFloat.leb 0.6 0.9999999999999999 = true
  /\ PrimFloat.leb 0.9999999999999999 1 = true.
Proof.
  apply (pattern_match_confidence_range "Email Address" "input" Sample.email_match).
  vm_compute. reflexivity.
Defined.

Lemma table_entry (key : string) (patterns : list string) :
  In (key, patterns) field_patterns ->
  Py.truthy key = true /\ lookup_patterns key = Some patterns.
Proof.
  unfold field_patterns. cbn [In].
  intros H. repeat (destruct H as [H|H]; [injection H as <- <-; split; reflexivity|]).
  contradiction.
Qed.

(** X3. What the generic path of the pattern matcher proposes, the
    validator accepts: if the matcher answers with a key that is not a
    file key, [validate_field_mapping] holds of the label and that key. *)
Theorem validate_accepts_pattern_matches
    (field_label field_type : string) (m : FieldMatch) :
  _pattern_field_matching field_label field_type = Some m ->
  ~ In (data_key m) file_keys ->
  validate_field_mapping field_label (data_key m) = true.
Proof.
  intros (Ht & [Hm|[_ Hm]])%pattern_field_matching_inv Hnf.
  - destruct Hm as (key & patterns & pattern & Hin & Hp & Hs & ->).
    unfold pattern_match. cbn [data_key].
    destruct (table_entry _ _ Hin) as [Hk Hl].
    unfold validate_field_mapping. rewrite Ht, Hk, Hl. cbn [negb orb].
    apply existsb_exists. exists pattern. split; [exact Hp | exact Hs].
  - apply file_match_inv in Hm as (_ & Hk & _). now destruct Hnf.
Qed.

Lemma validate_accepts_pattern_matches_witness :
  validate_field_mapping "Email Address" "email" = true.
Proof.
  apply (validate_accepts_pattern_matches "Email Address" "input" Sample.email_match).
  - vm_compute. reflexivity.
  - cbn. intros [H|[H|[H|[]]]]; discriminate H.
Defined.

End PatternExtras.

(** ** The best match *)

Module BestMatch.

Import FieldMatcher MatchSpec PatternSpec PatternFacts.

Lemma confidence_is_score (pattern field_label : string) :
  is_score (_calculate_pattern_confidence pattern field_label).
Proof. unfold is_score, _calculate_pattern_confidence, score. eauto. Qed.

(** The few values a score can take are compared case by case. *)
Ltac by_cases :=
  unfold known, is_score in *;
  repeat match goal with
         | H : _ \/ _ |- _ => destruct H
         | H : exists _, _ |- _ => destruct H
         end;
  subst;
  repeat match goal with
         | b : bool |- _ => destruct b
         end;
  vm_compute; try reflexivity; try (intros; congruence).

Lemma score_refl (c : float) : is_score c -> PrimFloat.leb c c = true.
Proof. intros H. by_cases. Qed.

Lemma score_above_zero (c : float) : is_score c -> PrimFloat.ltb 0.0 c = true.
Proof. intros H. by_cases. Qed.

Lemma score_step (q x c : float) :
  is_score q -> known x -> is_score c ->
  PrimFloat.leb q x = true -> PrimFloat.ltb x c = true -> PrimFloat.leb q c = true.
Proof. intros Hq Hx Hc. by_cases. Qed.

Lemma score_total (x c : float) :
  known x -> is_score c ->
  PrimFloat.ltb x c = false -> PrimFloat.leb c x = true.
Proof. intros Hx Hc. by_cases. Qed.

Lemma known_best_confidence_some (best : option FieldMatch) :
  known (best_confidence best) -> best_confidence best <> 0.0%float -> best <> None.
Proof. intros _ H ->. now apply H. Qed.

(** One pattern tried: the best confidence stays a known value, does not
    fall, and is at least the score of the pattern if it is found. *)
Lemma try_pattern_step (field_label lower key : string)
    (best : option FieldMatch) (pattern : string) :
  known (best_confidence best) ->
  let best' := try_pattern field_label lower key best pattern in
  known (best_confidence best')
  /\ (forall q, is_score q -> PrimFloat.leb q (best_confidence best) = true ->
                PrimFloat.leb q (best_confidence best') = true)
  /\ (Re.search pattern lower = true ->
      PrimFloat.leb (_calculate_pattern_confidence pattern lower)
                    (best_confidence best') = true).
Proof.
  intros Hk. unfold try_pattern.
  pose proof (confidence_is_score pattern lower) as Hc.
  destruct (Re.search pattern lower).
  - destruct (PrimFloat.ltb _ _) eqn:E; cbn [best_confidence confidence].
    + split; [now right|]. split; [|intros _; now apply score_refl].
      intros q Hq Hle. eapply score_step; eassumption.
    + split; [exact Hk|]. split; [auto|]. intros _. now apply score_total.
  - split; [exact Hk|]. split; [auto | discriminate].
Qed.

Lemma fold_try_pattern_step (field_label lower key : string)
    (patterns : list string) (best : option FieldMatch) :
  known (best_confidence best) ->
  let best' := fold_left (try_pattern field_label lower key) patterns best in
  known (best_confidence best')
  /\ (forall q, is_score q -> PrimFloat.leb q (best_confidence best) = true ->
                PrimFloat.leb q (best_confidence best') = true)
  /\ (forall pattern, In pattern patterns -> Re.search pattern lower = true ->
      PrimFloat.leb (_calculate_pattern_confidence pattern lower)
                    (best_confidence best') = true).
Proof.
  revert best. induction patterns as [|p ps IH]; intros best Hk; cbn [fold_left].
  - split; [exact Hk|]. split; [auto|]. intros pattern [].
  - destruct (try_pattern_step field_label lower key best p Hk) as (Hk1 & Hmono1 & Hp).
    destruct (IH _ Hk1) as (Hk2 & Hmono2 & Hps).
    split; [exact Hk2|]. split; [auto|].
    intros pattern [<-|Hin] Hs; [|now apply Hps].
    apply Hmono2; [apply confidence_is_score | now apply Hp].
Qed.

Lemma fold_table_step (field_label lower : string)
    (table : list (string * list string)) (best : option FieldMatch) :
  known (best_confidence best) ->
  let best' :=
    fold_left
      (fun best '(data_key, patterns) =>
         fold_left (try_pattern field_label lower data_key) patterns best)
      table best in
  known (best_confidence best')
  /\ (forall q, is_score q -> PrimFloat.leb q (best_confidence best) = true ->
                PrimFloat.leb q (best_confidence best') = true)
  /\ (forall key patterns pattern,
        In (key, patterns) table -> In pattern patterns ->
        Re.search pattern lower = true ->
        PrimFloat.leb (_calculate_pattern_confidence pattern lower)
                      (best_confidence best') = true).
Proof.
  revert best. induction table as [|[key ps] table IH]; intros best Hk; cbn [fold_left].
  - split; [exact Hk|]. split; [auto|]. intros key patterns pattern [].
  - destruct (fold_try_pattern_step field_label lower key ps best Hk) as (Hk1 & Hmono1 & Hp).
    destruct (IH _ Hk1) as (Hk2 & Hmono2 & Hps).
    split; [exact Hk2|]. split; [auto|].
    intros key' patterns pattern [[= <- <-]|Hin] Hpin Hs; [|eapply Hps; eassumption].
    apply Hmono2; [apply confidence_is_score | now apply Hp].
Qed.

(** X4. For a non-empty label and a field that is not a file upload: as
    soon as one pattern of the table is found in the lower-cased label,
    the pattern matcher answers, and the confidence of its answer is at
    least the score of every pattern that is found. *)
Theorem pattern_matcher_picks_best
    (field_label field_type key : string) (patterns : list string) (pattern : string) :
  Py.truthy field_label = true ->
  field_type <> "file" ->
  In (key, patterns) field_patterns ->
  In pattern patterns ->
  Re.search pattern (Py.lower field_label) = true ->
  exists m,
    _pattern_field_matching field_label field_type = Some m
    /\ PrimFloat.leb (_calculate_pattern_confidence pattern (Py.lower field_label))
                     (confidence m) = true.
Proof.
  intros Ht Hkind%String.eqb_neq Hin Hp Hs.
  unfold _pattern_field_matching. cbv zeta. rewrite Ht, Hkind. cbn [negb].
  destruct (fold_table_step field_label (Py.lower field_label) field_patterns None)
    as (_ & _ & Hbest); [now left|].
  specialize (Hbest key patterns pattern Hin Hp Hs).
  fold (best_pattern_match field_label (Py.lower field_label)) in Hbest.
  destruct (best_pattern_match field_label (Py.lower field_label)) as [m|].
  - exists m. split; [reflexivity | exact Hbest].
  - exfalso. cbn [best_confidence] in Hbest.
    pose proof (confidence_is_score pattern (Py.lower field_label)) as Hc.
    revert Hbest. generalize dependent (_calculate_pattern_confidence pattern (Py.lower field_label)).
    intros c Hc. by_cases.
Qed.

Lemma pattern_matcher_picks_best_witness :
  exists m,
    _pattern_field_matching "Email Address" "input" = Some m
    /\ PrimFloat.leb (_calculate_pattern_confidence "\bemail\s*address\b"
                        (Py.lower "Email Address"))
                     (confidence m) = true.
Proof.
  apply (pattern_matcher_picks_best "Email Address" "input" "email"
           ["\bemail\b"; "\be-mail\b"; "\bemail\s*address\b";
            "\bcontact\s*email\b"; "\bmail\b"]).
  - reflexivity.
  - discriminate.
  - vm_compute. tauto.
  - vm_compute. tauto.
  - vm_compute. reflexivity.
Defined.

End BestMatch.

(** ** Letter case *)

Module LetterCase.

Import FieldMatcher MatchSpec PatternSpec.

Lemma truthy_lower (s : string) : Py.truthy (Py.lower s) = Py.truthy s.
Proof. now destruct s. Qed.

Lemma try_pattern_renamed (l1 l2 lower key : string)
    (best : option FieldMatch) (pattern : string) :
  try_pattern l1 lower key (renamed l1 <$> best) pattern
    = renamed l1 <$> try_pattern l2 lower key best pattern.
Proof.
  unfold try_pattern.
  replace (best_confidence (renamed l1 <$> best)) with (best_confidence best)
    by now destruct best.
  destruct (Re.search pattern lower); [|reflexivity].
  now destruct (PrimFloat.ltb _ _).
Qed.

Lemma fold_try_pattern_renamed (l1 l2 lower key : string)
    (patterns : list string) (best : option FieldMatch) :
  fold_left (try_pattern l1 lower key) patterns (renamed l1 <$> best)
    = renamed l1 <$> fold_left (try_pattern l2 lower key) patterns best.
Proof.
  revert best. induction patterns as [|p ps IH]; intros best; cbn [fold_left]; [reflexivity|].
  now rewrite (try_pattern_renamed l1 l2), IH.
Qed.

Lemma fold_table_renamed (l1 l2 lower : string)
    (table : list (string * list string)) (best : option FieldMatch) :
  fold_left
    (fun best '(data_key, patterns) =>
       fold_left (try_pattern l1 lower data_key) patterns best)
    table (renamed l1 <$> best)
  = renamed l1 <$>
      fold_left
        (fun best '(data_key, patterns) =>
           fold_left (try_pattern l2 lower data_key) patterns best)
        table best.
Proof.
  revert best. induction table as [|[key ps] table IH]; intros best; cbn [fold_left];
    [reflexivity|].
  now rewrite (fold_try_pattern_renamed l1 l2), IH.
Qed.

Lemma file_match_renamed (l1 l2 lower : string) (table : list (string * list string)) :
  file_match l1 lower table = renamed l1 <$> file_match l2 lower table.
Proof.
  induction table as [|[file_type keywords] table IH]; cbn [file_match]; [reflexivity|].
  now destruct (existsb _ keywords).
Qed.

(** X5. The pattern matcher reads a label only through its lower-cased
    form: two labels that differ in letter case alone get the same
    answer, up to the field name, which is the label as it was given. *)
Theorem pattern_matcher_ignores_case (l1 l2 field_type : string) :
  Py.lower l1 = Py.lower l2 ->
  _pattern_field_matching l1 field_type
    = renamed l1 <$> _pattern_field_matching l2 field_type.
Proof.
  intros Hl. unfold _pattern_field_matching. cbv zeta.
  rewrite <- (truthy_lower l1), <- (truthy_lower l2), Hl.
  destruct (negb (Py.truthy (Py.lower l2))); [reflexivity|].
  assert (Hb : best_pattern_match l1 (Py.lower l2)
               = renamed l1 <$> best_pattern_match l2 (Py.lower l2)).
  { unfold best_pattern_match. apply (fold_table_renamed l1 l2 _ _ None). }
  rewrite Hb, (file_match_renamed l1 l2).
  destruct (String.eqb field_type "file"); [|reflexivity].
  now destruct (file_match l2 (Py.lower l2) file_keywords).
Qed.

Lemma pattern_matcher_ignores_case_witness :
  _pattern_field_matching "E-Mail" "input"
    = renamed "E-Mail" <$> _pattern_field_matching "e-mail" "input".
Proof.
  apply (pattern_matcher_ignores_case "E-Mail" "e-mail" "input"). reflexivity.
Defined.

End LetterCase.

(** ** Matching a list of fields *)

Module MatchFields.

Import ScreenAnalyzer FieldMatcher MatchSpec PatternSpec PatternFacts.

Lemma pattern_match_name (field_label field_type : string) (m : FieldMatch) :
  _pattern_field_matching field_label field_type = Some m ->
  field_name m = field_label /\ field_label <> "".
Proof.
  intros (Ht & [Hm|[_ Hm]])%pattern_field_matching_inv;
    (split; [|now destruct field_label]).
  - now destruct Hm as (key & patterns & pattern & _ & _ & _ & ->).
  - now apply file_match_inv in Hm as (Hn & _ & _).
Qed.

Lemma parse_response_name (field_label text : string) (m : FieldMatch) :
  parse_response field_label text = Some m -> field_name m = field_label.
Proof.
  unfold parse_response. destruct (_ && _); [|discriminate].
  destruct (PyFloat.float _); [|discriminate]. now intros [= <-].
Qed.

Lemma ai_match_name (client : Anthropic) (n : nat)
    (field_label field_type : string) (m : FieldMatch) :
  _ai_field_matching client n field_label field_type = Some m ->
  field_name m = field_label.
Proof.
  unfold _ai_field_matching. destruct (client n field_label field_type); [|discriminate].
  apply parse_response_name.
Qed.

Lemma pattern_of_field_labelled (field : FormField) (m : FieldMatch) :
  pattern_of_field field = Some m ->
  label field = Some (field_name m) /\ field_name m <> "".
Proof.
  unfold pattern_of_field. intros [Hn Hne]%pattern_match_name.
  destruct (label field) as [lbl|]; simpl in Hn, Hne; [|contradiction].
  subst lbl. auto.
Qed.

(** X6. Every match [match_fields] returns, by either matcher, is the
    match of a field of the list that has a non-empty label, and bears
    that label as its field name; fields without a label are never
    matched, so there are at most as many matches as fields. *)
Theorem match_fields_only_labelled
    (self : FieldMatcher) (detected_fields : list FormField) (use_ai : bool) :
  let matches := match_fields self detected_fields use_ai in
  (length matches <= length detected_fields)%nat
  /\ forall m, In m matches ->
       field_name m <> ""
       /\ exists field, In field detected_fields /\ label field = Some (field_name m).
Proof.
  unfold match_fields. generalize 0%nat.
  induction detected_fields as [|field rest IH]; intros n; cbn zeta.
  - cbn. split; [lia | contradiction].
  - assert (Hfallback : forall n',
      let tail :=
        match pattern_of_field field with
        | Some m => m :: match_fields_from self n' rest use_ai
        | None => match_fields_from self n' rest use_ai
        end in
      (length tail <= length (field :: rest))%nat
      /\ forall m, In m tail ->
           field_name m <> ""
           /\ exists f, In f (field :: rest) /\ label f = Some (field_name m)).
    { intros n'. destruct (IH n') as [Hlen Hin]. cbn zeta.
      destruct (pattern_of_field field) as [m0|] eqn:Ep.
      - split; [cbn [length]; lia|]. intros m [<-|Hm].
        + apply pattern_of_field_labelled in Ep as [Hl Hne]. split; [exact Hne|].
          exists field. split; [now left | exact Hl].
        + destruct (Hin m Hm) as (Hne & f & Hf & Hl). split; [exact Hne|].
          exists f. split; [now right | exact Hl].
      - split; [cbn [length]; lia|]. intros m Hm.
        destruct (Hin m Hm) as (Hne & f & Hf & Hl). split; [exact Hne|].
        exists f. split; [now right | exact Hl]. }
    cbn [match_fields_from]. fold (pattern_of_field field).
    destruct (anthropic self) as [client|]; [|apply Hfallback].
    destruct (label field) as [lbl|] eqn:El; [|apply Hfallback].
    destruct (use_ai && Py.truthy lbl) eqn:Eu; [|apply Hfallback].
    destruct (_ai_field_matching client n lbl (field_type field)) as [am|] eqn:Ea;
      [|apply Hfallback].
    destruct (IH (S n)) as [Hlen Hin]. split; [cbn [length]; lia|].
    intros m [<-|Hm].
    + apply ai_match_name in Ea. rewrite Ea.
      apply andb_true_iff in Eu as [_ Ht]. split; [now destruct lbl|].
      exists field. split; [now left | exact El].
    + destruct (Hin m Hm) as (Hne & f & Hf & Hl). split; [exact Hne|].
      exists f. split; [now right | exact Hl].
Qed.

Lemma match_fields_without_service
    (self : FieldMatcher) (detected_fields : list FormField) (use_ai : bool) :
  anthropic self = None ->
  match_fields self detected_fields use_ai = omap pattern_of_field detected_fields.
Proof.
  intros Hnone. unfold match_fields. generalize 0%nat.
  induction detected_fields as [|field rest IH]; intros n; [reflexivity|].
  change (omap pattern_of_field (field :: rest))
    with (match pattern_of_field field with
          | Some m => m :: omap pattern_of_field rest
          | None => omap pattern_of_field rest
          end).
  cbn [match_fields_from]. fold (pattern_of_field field).
  rewrite Hnone, (IH n). reflexivity.
Qed.

(** X7. Without a text-understanding service, with the assisted path
    switched off, or with a service none of whose answers can be used,
    [match_fields] is the pattern matcher run on each field in turn, the
    fields it has no answer for being left out. *)
Theorem match_fields_falls_back
    (self : FieldMatcher) (detected_fields : list FormField) (use_ai : bool) :
  (use_ai = false
   \/ anthropic self = None
   \/ exists client, anthropic self = Some client
        /\ forall n field_label field_type,
             _ai_field_matching client n field_label field_type = None) ->
  match_fields self detected_fields use_ai = omap pattern_of_field detected_fields.
Proof.
  intros Hoff. unfold match_fields. generalize 0%nat.
  induction detected_fields as [|field rest IH]; intros n; [reflexivity|].
  change (omap pattern_of_field (field :: rest))
    with (match pattern_of_field field with
          | Some m => m :: omap pattern_of_field rest
          | None => omap pattern_of_field rest
          end).
  cbn [match_fields_from]. fold (pattern_of_field field).
  assert (Hfallback : forall n',
    match pattern_of_field field with
    | Some m => m :: match_fields_from self n' rest use_ai
    | None => match_fields_from self n' rest use_ai
    end
    = match pattern_of_field field with
      | Some m => m :: omap pattern_of_field rest
      | None => omap pattern_of_field rest
      end).
  { intros n'. rewrite (IH n'). reflexivity. }
  destruct (anthropic self) as [client|] eqn:Ec; [|apply Hfallback].
  destruct (label field) as [lbl|]; [|apply Hfallback].
  destruct Hoff as [->|[Hnone|(client' & [= <-] & Hfail)]].
  - cbn [andb]. apply Hfallback.
  - discriminate Hnone.
  - rewrite Hfail. destruct (use_ai && Py.truthy lbl); apply Hfallback.
Qed.

Lemma match_fields_falls_back_witness :
  match_fields {| anthropic := Some (fun _ _ _ => None) |}
               [Sample.contact; Sample.low] true
    = omap pattern_of_field [Sample.contact; Sample.low].
Proof.
  apply (match_fields_falls_back {| anthropic := Some (fun _ _ _ => None) |}
           [Sample.contact; Sample.low] true).
  right. right. exists (fun _ _ _ => None). split; reflexivity.
Defined.

End MatchFields.

(** ** Splitting and stripping *)

Module SplitFacts.

Import PatternSpec.

Lemma append_empty (s : string) : "" ++ s = s.
Proof. reflexivity. Qed.

Lemma append_cons (c : ascii) (a b : string) : String c a ++ b = String c (a ++ b).
Proof. reflexivity. Qed.

Lemma split_length (sep : ascii) (s : string) :
  length (Py.split sep s) = S (count_char sep s).
Proof.
  induction s as [|c r IH]; [reflexivity|].
  cbn [Py.split count_char]. destruct (Ascii.eqb c sep).
  - cbn [length]. now rewrite IH.
  - destruct (Py.split sep r) as [|p ps]; [discriminate|]. cbn [length] in *. lia.
Qed.

Lemma split_no_separator (sep : ascii) (s : string) :
  count_char sep s = 0%nat -> Py.split sep s = [s].
Proof.
  induction s as [|c r IH]; [reflexivity|].
  cbn [Py.split count_char]. destruct (Ascii.eqb c sep); [discriminate|].
  intros H. now rewrite (IH H).
Qed.

Lemma split_at_separator (sep : ascii) (a b : string) :
  count_char sep a = 0%nat ->
  Py.split sep (a ++ String sep b) = a :: Py.split sep b.
Proof.
  induction a as [|c r IH]; rewrite ?append_empty, ?append_cons;
    cbn [Py.split count_char].
  - intros _. now rewrite Ascii.eqb_refl.
  - destruct (Ascii.eqb c sep); [discriminate|]. intros H. now rewrite (IH H).
Qed.

Lemma lstrip_by_count (drop : ascii -> bool) (c : ascii) (s : string) :
  count_char c s = 0%nat -> count_char c (Py.lstrip_by drop s) = 0%nat.
Proof.
  induction s as [|d r IH]; [reflexivity|]. cbn [Py.lstrip_by].
  destruct (drop d); [|auto]. cbn [count_char]. destruct (Ascii.eqb d c); [discriminate|].
  exact IH.
Qed.

Lemma rstrip_by_count (drop : ascii -> bool) (c : ascii) (s : string) :
  count_char c s = 0%nat -> count_char c (Py.rstrip_by drop s) = 0%nat.
Proof.
  induction s as [|d r IH]; [reflexivity|]. cbn [Py.rstrip_by count_char].
  destruct (Ascii.eqb d c) eqn:E; [discriminate|]. intros H. specialize (IH H).
  destruct (Py.rstrip_by drop r).
  - destruct (drop d); [reflexivity|]. cbn [count_char]. now rewrite E.
  - cbn [count_char] in *. now rewrite E.
Qed.

Lemma lstrip_by_append (drop : ascii -> bool) (a : string) (c : ascii) (b : string) :
  drop c = false ->
  Py.lstrip_by drop (a ++ String c b) = Py.lstrip_by drop a ++ String c b.
Proof.
  intros Hc. induction a as [|d r IH]; rewrite ?append_empty, ?append_cons;
    cbn [Py.lstrip_by].
  - now rewrite Hc.
  - now destruct (drop d).
Qed.

Lemma rstrip_by_kept (drop : ascii -> bool) (c : ascii) (b : string) :
  drop c = false ->
  Py.rstrip_by drop (String c b) = String c (Py.rstrip_by drop b).
Proof.
  intros Hc. cbn [Py.rstrip_by]. destruct (Py.rstrip_by drop b); [now rewrite Hc | reflexivity].
Qed.

Lemma rstrip_by_append (drop : ascii -> bool) (a : string) (c : ascii) (b : string) :
  drop c = false ->
  Py.rstrip_by drop (a ++ String c b) = a ++ String c (Py.rstrip_by drop b).
Proof.
  intros Hc. induction a as [|d r IH]; rewrite ?append_empty, ?append_cons.
  - now apply rstrip_by_kept.
  - cbn [Py.rstrip_by]. rewrite IH. destruct r; now rewrite ?append_empty, ?append_cons.
Qed.

Lemma lstrip_by_idem (drop : ascii -> bool) (s : string) :
  Py.lstrip_by drop (Py.lstrip_by drop s) = Py.lstrip_by drop s.
Proof.
  induction s as [|d r IH]; [reflexivity|]. cbn [Py.lstrip_by].
  destruct (drop d) eqn:E; [exact IH|]. cbn [Py.lstrip_by]. now rewrite E.
Qed.

Lemma rstrip_by_idem (drop : ascii -> bool) (s : string) :
  Py.rstrip_by drop (Py.rstrip_by drop s) = Py.rstrip_by drop s.
Proof.
  induction s as [|d r IH]; [reflexivity|]. cbn [Py.rstrip_by].
  destruct (Py.rstrip_by drop r) as [|e r'] eqn:E.
  - destruct (drop d) eqn:Ed; [reflexivity|]. cbn [Py.rstrip_by]. now rewrite Ed.
  - cbn [Py.rstrip_by] in *. now rewrite IH.
Qed.

Lemma strip_swap (drop : ascii -> bool) (s : string) :
  Py.lstrip_by drop (Py.rstrip_by drop s) = Py.rstrip_by drop (Py.lstrip_by drop s).
Proof.
  induction s as [|d r IH]; [reflexivity|].
  destruct (drop d) eqn:E.
  - cbn [Py.lstrip_by Py.rstrip_by]. rewrite E.
    destruct (Py.rstrip_by drop r) as [|e r'] eqn:Er.
    + cbn [Py.lstrip_by] in *. exact IH.
    + cbn [Py.lstrip_by]. rewrite E. exact IH.
  - rewrite (rstrip_by_kept drop d r E). cbn [Py.lstrip_by]. rewrite E.
    now rewrite (rstrip_by_kept drop d r E).
Qed.

Lemma strip_by_lstrip (drop : ascii -> bool) (s : string) :
  Py.strip_by drop (Py.lstrip_by drop s) = Py.strip_by drop s.
Proof. unfold Py.strip_by. now rewrite lstrip_by_idem. Qed.

Lemma strip_by_rstrip (drop : ascii -> bool) (s : string) :
  Py.strip_by drop (Py.rstrip_by drop s) = Py.strip_by drop s.
Proof. unfold Py.strip_by. now rewrite strip_swap, rstrip_by_idem. Qed.

End SplitFacts.

(** ** More on the answers of the service *)

Module AiExtras.

Import FieldMatcher MatchSpec PatternSpec SplitFacts.

(** X8. An answer of the service with fewer than two bars gives no
    match, whatever it says. *)
Theorem ai_answer_needs_two_bars
    (client : Anthropic) (n : nat) (field_label field_type text : string) :
  client n field_label field_type = Some text ->
  (count_char "|" (Py.strip text) < 2)%nat ->
  _ai_field_matching client n field_label field_type = None.
Proof.
  intros Hc Hn. unfold _ai_field_matching, parse_response. rewrite Hc. cbv zeta.
  rewrite split_length.
  destruct (Nat.leb_spec 3 (S (count_char "|" (Py.strip text)))); [lia | reflexivity].
Qed.

Lemma ai_answer_needs_two_bars_witness :
  _ai_field_matching (Sample.service "phone|0.92") 0 "Tel" "input" = None.
Proof.
  apply (ai_answer_needs_two_bars (Sample.service "phone|0.92") 0 "Tel" "input"
           "phone|0.92").
  - reflexivity.
  - vm_compute. lia.
Defined.

Lemma strip_answer (key conf reason : string) :
  Py.strip (key ++ String "|" (conf ++ String "|" reason))
    = Py.lstrip_by Py.isspace key
      ++ String "|" (conf ++ String "|" (Py.rstrip_by Py.isspace reason)).
Proof.
  unfold Py.strip, Py.strip_by.
  rewrite lstrip_by_append by reflexivity.
  rewrite rstrip_by_append by reflexivity.
  now rewrite rstrip_by_append by reflexivity.
Qed.

(** X9. An answer in the format the prompt asks for, [key|confidence|
    reasoning] with no further bar, whose key is not the word [unknown]
    and whose confidence is a floating-point literal, is taken apart into
    exactly these parts: the match has the label as field name, the key
    and the reasoning without the blanks around them, and the confidence
    as written, be it in or out of the unit interval; the key is not
    checked against the vocabulary. *)
Theorem ai_answer_round_trip
    (client : Anthropic) (n : nat) (field_label field_type : string)
    (key conf reason : string) (c : float) :
  client n field_label field_type = Some (key ++ "|" ++ conf ++ "|" ++ reason) ->
  count_char "|" key = 0%nat ->
  count_char "|" conf = 0%nat ->
  count_char "|" reason = 0%nat ->
  Py.lstrip_by Py.isspace key <> "unknown" ->
  PyFloat.float (Py.strip conf) = Some c ->
  _ai_field_matching client n field_label field_type
    = Some {| field_name := field_label;
              data_key := Py.strip key;
              confidence := c;
              reasoning := Py.strip reason |}.
Proof.
  intros Hc Hk Hcf Hr Hu Hf. unfold _ai_field_matching. rewrite Hc.
  unfold parse_response. cbv zeta.
  change (key ++ "|" ++ conf ++ "|" ++ reason)
    with (key ++ String "|" (conf ++ String "|" reason)).
  rewrite strip_answer.
  rewrite split_at_separator by now apply lstrip_by_count.
  rewrite split_at_separator by exact Hcf.
  rewrite split_no_separator by now apply rstrip_by_count.
  cbn [length nth Nat.leb andb].
  apply String.eqb_neq in Hu. rewrite Hu. cbn [negb]. rewrite Hf.
  f_equal. f_equal.
  - apply (strip_by_lstrip Py.isspace).
  - apply (strip_by_rstrip Py.isspace).
Qed.

Lemma ai_answer_round_trip_witness :
  _ai_field_matching (Sample.service " favourite_colour | 7 | a guess ") 0 "Tel" "input"
    = Some {| field_name := "Tel";
              data_key := "favourite_colour";
              confidence := 7%float;
              reasoning := "a guess" |}.
Proof.
  apply (ai_answer_round_trip (Sample.service " favourite_colour | 7 | a guess ")
           0 "Tel" "input" " favourite_colour " " 7 " " a guess " 7%float).
  - reflexivity.
  - reflexivity.
  - reflexivity.
  - reflexivity.
  - discriminate.
  - vm_compute. reflexivity.
Defined.

End AiExtras.

(** ** The suggested mappings of the pattern matcher *)

Module MappingsExtras.

Import ScreenAnalyzer FieldMatcher MatchSpec PatternSpec PatternFacts BestMatch.

Lemma score_confident (c : float) :
  is_score c -> PrimFloat.leb 0.6 c = true -> PrimFloat.ltb 0.5 c = true.
Proof. intros H. by_cases. Qed.

Lemma pattern_match_confident (field_label field_type : string) (m : FieldMatch) :
  _pattern_field_matching field_label field_type = Some m -> confident m = true.
Proof.
  intros (_ & [Hm|[_ Hm]])%pattern_field_matching_inv; unfold confident.
  - destruct Hm as (key & patterns & pattern & _ & _ & Hs & ->).
    unfold pattern_match. cbn [confidence].
    apply score_confident; [apply confidence_is_score|].
    now apply matched_confidence_bounds.
  - apply file_match_inv in Hm as (_ & _ & ->). vm_compute. reflexivity.
Qed.

Lemma pattern_match_in_vocabulary (field_label field_type : string) (m : FieldMatch) :
  _pattern_field_matching field_label field_type = Some m -> In (data_key m) vocabulary.
Proof.
  intros (_ & [Hm|[_ Hm]])%pattern_field_matching_inv; unfold vocabulary; apply in_app_iff.
  - destruct Hm as (key & patterns & pattern & Hin & _ & _ & ->). left.
    unfold pattern_match. cbn [data_key].
    change key with (fst (key, patterns)). now apply in_map.
  - apply file_match_inv in Hm as (_ & Hk & _). now right.
Qed.

Lemma fold_add_mapping_some (ms : list FieldMatch) (m : FieldMatch) :
  In m ms -> confident m = true ->
  is_Some (fold_left add_mapping ms ∅ !! field_name m).
Proof.
  induction ms as [|m' ms IH] using rev_ind; [contradiction|].
  intros [Hin|[<-|[]]]%in_app_iff Hc;
    rewrite Mappings.fold_add_mapping_snoc, Mappings.add_mapping_lookup.
  - destruct (confident m' && String.eqb (field_name m') (field_name m)); [eauto | auto].
  - rewrite Hc, String.eqb_refl. cbn [andb]. eauto.
Qed.

Lemma in_omap_pattern (fields : list FormField) (m : FieldMatch) :
  In m (omap pattern_of_field fields) <->
  exists field, In field fields /\ pattern_of_field field = Some m.
Proof.
  rewrite <- list_elem_of_In, list_elem_of_omap.
  split; intros (field & Hin & Hp); exists field; split; try exact Hp;
    now apply list_elem_of_In.
Qed.

(** X10. Without a text-understanding service every answer of the
    pattern matcher passes the 0.5 threshold: each field the pattern
    matcher has an answer for gets its label into the suggested mappings,
    and every entry maps the label of such a field to a key of the
    matcher's vocabulary. *)
Theorem suggested_mappings_of_patterns
    (self : FieldMatcher) (detected_fields : list FormField) :
  anthropic self = None ->
  let mappings := get_suggested_mappings self detected_fields in
  (forall field m,
      In field detected_fields -> pattern_of_field field = Some m ->
      label field = Some (field_name m) /\ is_Some (mappings !! field_name m))
  /\ (forall l k,
        mappings !! l = Some k ->
        In k vocabulary
        /\ exists field m,
             In field detected_fields /\ label field = Some l
             /\ pattern_of_field field = Some m /\ data_key m = k).
Proof.
  intros Hnone mappings. subst mappings. unfold get_suggested_mappings.
  rewrite (MatchFields.match_fields_without_service self detected_fields true Hnone).
  split.
  - intros field m Hin Hp. split; [now apply MatchFields.pattern_of_field_labelled|].
    apply fold_add_mapping_some.
    + apply in_omap_pattern. eauto.
    + unfold pattern_of_field in Hp. now apply pattern_match_confident in Hp.
  - intros l k (m & Hin & <- & <- & _)%Mappings.fold_add_mapping_sound.
    apply in_omap_pattern in Hin as (field & Hin & Hp).
    split; [unfold pattern_of_field in Hp; now apply pattern_match_in_vocabulary in Hp|].
    exists field, m. split; [exact Hin|]. split; [|auto].
    now apply MatchFields.pattern_of_field_labelled.
Qed.

Lemma suggested_mappings_of_patterns_witness :
  (label Sample.email_box = Some "Email Address"
   /\ is_Some (get_suggested_mappings Sample.pattern_only [Sample.email_box]
                 !! "Email Address"))
  /\ (In "email" vocabulary
      /\ exists field m,
           In field [Sample.email_box] /\ label field = Some "Email Address"
           /\ pattern_of_field field = Some m /\ data_key m = "email").
Proof.
  destruct (suggested_mappings_of_patterns Sample.pattern_only [Sample.email_box] eq_refl)
    as [Hentry Hsource].
  split.
  - apply (Hentry Sample.email_box Sample.email_match); [now left|].
    vm_compute. reflexivity.
  - apply (Hsource "Email Address" "email"). vm_compute. reflexivity.
Defined.

End MappingsExtras.

(** ** More on the deduplicator *)

Module DedupExtras.

Import ScreenAnalyzer DedupSpec GeometryFacts DedupFacts RegionSpec.

Lemma nearly_apart_sym (f g : FormField) : nearly_apart f g -> nearly_apart g f.
Proof. unfold nearly_apart. now rewrite (ratio_sym g f). Qed.

Lemma apart_sym (f g : FormField) : apart f g -> apart g f.
Proof. unfold apart. now rewrite (ratio_sym g f). Qed.

Lemma independent_split (kept pre post : list FormField) (f : FormField) :
  independent kept (pre ++ f :: post)%list ->
  is_duplicate f (kept ++ pre)%list = Return false.
Proof.
  revert kept. induction pre as [|p pre IH]; intros kept; cbn [app independent].
  - intros [H _]. now rewrite app_nil_r.
  - intros [_ H]. apply IH in H. now rewrite <- app_assoc in H.
Qed.

(** Two regions the loops have both kept. *)
Lemma independent_pair (pre mid post : list FormField) (g f : FormField) :
  independent [] (pre ++ g :: mid ++ f :: post)%list ->
  nearly_apart f g /\ nearly_apart g f
  /\ (small_box f \/ small_box g -> apart f g /\ apart g f).
Proof.
  intros Hind.
  replace (pre ++ g :: mid ++ f :: post)%list
    with ((pre ++ g :: mid) ++ f :: post)%list in Hind
    by now rewrite <- app_assoc.
  apply independent_split, is_duplicate_false in Hind. cbn [app] in Hind.
  rewrite Forall_forall in Hind.
  destruct (Hind g) as [_ Hfg].
  { apply list_elem_of_In, in_app_iff. right. now left. }
  split; [exact Hfg|]. split; [now apply nearly_apart_sym|].
  intros Hsmall. assert (Hap : apart f g) by now apply nearly_apart_small.
  split; [exact Hap | now apply apart_sym].
Qed.

(** What a run of the two loops returns. *)
Lemma deduplicate_post (l kept : list FormField) :
  deduplicate l = Return kept ->
  sublist kept (sort_by_confidence l)
  /\ StronglySorted ge_conf kept
  /\ independent [] kept.
Proof.
  unfold deduplicate. destruct l as [|f0 l0] eqn:El.
  - intros [= <-]. repeat split; constructor.
  - rewrite <- El. intros Es. apply suppress_inv in Es as (more & -> & Hsub & Hind).
    cbn [app]. split; [exact Hsub|]. split; [|exact Hind].
    eapply sorted_sublist; [exact Hsub | apply sort_sorted].
Qed.

Lemma deduplicate_raises_only (l : list FormField) (e : exn) :
  deduplicate l = Raise e -> e = ZeroDivisionError.
Proof.
  unfold deduplicate. destruct l; [discriminate | apply suppress_raises_only].
Qed.

Lemma remove_duplicates_returns (fields out : ref) (sigma sigma' : store)
    (l : list FormField) :
  sigma !! fields = Some l ->
  _remove_duplicates fields sigma = (Return out, sigma') ->
  exists kept, sigma' !! out = Some kept /\ deduplicate l = Return kept.
Proof.
  intros Hs Hcall. pose proof (Deduplicator.remove_duplicates_deduplicate _ _ _ Hs) as H.
  destruct (deduplicate l) as [kept|e].
  - destruct H as (out0 & sigma0 & Hc & Hk). rewrite Hcall in Hc.
    injection Hc as <- <-. eauto.
  - destruct H as (sigma0 & Hc). rewrite Hcall in Hc. discriminate.
Qed.

(** X11. Whenever the deduplicator returns, the list it returns holds
    regions of its argument only, in the order the stable sort by
    falling confidence gives them, and any two of them overlap by no
    more than the float division takes for a half: by at most half of
    the smaller of their areas, plus [2 ^ -54], and by at most half of it
    when one of the two areas is below [2 ^ 53]. *)
Theorem remove_duplicates_output_separated
    (fields out : ref) (sigma sigma' : store) (l : list FormField) :
  sigma !! fields = Some l ->
  _remove_duplicates fields sigma = (Return out, sigma') ->
  exists kept sorted,
    sigma' !! out = Some kept
    /\ stable_sort_desc l sorted
    /\ sublist kept sorted
    /\ StronglySorted ge_conf kept
    /\ forall pre g mid f post,
         kept = (pre ++ g :: mid ++ f :: post)%list ->
         nearly_apart f g /\ nearly_apart g f
         /\ (small_box f \/ small_box g -> apart f g /\ apart g f).
Proof.
  intros Hs Hcall.
  destruct (remove_duplicates_returns _ _ _ _ _ Hs Hcall) as (kept & Hk & Hd).
  apply deduplicate_post in Hd as (Hsub & Hsorted & Hind).
  exists kept, (sort_by_confidence l). split; [exact Hk|].
  split; [apply sort_stable|]. split; [exact Hsub|]. split; [exact Hsorted|].
  intros pre g mid f post ->. exact (independent_pair _ _ _ _ _ Hind).
Qed.

Lemma remove_duplicates_output_separated_witness :
  exists kept sorted,
    Sample.three_list_after !! Sample.kept3_ref = Some kept
    /\ stable_sort_desc [Sample.low; Sample.high; Sample.apart] sorted
    /\ sublist kept sorted
    /\ StronglySorted ge_conf kept
    /\ forall pre g mid f post,
         kept = (pre ++ g :: mid ++ f :: post)%list ->
         nearly_apart f g /\ nearly_apart g f
         /\ (small_box f \/ small_box g -> apart f g /\ apart g f).
Proof.
  apply (remove_duplicates_output_separated 0%nat Sample.kept3_ref
           Sample.three_list Sample.three_list_after
           [Sample.low; Sample.high; Sample.apart]).
  - apply lookup_singleton_eq.
  - vm_compute. reflexivity.
Defined.

Lemma suppress_covers (fs acc res : list FormField) :
  StronglySorted ge_conf fs ->
  (forall g f, In g acc -> In f fs -> ge_conf g f) ->
  suppress fs acc = Return res ->
  forall f, In f fs ->
    In f res \/ exists g, In g res /\ ge_conf g f /\ shadowed_by f g.
Proof.
  revert acc. induction fs as [|f0 fs IH]; intros acc Hsorted Hacc Hs f Hf;
    [contradiction|].
  apply StronglySorted_inv in Hsorted as [Hsorted Hf0].
  cbn [suppress] in Hs.
  destruct (is_duplicate f0 acc) as [[|]|] eqn:Ed; [| |discriminate].
  - destruct Hf as [<-|Hf].
    + right. apply is_duplicate_true, Exists_exists in Ed as (g & Hg & Hsh).
      apply list_elem_of_In in Hg.
      exists g. split; [|split; [apply Hacc; [exact Hg | now left] | exact Hsh]].
      apply suppress_inv in Hs as (more & -> & _ & _). apply in_app_iff. now left.
    + eapply IH; try eassumption. intros g f' Hg Hf'. apply Hacc; [exact Hg | now right].
  - destruct Hf as [<-|Hf].
    + left. apply suppress_inv in Hs as (more & -> & _ & _).
      apply in_app_iff. left. apply in_app_iff. right. now left.
    + eapply IH; try eassumption.
      intros g f' [Hg|[<-|[]]]%in_app_iff Hf'.
      * apply Hacc; [exact Hg | now right].
      * rewrite Forall_forall in Hf0. apply Hf0. now apply list_elem_of_In.
Qed.

(** X12. Whenever the deduplicator returns, every region of its argument
    is either in the list returned or overlaps, by more than half of the
    smaller area, a region of that list whose confidence is at least its
    own. *)
Theorem remove_duplicates_covers
    (fields out : ref) (sigma sigma' : store) (l : list FormField) :
  sigma !! fields = Some l ->
  _remove_duplicates fields sigma = (Return out, sigma') ->
  exists kept,
    sigma' !! out = Some kept
    /\ forall f, In f l ->
         In f kept \/ exists g, In g kept /\ ge_conf g f /\ shadowed_by f g.
Proof.
  intros Hs Hcall.
  destruct (remove_duplicates_returns _ _ _ _ _ Hs Hcall) as (kept & Hk & Hd).
  exists kept. split; [exact Hk|]. intros f Hf.
  unfold deduplicate in Hd. destruct l as [|f0 l0] eqn:El; [contradiction|].
  rewrite <- El in *.
  eapply suppress_covers; [apply sort_sorted | | exact Hd |].
  - intros g f' [].
  - eapply Permutation_in; [apply sort_perm | exact Hf].
Qed.

Lemma remove_duplicates_covers_witness :
  exists kept,
    Sample.three_list_after !! Sample.kept3_ref = Some kept
    /\ forall f, In f [Sample.low; Sample.high; Sample.apart] ->
         In f kept \/ exists g, In g kept /\ ge_conf g f /\ shadowed_by f g.
Proof.
  apply (remove_duplicates_covers 0%nat Sample.kept3_ref
           Sample.three_list Sample.three_list_after
           [Sample.low; Sample.high; Sample.apart]).
  - apply lookup_singleton_eq.
  - vm_compute. reflexivity.
Defined.

(** X13. Called on a non-empty list, the deduplicator never returns an
    empty one: the first region it returns is a region of its argument
    of greatest confidence. *)
Theorem remove_duplicates_keeps_top
    (fields out : ref) (sigma sigma' : store) (l : list FormField) :
  sigma !! fields = Some l ->
  l <> [] ->
  _remove_duplicates fields sigma = (Return out, sigma') ->
  exists top rest,
    sigma' !! out = Some (top :: rest)
    /\ In top l
    /\ forall f, In f l -> (confidence f <= confidence top)%Q.
Proof.
  intros Hs Hne Hcall.
  destruct (remove_duplicates_returns _ _ _ _ _ Hs Hcall) as (kept & Hk & Hd).
  unfold deduplicate in Hd. destruct l as [|f0 l0] eqn:El; [contradiction|].
  rewrite <- El in *. rename Hd into Es.
  pose proof (sort_perm l) as Hperm. pose proof (sort_sorted l) as Hsorted.
  destruct (sort_by_confidence l) as [|top sorted].
  { apply Permutation_sym, Permutation_nil in Hperm. contradiction. }
  cbn [suppress is_duplicate app] in Es.
  apply suppress_inv in Es as (more & -> & _ & _).
  exists top, more. split; [exact Hk|]. split.
  - eapply Permutation_in; [symmetry; exact Hperm | now left].
  - intros f Hf. apply (Permutation_in _ Hperm) in Hf as [<-|Hf]; [apply Qle_refl|].
    apply StronglySorted_inv in Hsorted as [_ Htop].
    rewrite Forall_forall in Htop. apply Htop. now apply list_elem_of_In.
Qed.

Lemma remove_duplicates_keeps_top_witness :
  exists top rest,
    Sample.one_list_after !! Sample.kept_ref = Some (top :: rest)
    /\ In top [Sample.low; Sample.apart]
    /\ forall f, In f [Sample.low; Sample.apart] -> (confidence f <= confidence top)%Q.
Proof.
  apply (remove_duplicates_keeps_top 0%nat Sample.kept_ref
           Sample.one_list Sample.one_list_after [Sample.low; Sample.apart]).
  - apply lookup_singleton_eq.
  - discriminate.
  - vm_compute. reflexivity.
Defined.

Lemma area_proper (f : FormField) : proper_box f -> (0 <= area f)%Z.
Proof. intros [Hw Hh]. unfold area. nia. Qed.

Lemma proper_nonzero_positive (f : FormField) :
  proper_box f -> area f <> 0%Z -> positive_box f.
Proof. intros [Hw Hh] Ha. unfold area, positive_box in *. nia. Qed.

Lemma overlap_ratio_zero (f g : FormField) :
  proper_box f -> proper_box g ->
  (area f = 0 \/ area g = 0)%Z -> overlap_ratio f g = Raise ZeroDivisionError.
Proof.
  intros Hf%area_proper Hg%area_proper H.
  apply (proj1 (overlap_ratio_cases f g)). lia.
Qed.

(** Once a region is kept, a region without area among those kept first
    or those still to come makes the loops raise. *)
Lemma suppress_raises (fs : list FormField) (k0 : FormField) (kept : list FormField) :
  proper_box k0 -> Forall proper_box fs -> fs <> [] ->
  (area k0 = 0%Z \/ Exists (fun f => area f = 0%Z) fs) ->
  suppress fs (k0 :: kept) = Raise ZeroDivisionError.
Proof.
  intros Hk0 Hfs. revert kept. induction Hfs as [|f fs Hf Hfs IH]; intros kept Hne Hz;
    [contradiction|].
  cbn [suppress is_duplicate].
  destruct (Z.eq_dec (area k0) 0%Z) as [Hk|Hk].
  { rewrite (overlap_ratio_zero f k0) by auto. reflexivity. }
  destruct (Z.eq_dec (area f) 0%Z) as [Ha|Ha].
  { rewrite (overlap_ratio_zero f k0) by auto. reflexivity. }
  assert (Hrest : Exists (fun f => area f = 0%Z) fs).
  { destruct Hz as [Hz|Hz]; [contradiction|].
    apply Exists_cons in Hz as [Hz|Hz]; [contradiction | exact Hz]. }
  assert (Hfs' : fs <> []) by (intros ->; now apply Exists_nil in Hrest).
  destruct (overlap_ratio f k0) as [r|e] eqn:Er.
  - destruct (Qltb (1 # 2) r).
    + apply IH; auto.
    + destruct (is_duplicate f kept) as [[|]|e] eqn:Ed.
      * apply IH; auto.
      * apply (IH (kept ++ [f])%list); auto.
      * now apply is_duplicate_raises in Ed as [-> _].
  - now apply overlap_ratio_raises in Er as [-> _].
Qed.

Lemma deduplicate_raises_iff (l : list FormField) :
  Forall proper_box l ->
  deduplicate l = Raise ZeroDivisionError
  <-> (2 <= length l)%nat /\ Exists (fun f => area f = 0%Z) l.
Proof.
  intros Hl. split.
  - intros Hd.
    destruct (decide (Exists (fun f => area f = 0%Z) l)) as [Hex|Hnex].
    + split; [|exact Hex].
      destruct l as [|f0 [|f1 l1]]; [discriminate Hd | | cbn [length]; lia].
      cbn in Hd. discriminate Hd.
    + exfalso. assert (Hpos : Forall positive_box l).
      { rewrite Forall_forall in *. intros f Hf.
        apply proper_nonzero_positive; [auto|].
        intros Ha. apply Hnex, Exists_exists. eauto. }
      unfold deduplicate in Hd. destruct l as [|f0 l0] eqn:El; [discriminate|].
      rewrite <- El in *.
      assert (Hpos' : Forall positive_box (sort_by_confidence l)).
      { eapply Permutation_Forall; [apply sort_perm | exact Hpos]. }
      destruct (suppress_defined _ [] Hpos' (List.Forall_nil _)) as [res Hres].
      rewrite Hres in Hd. discriminate.
  - intros [Hlen Hz]. unfold deduplicate.
    destruct l as [|f0 l0] eqn:El; [cbn [length] in Hlen; lia|]. rewrite <- El in *.
    pose proof (sort_perm l) as Hperm.
    assert (Hproper : Forall proper_box (sort_by_confidence l)).
    { eapply Permutation_Forall; [exact Hperm | exact Hl]. }
    assert (Hzero : Exists (fun f => area f = 0%Z) (sort_by_confidence l)).
    { apply Exists_exists in Hz as (f & Hf & Ha). apply Exists_exists.
      exists f. split; [|exact Ha]. apply list_elem_of_In.
      eapply Permutation_in; [exact Hperm | now apply list_elem_of_In]. }
    apply Permutation_length in Hperm.
    destruct (sort_by_confidence l) as [|s0 [|s1 rest]];
      [cbn [length] in Hperm; lia | cbn [length] in Hperm; lia |].
    change (suppress (s0 :: s1 :: rest) []) with (suppress (s1 :: rest) [s0]).
    apply Forall_cons in Hproper as [Hs0 Hrest].
    apply suppress_raises; [exact Hs0 | exact Hrest | discriminate |].
    apply Exists_cons in Hzero as [Hz0|Hz0]; auto.
Qed.

(** X14. On regions whose widths and heights are not negative, the
    deduplicator raises, and what it raises is the division error,
    exactly when its argument holds at least two regions one of which has
    no area; a single region is returned whatever its area. *)
Theorem remove_duplicates_raises_iff
    (fields : ref) (sigma : store) (l : list FormField) :
  Forall proper_box l ->
  sigma !! fields = Some l ->
  ((exists e, (_remove_duplicates fields sigma).1 = Raise e)
     <-> (2 <= length l)%nat /\ Exists (fun f => area f = 0%Z) l)
  /\ (forall e, (_remove_duplicates fields sigma).1 = Raise e -> e = ZeroDivisionError).
Proof.
  intros Hl Hs.
  pose proof (Deduplicator.remove_duplicates_deduplicate _ _ _ Hs) as H.
  pose proof (deduplicate_raises_iff l Hl) as Hiff.
  pose proof (deduplicate_raises_only l) as He.
  destruct (deduplicate l) as [kept|e] eqn:Ed.
  - destruct H as (out & sigma' & -> & _). cbn [fst]. split.
    + split; [intros [e He']; discriminate He'|].
      intros Hc. apply Hiff in Hc. discriminate Hc.
    + intros e He'. discriminate He'.
  - destruct H as (sigma' & ->). cbn [fst]. pose proof (He e eq_refl) as ->. split.
    + split; [intros _; now apply Hiff | eauto].
    + now intros e [= <-].
Qed.

Lemma remove_duplicates_raises_iff_witness :
  ((exists e, (_remove_duplicates 0%nat Sample.flat_list).1 = Raise e)
     <-> (2 <= length [Sample.low; Sample.flat])%nat
         /\ Exists (fun f => area f = 0%Z) [Sample.low; Sample.flat])
  /\ (forall e, (_remove_duplicates 0%nat Sample.flat_list).1 = Raise e
                -> e = ZeroDivisionError).
Proof.
  apply (remove_duplicates_raises_iff 0%nat Sample.flat_list [Sample.low; Sample.flat]).
  - repeat constructor; discriminate.
  - apply lookup_singleton_eq.
Defined.

End DedupExtras.

(** ** More on the detector *)

Module DetectorExtras.

Import ScreenAnalyzer DedupSpec GeometryFacts DedupFacts RegionSpec LabelSpec.

(** X15. The kind [_classify_field_type] gives depends on the size of
    the box alone: [textarea] exactly when the height exceeds 80,
    [select] exactly when the width lies strictly between 100 and 200 and
    the height strictly between 20 and 40, and [input] in every other
    case, so that the test for wide and low boxes changes nothing; the
    kind is never [file]. *)
Theorem classify_field_type_cases (x y w h : Z) :
  (_classify_field_type x y w h = "textarea" <-> (80 < h)%Z)
  /\ (_classify_field_type x y w h = "select"
      <-> (100 < w < 200)%Z /\ (20 < h < 40)%Z)
  /\ (_classify_field_type x y w h = "input"
      <-> (h <= 80)%Z /\ ~ ((100 < w < 200)%Z /\ (20 < h < 40)%Z))
  /\ _classify_field_type x y w h <> "file".
Proof.
  unfold _classify_field_type.
  destruct (Z.ltb_spec 80 h), (Z.ltb_spec 400 w), (Z.ltb_spec h 50),
    (Z.ltb_spec 100 w), (Z.ltb_spec w 200), (Z.ltb_spec 20 h), (Z.ltb_spec h 40);
    cbn [andb]; repeat split; try discriminate; try lia; intros; try lia;
    try reflexivity; try discriminate.
Qed.

Lemma upload_confidence (c : Z) : (30 < c)%Z -> (3 # 10 < inject_Z c / 100)%Q.
Proof.
  intros Hc. unfold Qlt, Qdiv, Qmult, Qinv, inject_Z. simpl. lia.
Qed.

Lemma upload_fields_invariant (tokens : list Token) (f : FormField) :
  In f (upload_fields tokens) ->
  exists t,
    In t tokens
    /\ label f = Some (tok_text t)
    /\ existsb (fun keyword => Py.contains keyword (Py.lower (tok_text t)))
               upload_keywords = true
    /\ field_type f = "file"
    /\ (0 <= x f)%Z /\ (0 <= y f)%Z /\ (40 <= width f)%Z /\ (20 <= height f)%Z
    /\ (3 # 10 < confidence f)%Q.
Proof.
  induction tokens as [|t rest IH]; cbn [upload_fields]; [contradiction|].
  destruct (tok_conf t) as [c|]; [|contradiction].
  destruct (Z.ltb_spec 30 c) as [Hc|Hc]; cbn [andb].
  - destruct (existsb _ upload_keywords) eqn:Ek.
    + intros [<-|Hin].
      * exists t. cbn. split; [now left|]. split; [reflexivity|]. split; [exact Ek|].
        split; [reflexivity|]. repeat split; try lia. now apply upload_confidence.
      * destruct (IH Hin) as (t' & Ht' & H). exists t'. split; [now right | exact H].
    + intros Hin. destruct (IH Hin) as (t' & Ht' & H). exists t'.
      split; [now right | exact H].
  - intros Hin. destruct (IH Hin) as (t' & Ht' & H). exists t'.
    split; [now right | exact H].
Qed.

Lemma upload_pass_lemma (gray : Frame) :
  (image_to_data gray = None -> _detect_buttons_and_uploads gray = [])
  /\ forall f, In f (_detect_buttons_and_uploads gray) ->
       field_type f = "file"
       /\ (0 <= x f)%Z /\ (0 <= y f)%Z /\ (40 <= width f)%Z /\ (20 <= height f)%Z
       /\ (3 # 10 < confidence f)%Q.
Proof.
  unfold _detect_buttons_and_uploads. split; [now intros ->|].
  destruct (image_to_data gray) as [tokens|]; [|contradiction].
  intros f (t & _ & _ & _ & H)%upload_fields_invariant. exact H.
Qed.

(** X16. Every region the upload-keyword pass builds is a file-upload
    region whose label is the text of an OCR token, as the engine spelt
    it, that holds one of the upload keywords when lower-cased; its
    origin is not negative, it is at least 40 wide and 20 high, and its
    confidence exceeds 0.3. When the OCR engine raises the pass finds
    nothing. *)
Theorem upload_pass_regions (gray : Frame) :
  (image_to_data gray = None -> _detect_buttons_and_uploads gray = [])
  /\ forall f, In f (_detect_buttons_and_uploads gray) ->
       exists tokens t,
         image_to_data gray = Some tokens /\ In t tokens
         /\ label f = Some (tok_text t)
         /\ existsb (fun keyword => Py.contains keyword (Py.lower (tok_text t)))
                    upload_keywords = true
         /\ field_type f = "file"
         /\ (0 <= x f)%Z /\ (0 <= y f)%Z /\ (40 <= width f)%Z /\ (20 <= height f)%Z
         /\ (3 # 10 < confidence f)%Q.
Proof.
  unfold _detect_buttons_and_uploads. split; [now intros ->|].
  destruct (image_to_data gray) as [tokens|]; [|contradiction].
  intros f (t & Ht & H)%upload_fields_invariant. exists tokens, t. auto.
Qed.

Lemma aspect_bounds (w h : Z) :
  (0 < h)%Z ->
  Qltb (3 # 2) (inject_Z w / inject_Z h) = true ->
  Qltb (inject_Z w / inject_Z h) 20 = true ->
  (3 * h < 2 * w)%Z /\ (w < 20 * h)%Z.
Proof.
  intros Hh H1%Qltb_lt H2%Qltb_lt. destruct h as [|p|p]; try lia.
  unfold Qlt, Qdiv, Qmult, Qinv, inject_Z in *. simpl in *. lia.
Qed.

Lemma contour_fields_invariant (gray : Frame) (f : FormField) :
  In f (contour_fields gray) ->
  In (field_type f) ["input"; "textarea"; "select"]
  /\ (20 < width f < 800)%Z /\ (15 < height f < 100)%Z
  /\ (3 * height f < 2 * width f)%Z /\ (width f < 20 * height f)%Z
  /\ confidence f = (7 # 10)%Q
  /\ label f = _extract_nearby_text (x f) (y f) (width f) (height f) gray.
Proof.
  unfold contour_fields. rewrite in_flat_map. intros (c & _ & Hf).
  unfold passes_filter in Hf. destruct (bounding_rect c) as [[[cx cy] w] h].
  destruct (_ && _) eqn:E; [|contradiction]. destruct Hf as [<-|[]]. cbn.
  rewrite !andb_true_iff in E. destruct E as [[[[[H1 H2] H3] H4] _] [H5 H6]].
  apply Z.ltb_lt in H1, H2, H3, H4.
  destruct (aspect_bounds w h) as [Ha Hb]; [lia | assumption | assumption |].
  split.
  { pose proof (Z.ltb_spec 80 h) as S1.
    unfold _classify_field_type.
    destruct (80 <? h)%Z; [tauto|]. destruct (_ && _); [tauto|].
    destruct (_ && _); tauto. }
  repeat split; lia || reflexivity.
Qed.

Lemma detect_form_fields_returns (self self' : ScreenAnalyzer)
    (screenshot_arg : option Frame) (found : list FormField) :
  detect_form_fields self screenshot_arg = (Return found, self') ->
  exists gray,
    frame_of self screenshot_arg = Some gray
    /\ colour_image gray
    /\ self' = {| screenshot := screenshot self; form_fields := found |}
    /\ deduplicate (contour_fields gray ++ _detect_buttons_and_uploads gray)%list
       = Return found.
Proof.
  intros Hd. destruct (frame_of self screenshot_arg) as [gray|] eqn:Hg.
  - destruct (opencv_accepts gray) eqn:Hcv.
    + destruct (Detector.detect_form_fields_runs self screenshot_arg gray Hg Hcv)
        as (found' & Hr & Hdd).
      rewrite Hr in Hd. injection Hd as <- <-. exists gray.
      split; [reflexivity|]. split; [now apply Detector.opencv_accepts_colour_image|]. auto.
    + rewrite Detector.detect_form_fields_unfold, Hg, Hcv in Hd. discriminate.
  - rewrite Detector.detect_form_fields_unfold, Hg in Hd. discriminate.
Qed.

(** A region the contour pass builds has fewer than [2 ^ 53] pixels. *)
Lemma small_contour_region (f : FormField) :
  (0 < width f < 800)%Z -> (0 < height f < 100)%Z -> small_box f.
Proof.
  intros Hw Hh. unfold small_box. rewrite pixel_count_area by lia.
  unfold area. nia.
Qed.

Lemma detected_members (gray : Frame) (found : list FormField) :
  deduplicate (contour_fields gray ++ _detect_buttons_and_uploads gray)%list
    = Return found ->
  Forall (fun f =>
            positive_box f
            /\ In (field_type f) known_kinds
            /\ (3 # 10 < confidence f)%Q
            /\ (field_type f <> "file" ->
                (20 < width f < 800)%Z /\ (15 < height f < 100)%Z
                /\ (3 * height f < 2 * width f)%Z /\ (width f < 20 * height f)%Z
                /\ confidence f = (7 # 10)%Q)) found.
Proof.
  intros (Hsub & _ & _)%DedupExtras.deduplicate_post.
  apply Forall_forall. intros f Hf.
  assert (Hin : In f (contour_fields gray ++ _detect_buttons_and_uploads gray)%list).
  { eapply Permutation_in; [symmetry; apply sort_perm|].
    apply list_elem_of_In. eapply elem_of_sublist; eassumption. }
  apply in_app_iff in Hin as [Hc|Hu].
  - apply contour_fields_invariant in Hc as (Hk & Hw & Hh & Ha & Hb & Hconf & _).
    split; [unfold positive_box; lia|]. split.
    { unfold known_kinds. cbn [In] in *. tauto. }
    split; [rewrite Hconf; reflexivity | auto].
  - destruct (proj2 (upload_pass_lemma gray) f Hu) as (Hk & Hx & Hy & Hw & Hh & Hc).
    split; [unfold positive_box; lia|]. split.
    { rewrite Hk. unfold known_kinds. cbn [In]. tauto. }
    split; [exact Hc | now intros []].
Qed.

(** X17. What a detection call returns. The frame it worked on is an
    array OpenCV takes for a colour image. Every region has a positive
    width and height, one of the four known kinds and a confidence above
    0.3; a region that is not a file upload has a width between 20 and
    800, a height between 15 and 100, a width more than one and a half
    times and less than twenty times its height, and the confidence 0.7.
    The regions come by falling confidence, and any two of them overlap
    by no more than the float division takes for a half: by at most half
    of the smaller area when one of them is not a file upload or has
    fewer than [2 ^ 53] pixels. The analyzer remembers the regions
    returned, and keeps the screenshot it had. *)
Theorem detect_form_fields_postcondition
    (self self' : ScreenAnalyzer) (screenshot_arg : option Frame)
    (found : list FormField) :
  detect_form_fields self screenshot_arg = (Return found, self') ->
  form_fields self' = found
  /\ screenshot self' = screenshot self
  /\ (exists gray, frame_of self screenshot_arg = Some gray /\ colour_image gray)
  /\ Forall (fun f =>
               positive_box f
               /\ In (field_type f) known_kinds
               /\ (3 # 10 < confidence f)%Q
               /\ (field_type f <> "file" ->
                   (20 < width f < 800)%Z /\ (15 < height f < 100)%Z
                   /\ (3 * height f < 2 * width f)%Z /\ (width f < 20 * height f)%Z
                   /\ confidence f = (7 # 10)%Q)) found
  /\ StronglySorted ge_conf found
  /\ forall pre g mid f post,
       found = (pre ++ g :: mid ++ f :: post)%list ->
       nearly_apart f g
       /\ (field_type f <> "file" \/ field_type g <> "file"
           \/ small_box f \/ small_box g -> apart f g).
Proof.
  intros (gray & Hg & Hcv & -> & Hd)%detect_form_fields_returns.
  split; [reflexivity|]. split; [reflexivity|]. split; [eauto|].
  pose proof (detected_members gray found Hd) as Hm.
  split; [exact Hm|].
  apply DedupExtras.deduplicate_post in Hd as (Hsub & Hsorted & Hind).
  split; [exact Hsorted|].
  intros pre g mid f post ->.
  destruct (DedupExtras.independent_pair _ _ _ _ _ Hind) as (Hfg & _ & Hsmall).
  split; [exact Hfg|]. intros Hkind. apply Hsmall.
  rewrite Forall_forall in Hm.
  assert (Hsm : forall r, In r (pre ++ g :: mid ++ f :: post)%list ->
                  field_type r <> "file" -> small_box r).
  { intros r Hr%list_elem_of_In Hk. destruct (Hm r Hr) as (_ & _ & _ & Hb).
    destruct (Hb Hk) as (Hw & Hh & _). apply small_contour_region; lia. }
  destruct Hkind as [Hk|[Hk|[Hk|Hk]]]; [left | right | now left | now right];
    apply Hsm; try exact Hk; apply in_app_iff; right.
  - right. apply in_app_iff. right. now left.
  - now left.
Qed.


Lemma color_of_known (kind : string) :
  In kind known_kinds -> In (color_of kind) ["red"; "blue"; "green"; "orange"].
Proof.
  unfold known_kinds. cbn [In].
  intros [<-|[<-|[<-|[<-|[]]]]]; vm_compute; tauto.
Qed.

Lemma draw_field_outline (f : FormField) :
  Forall (fun op => outline_of op = color_of (field_type f)) (draw_field f).
Proof.
  unfold draw_field. constructor; [reflexivity|].
  destruct (label f) as [text|]; [|constructor].
  destruct (Py.truthy text); repeat constructor.
Qed.

Lemma draw_field_rectangles (l : list FormField) :
  length (List.filter is_rectangle (flat_map draw_field l)) = length l.
Proof.
  induction l as [|f l IH]; [reflexivity|].
  cbn [flat_map]. rewrite List.filter_app, length_app, IH.
  unfold draw_field. destruct (label f) as [text|]; [|reflexivity].
  now destruct (Py.truthy text).
Qed.

Lemma detected_kinds (self self' : ScreenAnalyzer) (screenshot_arg : option Frame)
    (found : list FormField) :
  detect_form_fields self screenshot_arg = (Return found, self') ->
  Forall (fun f => In (field_type f) known_kinds) found.
Proof.
  intros (gray & _ & _ & _ & H)%detect_form_fields_returns.
  apply detected_members in H.
  eapply Forall_impl; [exact H|]. now intros f (_ & Hk & _).
Qed.



Lemma find_covering (l : list FormField) (px py : Z) :
  (List.find (fun field => covers field px py) l = None
     <-> Forall (fun f => covers f px py = false) l)
  /\ forall g, List.find (fun field => covers field px py) l = Some g ->
       covers g px py = true
       /\ exists before after,
            l = (before ++ g :: after)%list
            /\ Forall (fun f => covers f px py = false) before.
Proof.
  induction l as [|f l [IHn IHs]]; cbn [List.find].
  - split; [split; [constructor | reflexivity] | discriminate].
  - destruct (covers f px py) eqn:E.
    + split.
      * split; [discriminate|]. intros H. apply Forall_inv in H. congruence.
      * intros g [= <-]. split; [exact E|]. exists [], l. split; [reflexivity | constructor].
    + split.
      * rewrite IHn. split; [now constructor | now intros H%Forall_inv_tail].
      * intros g (Hg & before & after & -> & Hb)%IHs. split; [exact Hg|].
        exists (f :: before), after. split; [reflexivity | now constructor].
Qed.

Lemma click_point_covered (f : FormField) :
  proper_box f ->
  covers f (FormFiller.click_point f).1 (FormFiller.click_point f).2 = true.
Proof.
  intros [Hw Hh]. unfold covers, FormFiller.click_point. cbn [fst snd].
  pose proof (Z.div_pos (width f) 2 Hw ltac:(lia)).
  pose proof (Z.div_pos (height f) 2 Hh ltac:(lia)).
  pose proof (Z.div_le_upper_bound (width f) 2 (width f) ltac:(lia) ltac:(lia)).
  pose proof (Z.div_le_upper_bound (height f) 2 (height f) ltac:(lia) ltac:(lia)).
  rewrite !andb_true_iff, !Z.leb_le. lia.
Qed.


Lemma empty_width (gray : Frame) (r0 r1 c0 c1 : Z) :
  (slice_bound (cols gray) c1 <= slice_bound (cols gray) c0)%Z ->
  size (crop gray r0 r1 c0 c1) = 0%Z.
Proof. intros H. unfold size, crop. cbn [row0 row1 col0 col1]. nia. Qed.

Lemma empty_height (gray : Frame) (r0 r1 c0 c1 : Z) :
  (slice_bound (rows gray) r1 <= slice_bound (rows gray) r0)%Z ->
  size (crop gray r0 r1 c0 c1) = 0%Z.
Proof. intros H. unfold size, crop. cbn [row0 row1 col0 col1]. nia. Qed.

Lemma probe_empty (gray : Frame) (region : Slice) :
  size region = 0%Z -> probe gray region = None.
Proof. intros H. unfold probe. now rewrite H. Qed.

(** X21. A region in the top left corner of the frame that reaches the
    right border has no place around it to read a label from: the
    extractor returns no label, whatever the OCR engine would answer. *)
Theorem extract_nearby_text_no_room (w h : Z) (gray : Frame) :
  (0 <= cols gray)%Z ->
  (cols gray <= w)%Z ->
  _extract_nearby_text 0 0 w h gray = None.
Proof.
  intros Hc Hw. unfold _extract_nearby_text, search_regions, margin, height_expansion.
  rewrite !Detector.first_label_cons. cbn [first_label].
  assert (Hl : forall r0 r1, probe gray (crop gray r0 r1 (Z.max 0 (0 - 200)) 0) = None).
  { intros r0 r1. apply probe_empty, empty_width.
    change (Z.max 0 (0 - 200)) with 0%Z. apply Z.le_refl. }
  assert (Ha : forall c0 c1, probe gray (crop gray (Z.max 0 (0 - 40)) 0 c0 c1) = None).
  { intros c0 c1. apply probe_empty, empty_height.
    change (Z.max 0 (0 - 40)) with 0%Z. apply Z.le_refl. }
  assert (Hr : forall r0 r1,
             probe gray (crop gray r0 r1 (0 + w) (Z.min (cols gray) (0 + w + 200))) = None).
  { intros r0 r1. apply probe_empty, empty_width. unfold slice_bound.
    destruct (Z.ltb_spec (0 + w) 0), (Z.ltb_spec (Z.min (cols gray) (0 + w + 200)) 0); lia. }
  now rewrite Hl, Ha, Hr.
Qed.

Lemma extract_nearby_text_no_room_witness :
  _extract_nearby_text 0 0 800 40 Sample.upload_frame = None.
Proof.
  apply (extract_nearby_text_no_room 800 40 Sample.upload_frame).
  - cbn. lia.
  - cbn. lia.
Defined.

Lemma detect_form_fields_postcondition_witness :
  form_fields Sample.crowded_analyzer = [Sample.upload_far_region; Sample.plain_region]
  /\ screenshot Sample.crowded_analyzer = screenshot __init__
  /\ (exists gray, frame_of __init__ (Some Sample.crowded_frame) = Some gray
                   /\ colour_image gray)
  /\ Forall (fun f =>
               positive_box f
               /\ In (field_type f) known_kinds
               /\ (3 # 10 < confidence f)%Q
               /\ (field_type f <> "file" ->
                   (20 < width f < 800)%Z /\ (15 < height f < 100)%Z
                   /\ (3 * height f < 2 * width f)%Z /\ (width f < 20 * height f)%Z
                   /\ confidence f = (7 # 10)%Q))
            [Sample.upload_far_region; Sample.plain_region]
  /\ StronglySorted ge_conf [Sample.upload_far_region; Sample.plain_region]
  /\ forall pre g mid f post,
       [Sample.upload_far_region; Sample.plain_region]
         = (pre ++ g :: mid ++ f :: post)%list ->
       nearly_apart f g
       /\ (field_type f <> "file" \/ field_type g <> "file"
           \/ small_box f \/ small_box g -> apart f g).
Proof.
  apply (detect_form_fields_postcondition __init__ Sample.crowded_analyzer
           (Some Sample.crowded_frame) [Sample.upload_far_region; Sample.plain_region]).
  vm_compute. reflexivity.
Defined.

End DetectorExtras.

(** ** The callers *)

Module CallerExtras.

Import ScreenAnalyzer FieldMatcher FormFiller MatchSpec PatternSpec.

Lemma detect_web_field_lookup (mappings : gmap string string) (field : WebElement)
    (ident key : string) :
  detect_web_field mappings field !! ident = Some key ->
  mappings !! ident = Some key
  \/ (is_displayed field = true
      /\ field_identifier field = ident
      /\ ident <> ""
      /\ exists m,
           _pattern_field_matching (field_text field) (or_else (attr_type field) "input")
             = Some m
           /\ data_key m = key
           /\ PrimFloat.ltb 0.6 (confidence m) = true).
Proof.
  unfold detect_web_field. destruct (is_displayed field); cbn [negb]; [|auto].
  cbv zeta. destruct (Py.truthy (field_identifier field)) eqn:Et; [|auto].
  destruct (_pattern_field_matching _ _) as [m|] eqn:Em; [|auto].
  destruct (PrimFloat.ltb 0.6 (confidence m)) eqn:Ec; [|auto].
  destruct (String.eqb_spec (field_identifier field) ident) as [<-|Hne].
  - rewrite lookup_insert_eq. intros [= <-]. right.
    split; [reflexivity|]. split; [reflexivity|].
    split; [now destruct (field_identifier field)|]. eauto.
  - rewrite lookup_insert_ne by exact Hne. auto.
Qed.

Lemma detect_web_fields_lookup (all_fields : list (option WebElement))
    (mappings : gmap string string) (ident key : string) :
  detect_web_fields mappings all_fields !! ident = Some key ->
  mappings !! ident = Some key
  \/ exists field,
       In (Some field) all_fields
       /\ is_displayed field = true
       /\ field_identifier field = ident
       /\ ident <> ""
       /\ exists m,
            _pattern_field_matching (field_text field) (or_else (attr_type field) "input")
              = Some m
            /\ data_key m = key
            /\ PrimFloat.ltb 0.6 (confidence m) = true.
Proof.
  revert mappings. induction all_fields as [|[field|] rest IH]; intros mappings;
    cbn [detect_web_fields]; [auto | | auto].
  intros [H|(f & Hin & H)]%IH.
  - apply detect_web_field_lookup in H as [H|H]; [auto|].
    right. exists field. split; [now left | exact H].
  - right. exists f. split; [now right | exact H].
Qed.



(** X23. [fill_screen_form] pairs matches with fields by position.
    Without a text-understanding service, when the first region detected
    has no match and the second has one, the first fill the call
    attempts, once the preview is accepted, puts the key matched for the
    second region into the first region. *)
Theorem fill_screen_form_pairs_by_position
    (self : FormFiller) (env : Session) (frame : Screenshot)
    (f1 f2 : FormField) (rest : list FormField) (m2 : FieldMatch)
    (analyzer' : ScreenAnalyzer) :
  anthropic (field_matcher self) = None ->
  capture env = Some frame ->
  detect_form_fields (capture_screen (screen_analyzer self) frame).2 None
    = (Return (f1 :: f2 :: rest), analyzer') ->
  (confirmation_required self = true ->
   preview env (f1 :: f2 :: rest) (m2 :: omap pattern_of_field rest) = Some true) ->
  pattern_of_field f1 = None ->
  pattern_of_field f2 = Some m2 ->
  label f2 = Some (field_name m2)
  /\ exists more, (fill_screen_form self env).2 = (f1, data_key m2) :: more.
Proof.
  intros Hnone Hcap Hdet Hprev H1 H2.
  split; [now apply MatchFields.pattern_of_field_labelled|].
  unfold fill_screen_form. rewrite Hcap.
  destruct (capture_screen (screen_analyzer self) frame) as [shot analyzer] eqn:Ec.
  cbn [snd] in Hdet. rewrite Hdet.
  rewrite (MatchFields.match_fields_without_service (field_matcher self) _ _ Hnone).
  change (omap pattern_of_field (f1 :: f2 :: rest))
    with (match pattern_of_field f1 with
          | Some m => m :: omap pattern_of_field (f2 :: rest)
          | None => omap pattern_of_field (f2 :: rest)
          end).
  rewrite H1.
  change (omap pattern_of_field (f2 :: rest))
    with (match pattern_of_field f2 with
          | Some m => m :: omap pattern_of_field rest
          | None => omap pattern_of_field rest
          end).
  rewrite H2. cbv zeta.
  destruct (confirmation_required self).
  - rewrite (Hprev eq_refl). cbn [snd combine map]. eauto.
  - cbn [snd combine map]. eauto.
Qed.

Lemma fill_screen_form_pairs_by_position_witness :
  label Sample.resume_region = Some "Resume"
  /\ exists more,
       (fill_screen_form Sample.filler Sample.session).2
         = (Sample.plain_region, "resume") :: more.
Proof.
  apply (fill_screen_form_pairs_by_position Sample.filler Sample.session
           Sample.form_shot Sample.plain_region Sample.resume_region []
           Sample.resume_match
           {| screenshot := Some Sample.form_frame;
              form_fields := [Sample.plain_region; Sample.resume_region] |}).
  - reflexivity.
  - reflexivity.
  - vm_compute. reflexivity.
  - reflexivity.
  - vm_compute. reflexivity.
  - vm_compute. reflexivity.
Defined.

End CallerExtras.
